(** * DeepGalaxy: the spaced-repetition scheduler of [app.js]

    A shallow embedding of the scheduling core of the flashcard application
    ([Logic.calculateSM2], [Logic.getUserStats], [Logic.calculateCardStats],
    [Logic.getDueCards] and [App.submitReview]) together with the properties
    of its specification, followed by the code around it: the card store,
    the study session ([App.startSession], [App.renderCurrentStudyCard],
    [App.deleteCardFromStudy]), the deletion of cards and decks, and the
    numbers computed for the dashboard and the deck list.

    JavaScript numbers are IEEE-754 binary64 values; they are modelled by the
    kernel's primitive [float], whose operations are specified by
    [FloatAxioms] in terms of [SpecFloat].  Decimal literals are therefore
    written exactly as in the source and denote the same doubles.

    The source file holds two versions of the application, one after the
    other, with the same scheduler; the embedding follows the first one.

    Modelling choices:
    - a [Date] is its time value in milliseconds, and a stored ISO string is
      the time value it parses to;
    - [getDate] and [setDate] work on the calendar of the local zone, where
      a day is not always [864e5] ms: they are parameters, and a statement
      about 24 hours names the condition on them;
    - the clock is read once per call: every [new Date()] of a call is [now];
    - the object stores are lists; a failing request is [None]; a record put
      under a new key goes to the end of the list, where the store keeps the
      order of the keys: no statement depends on that position;
    - [Math.exp], [Math.log2] and [Math.log10] are parameters;
    - an exception ([toISOString] on an invalid date, no current card) is
      [None]. *)

From Stdlib Require Import ZArith List Bool Lia Sorting.Sorted Permutation.
From Stdlib Require Import Floats.
From Stdlib Require Uint63.
From Stdlib Require String.
Import ListNotations.

Open Scope float_scope.
Set Warnings "-inexact-float".

(* ================================================================== *)
(** ** JavaScript numbers and the parts of the standard library used *)
(* ================================================================== *)

Module JS.

(** A JavaScript number. *)
Definition num := float.

(** [x > y] and [x >= y] are [y < x] and [y <= x]. *)
Definition gtb (x y : num) : bool := y <? x.
Definition geb (x y : num) : bool := y <=? x.

(** [x === y] on numbers ([NaN] differs from itself, [0 === -0]). *)
Definition strict_eq (x y : num) : bool := x =? y.

(** Truthiness of a number: everything but [0], [-0] and [NaN]. *)
Definition truthy (x : num) : bool := negb (is_zero x || is_nan x).

(** [ToNumber] on a property that may be absent: [undefined] is [NaN]. *)
Definition to_number (o : option num) : num :=
  match o with
  | Some v => v
  | None => nan
  end.

(** [a || b] where [a] is a number or [undefined]. *)
Definition or_else (a : option num) (b : num) : num :=
  match a with
  | Some v => if truthy v then v else b
  | None => b
  end.

(** [Math.max(x, y)]: [NaN] if either is, and [+0] above [-0]. *)
Definition Math_max (x y : num) : num :=
  if is_nan x || is_nan y then nan
  else if x <? y then y
  else if y <? x then x
  else if get_sign x then y else x.

(** [Math.min(x, y)]: [NaN] if either is, and [-0] below [+0]. *)
Definition Math_min (x y : num) : num :=
  if is_nan x || is_nan y then nan
  else if x <? y then x
  else if y <? x then y
  else if get_sign x then x else y.

(** [Math.round] on the specification side: the integer [floor(x + 1/2)]
    computed exactly; a result of zero keeps the sign of [x]. *)
Definition SFround (x : spec_float) : spec_float :=
  match x with
  | S754_finite s m e =>
      if (0 <=? e)%Z then x
      else
        let k := Z.shiftr (2 * cond_Zopp s (Zpos m) + 2 ^ (- e)) (- e + 1) in
        if (k =? 0)%Z then S754_zero s
        else binary_normalize prec emax k 0 false
  | _ => x
  end.

(** A value that is neither NaN nor infinite. *)
Definition SFfinite (x : spec_float) : bool :=
  match x with
  | S754_zero _ | S754_finite _ _ _ => true
  | _ => false
  end.

(** A value of sign [s] that is neither zero nor NaN. *)
Definition SFsigned (s : bool) (x : spec_float) : bool :=
  match x with
  | S754_finite s' _ _ | S754_infinity s' => Bool.eqb s s'
  | _ => false
  end.

Definition Math_round (x : num) : num := SF2Prim (SFround (Prim2SF x)).

(** [arr.length] as a number. *)
Definition of_nat (k : nat) : num := of_uint63 (Uint63.of_Z (Z.of_nat k)).

End JS.

Import JS.

(* ================================================================== *)
(** ** Data model *)
(* ================================================================== *)

(** The object returned by [calculateCardStats].  The two return statements
    build objects with different keys, so every key is optional. *)
Record CardStats := mkStats {
  retention            : option num;
  retentionProbability : option num;
  forgetRisk           : option num;
  retentionScore       : option num;
  priorityScore        : option num
}.

(** A card object.  Timestamps are ISO strings in the source; a present
    timestamp is represented by the time value (milliseconds) that
    [new Date(...)] gives it, an absent or [null] one by [None].  A card that
    went through a study session also carries the statistics keys that
    [getDueCards] merged into it. *)
Record Card := mkCard {
  id             : Z;
  deckId         : Z;
  n              : num;
  I              : num;
  EF             : num;
  nextReviewAt   : option num;
  lastReviewAt   : option num;
  totalSuccesses : option num;
  stats          : CardStats
}.

(** A review log entry.  [reviewedAt] is an ISO string in the source, and
    the index compares such strings in chronological order; it is
    represented by its time value. *)
Record Log := mkLog {
  cardId         : Z;
  reviewedAt     : num;
  q              : num;
  intervalBefore : num;
  efBefore       : num;
  intervalAfter  : num;
  logEF          : num
}.

Record SM2 := mkSM2 { sm2_n : num; sm2_I : num; sm2_EF : num }.

Record UserStats := mkUserStats { forgetRate : num; total : nat }.

Definition no_stats : CardStats := mkStats None None None None None.

(** A card as [saveCard] creates it. *)
Definition new_card (i d : Z) : Card :=
  mkCard i d 0 0 2.5 None None (Some 0) no_stats.

(* ================================================================== *)
(** ** Logic.calculateSM2 *)
(* ================================================================== *)

Definition ease_delta (q : num) : num := 5 - q.

Definition ease_update (ef q : num) : num :=
  let delta := ease_delta q in
  ef + (0.1 - delta * (0.08 + delta * 0.02)).

Definition calculateSM2 (card : Card) (q : num) : SM2 :=
  let nextNI :=
    if q <? 3 then (0, 1)
    else
      let nextN := n card + 1 in
      (nextN,
       if strict_eq nextN 1 then 1
       else if strict_eq nextN 2 then 6
       else Math_round (I card * EF card)) in
  let nextEF := ease_update (EF card) q in
  let nextEF := if nextEF <? 1.3 then 1.3 else nextEF in
  mkSM2 (fst nextNI) (snd nextNI) nextEF.

(* ================================================================== *)
(** ** Logic.getUserStats *)
(* ================================================================== *)

Definition day_ms : num := 864e5.

Section Clock.

(** [Date.prototype.getDate] and [Date.prototype.setDate] on time values:
    the day of the month of a time value in the local zone, and the time
    value of a date moved to a given day of its month at the same local
    time (NaN for an invalid date).  Both depend on the zone of the host and
    on its clock changes: they are parameters of the development. *)
Variable Date_getDate : num -> num.
Variable Date_setDate : num -> num -> num.

(** [cutoff.setDate(cutoff.getDate() - 30)]: thirty calendar days before
    [now]. *)
Definition cutoff (now : num) : num := Date_setDate now (Date_getDate now - 30).

(** The [reviewedAt] index queried with [IDBKeyRange.lowerBound]: the
    entries at or after the bound, or [None] when the request fails. *)
Definition index_getAll_lowerBound (logs : option (list Log)) (lo : num)
  : option (list Log) :=
  option_map (filter (fun l => lo <=? reviewedAt l)) logs.

Definition lapse (l : Log) : bool := q l <? 3.

Definition getUserStats (logs : option (list Log)) (now : num) : UserStats :=
  match index_getAll_lowerBound logs (cutoff now) with
  | Some res =>
      match res with
      | [] => mkUserStats 0 0
      | _ :: _ =>
          mkUserStats (of_nat (length (filter lapse res)) / of_nat (length res))
                      (length res)
      end
  | None => mkUserStats 0 0
  end.

(** The entries that [getUserStats] counts at [now]. *)
Definition window (logs : option (list Log)) (now : num) : list Log :=
  match index_getAll_lowerBound logs (cutoff now) with
  | Some res => res
  | None => []
  end.

(** The trailing 30 days of [now], in the words of the specification: from
    thirty days before [now] up to [now]. *)
Definition in_trailing_30_days (now : num) (l : Log) : bool :=
  (cutoff now <=? reviewedAt l) && (reviewedAt l <=? now).

End Clock.

(* ================================================================== *)
(** ** Logic.calculateCardStats *)
(* ================================================================== *)

Section Scheduler.

(** [Math.exp], [Math.log2] and [Math.log10] are implementation-approximated
    in ECMAScript: they are parameters of the development, and so are the
    two [Date] methods. *)
Variables Math_exp Math_log2 Math_log10 : num -> num.
Variable Date_getDate : num -> num.
Variable Date_setDate : num -> num -> num.

(** The sentinel returned for a card that was never reviewed successfully. *)
Definition sentinel : CardStats :=
  mkStats (Some 0) None (Some 1.0) None (Some 100).

(** [userForgetRate] is received and not used, as in the source; [now] is
    the reading of [new Date()]. *)
Definition calculateCardStats (card : Card) (userForgetRate : num) (now : num)
  : CardStats :=
  if strict_eq (n card) 0 then sentinel
  else
    let lastReview :=
      match lastReviewAt card with Some d => d | None => now end in
    let t := (now - lastReview) / 864e5 in
    let S := Math_max (I card * EF card) 0.1 in
    let ret := Math_exp (- t / S) in
    let risk := 1 - ret in
    let rScore :=
      Math_min 100
        (Math_log2 (1 + or_else (totalSuccesses card) (n card)) * EF card * 10) in
    let overdue :=
      match nextReviewAt card with
      | Some d => if gtb now d then (now - d) / 864e5 else 0
      | None => 0
      end in
    let ps :=
      risk * 0.5 + ((1 - rScore / 100) * 0.3) + (1.0 / EF card) * 0.1
      + Math_log10 (1 + overdue) * 0.1 in
    mkStats None (Some ret) (Some risk) (Some rScore) (Some ps).

(* ================================================================ *)
(** ** Logic.getDueCards *)
(* ================================================================ *)

(** [{...a, ...b}] on the statistics keys: a key of [b] overrides. *)
Definition spread_key (a b : option num) : option num :=
  match b with Some _ => b | None => a end.

Definition spread_stats (a b : CardStats) : CardStats :=
  mkStats (spread_key (retention a) (retention b))
          (spread_key (retentionProbability a) (retentionProbability b))
          (spread_key (forgetRisk a) (forgetRisk b))
          (spread_key (retentionScore a) (retentionScore b))
          (spread_key (priorityScore a) (priorityScore b)).

(** [{...c, ...stats}]. *)
Definition spread (c : Card) (s : CardStats) : Card :=
  mkCard (id c) (deckId c) (n c) (I c) (EF c) (nextReviewAt c)
         (lastReviewAt c) (totalSuccesses c) (spread_stats (stats c) s).

(** [c.priorityScore] read as a number. *)
Definition ps (c : Card) : num := to_number (priorityScore (stats c)).

(** The filter of [getDueCards]. *)
Definition is_due (now : num) (c : Card) : bool :=
  match nextReviewAt c with
  | None => true
  | Some d => (d <=? now) || geb (ps c) 0.6
  end.

(** The comparator [(a, b) => b.priorityScore - a.priorityScore]. *)
Definition by_priority (a b : Card) : num := ps b - ps a.

(** [Array.prototype.sort] with a comparator: a stable sort in which [a]
    is moved behind [b] exactly when the comparator is positive on
    [(a, b)] (a [NaN] result counts as zero). *)
Fixpoint sort_insert {A} (cmp : A -> A -> num) (a : A) (l : list A) : list A :=
  match l with
  | [] => [a]
  | b :: l' => if gtb (cmp a b) 0 then b :: sort_insert cmp a l' else a :: l
  end.

Definition Array_sort {A} (cmp : A -> A -> num) (l : list A) : list A :=
  fold_right (sort_insert cmp) [] l.

(** All readings of the clock during one call are taken at [now]. *)
Definition getDueCards (allCards : list Card) (logs : option (list Log))
  (now : num) : list Card :=
  let forgetRate := forgetRate (getUserStats Date_getDate Date_setDate logs now) in
  let withP :=
    map (fun c => spread c (calculateCardStats c forgetRate now)) allCards in
  let due := filter (is_due now) withP in
  Array_sort by_priority due.

(** The object that [getDueCards] builds for a stored card. *)
Definition withPriority (logs : option (list Log)) (now : num) (c : Card) : Card :=
  spread c (calculateCardStats c (forgetRate (getUserStats Date_getDate Date_setDate
      logs now)) now).

(** The order of the queue: [a] may stand before [b]. *)
Definition before (a b : Card) : Prop := (ps b <=? ps a) = true.

(* ================================================================ *)
(** ** App.submitReview *)
(* ================================================================ *)

(** [qMap = { 1: 1, 2: 3, 3: 4, 4: 5 }]. *)
Definition qMap (uiGrade : Z) : option num :=
  match uiGrade with
  | 1%Z => Some 1
  | 2%Z => Some 3
  | 3%Z => Some 4
  | 4%Z => Some 5
  | _ => None
  end.

Definition easeMultiplier (us : UserStats) : num :=
  if gtb (forgetRate us) 0.35 then 0.9
  else if forgetRate us <? 0.15 then 1.1
  else 1.0.

Definition retentionMultiplier (cs : CardStats) : num :=
  let rScore := to_number (retentionScore cs) in
  if rScore <? 40 then 0.8
  else if gtb rScore 80 then 1.2
  else 1.0.

Definition finalEF (sm2 : SM2) (eMult : num) : num :=
  Math_max (sm2_EF sm2 * eMult) 1.3.

Definition finalInterval (card : Card) (q : num) (sm2 : SM2)
  (efNew rMult : num) : num :=
  if gtb (sm2_n sm2) 2 && geb q 3 then Math_round (I card * efNew * rMult)
  else if q <? 3 then 1
  else sm2_I sm2.

(** A time value that [toISOString] accepts. *)
Definition valid_time (t : num) : bool :=
  negb (is_nan t) && (abs t <=? 8.64e15).

(** [next.setDate(now.getDate() + iNew)]: [iNew] calendar days after
    [now], at the same local time. *)
Definition add_days (now iNew : num) : num :=
  Date_setDate now (Date_getDate now + iNew).

(** The body of [submitReview] between the two reads of the store and the
    two writes: the card and the log entry that are written, or [None]
    when [toISOString] throws on an invalid date. *)
Definition review (card : Card) (q : num) (userStats : UserStats) (now : num)
  : option (Card * Log) :=
  let eMult := easeMultiplier userStats in
  let cs := calculateCardStats card (forgetRate userStats) now in
  let rMult := retentionMultiplier cs in
  let sm2 := calculateSM2 card q in
  let efNew := finalEF sm2 eMult in
  let iNew := finalInterval card q sm2 efNew rMult in
  let next := add_days now iNew in
  if valid_time next then
    let card' :=
      mkCard (id card) (deckId card) (sm2_n sm2) iNew efNew
             (Some next) (Some now)
             (if geb q 3 then Some (or_else (totalSuccesses card) 0 + 1)
              else totalSuccesses card)
             (stats card) in
    let log := mkLog (id card) now q (I card) (EF card) iNew efNew in
    Some (card', log)
  else None.

(** The values [efNew] and [iNew] that [submitReview] computes for a card. *)
Definition efNew_of (card : Card) (q : num) (us : UserStats) : num :=
  finalEF (calculateSM2 card q) (easeMultiplier us).

Definition iNew_of (card : Card) (q : num) (us : UserStats) (now : num) : num :=
  finalInterval card q (calculateSM2 card q) (efNew_of card q us)
    (retentionMultiplier (calculateCardStats card (forgetRate us) now)).

(** The session and the two object stores. *)
Record State := mkState {
  studyQueue       : list Card;
  currentCardIndex : nat;
  cards            : list Card;
  logs             : list Log
}.

(** [db.put('cards', card)]: the record with the same key is replaced. *)
Fixpoint put (card : Card) (store : list Card) : list Card :=
  match store with
  | [] => [card]
  | c :: store' =>
      if (id c =? id card)%Z then card :: store' else c :: put card store'
  end.

(** [arr[i] = v] for an index in range. *)
Fixpoint set_nth {A} (i : nat) (v : A) (l : list A) : list A :=
  match l, i with
  | [], _ => []
  | _ :: l', O => v :: l'
  | x :: l', S i' => x :: set_nth i' v l'
  end.

(** [App.submitReview(uiGrade)] at time [now]; [None] stands for an
    exception (no current card, or an invalid date). *)
Definition submitReview (st : State) (uiGrade : Z) (now : num) : option State :=
  match nth_error (studyQueue st) (currentCardIndex st) with
  | None => None
  | Some card =>
      let q := to_number (qMap uiGrade) in
      let userStats := getUserStats Date_getDate Date_setDate (Some (logs st)) now in
      match review card q userStats now with
      | None => None
      | Some (card', log) =>
          Some (mkState (set_nth (currentCardIndex st) card' (studyQueue st))
                        (S (currentCardIndex st))
                        (put card' (cards st))
                        (logs st ++ [log]))
      end
  end.

End Scheduler.

(* ================================================================== *)
(** ** The card store: db.get, db.del, db.getCardsByDeck *)
(* ================================================================== *)

(** [db.get('cards', k)]: the record with key [k], if any. *)
Definition get (k : Z) (store : list Card) : option Card :=
  find (fun c => (id c =? k)%Z) store.

(** [db.del('cards', k)]. *)
Definition del (k : Z) (store : list Card) : list Card :=
  filter (fun c => negb (id c =? k)%Z) store.

(** [db.getCardsByDeck(d)]: the records whose [deckId] is [d]. *)
Definition getCardsByDeck (d : Z) (store : list Card) : list Card :=
  filter (fun c => (deckId c =? d)%Z) store.

(** The keys of an object store are distinct. *)
Definition keys_distinct (store : list Card) : Prop := NoDup (map id store).

(** A deck record. *)
Record Deck := mkDeck {
  deck_id        : Z;
  deck_name      : String.string;
  deck_createdAt : num;
  deck_updatedAt : num
}.

(** [db.del('decks', k)]. *)
Definition del_deck (k : Z) (decks : list Deck) : list Deck :=
  filter (fun d => negb (deck_id d =? k)%Z) decks.

(** [App.deleteDeck(k)] on the deck store and the card store: the deck is
    deleted, then the cards read by [getCardsByDeck] are deleted one by one;
    [confirmed] is the answer given to [confirm]. *)
Definition deleteDeck (decks : list Deck) (store : list Card) (k : Z)
  (confirmed : bool) : list Deck * list Card :=
  if confirmed then
    (del_deck k decks,
     fold_left (fun s c => del (id c) s) (getCardsByDeck k store) store)
  else (decks, store).

(** [App.deleteCard(k)]. *)
Definition deleteCard (store : list Card) (k : Z) (confirmed : bool) : list Card :=
  if confirmed then del k store else store.

(* ================================================================== *)
(** ** The study session *)
(* ================================================================== *)

(** What [renderCurrentStudyCard] shows. *)
Inductive Screen :=
| StudyCard (card : Card) (total current : nat)
| EmptySession.

Definition renderCurrentStudyCard (st : State) : Screen :=
  if (length (studyQueue st) <=? currentCardIndex st)%nat then EmptySession
  else
    match nth_error (studyQueue st) (currentCardIndex st) with
    | Some card => StudyCard card (length (studyQueue st)) (currentCardIndex st)
    | None => EmptySession
    end.

(** [[...priority, ...rest]]: the cards of the chosen deck first. *)
Definition deck_first (filterId : Z) (due : list Card) : list Card :=
  filter (fun c => (deckId c =? filterId)%Z) due
  ++ filter (fun c => negb (deckId c =? filterId)%Z) due.

(** [arr.splice(i, 1)]. *)
Fixpoint splice1 {A} (i : nat) (l : list A) : list A :=
  match l, i with
  | [], _ => []
  | _ :: l', O => l'
  | x :: l', S i' => x :: splice1 i' l'
  end.

(** [App.deleteCardFromStudy(k)]; [confirmed] is the answer to [confirm]. *)
Definition deleteCardFromStudy (st : State) (k : Z) (confirmed : bool) : State :=
  if confirmed then
    mkState (splice1 (currentCardIndex st) (studyQueue st))
            (currentCardIndex st) (del k (cards st)) (logs st)
  else st.

Section Session.

Variables Math_exp Math_log2 Math_log10 : num -> num.
Variable Date_getDate : num -> num.
Variable Date_setDate : num -> num -> num.

(** [App.startSession()] with [state.studyDeckFilter] holding the key of a
    deck or nothing.  With nothing due the state is left as it is (an alert
    is shown). *)
Definition startSession (st : State) (studyDeckFilter : option Z) (now : num)
  : State :=
  match getDueCards Math_exp Math_log2 Math_log10 Date_getDate Date_setDate
      (cards st) (Some (logs st)) now with
  | [] => st
  | due =>
      mkState (match studyDeckFilter with
               | Some filterId => deck_first filterId due
               | None => due
               end)
              0 (cards st) (logs st)
  end.

(** A run of reviews: each step is a grade button pressed at some time. *)
Fixpoint reviews (st : State) (steps : list (Z * num)) : option State :=
  match steps with
  | [] => Some st
  | (uiGrade, now) :: steps' =>
      match submitReview Math_exp Math_log2 Math_log10 Date_getDate Date_setDate
          st uiGrade now with
      | Some st' => reviews st' steps'
      | None => None
      end
  end.

(* ================================================================ *)
(** ** The second version of the scheduler in the same file *)
(* ================================================================ *)

(** [Logic.calculateCardStats] of the second version: the memory strength
    is guarded by [S > 0 ? S : 0.1] instead of [Math.max(S, 0.1)]. *)
Definition calculateCardStats_v2 (card : Card) (userForgetRate : num) (now : num)
  : CardStats :=
  if strict_eq (n card) 0 then mkStats (Some 0) None (Some 1.0) None (Some 100)
  else
    let lastReview :=
      match lastReviewAt card with Some d => d | None => now end in
    let t_days := (now - lastReview) / (1000 * 60 * 60 * 24) in
    let S := I card * EF card in
    let safeS := if gtb S 0 then S else 0.1 in
    let retentionProbability' := Math_exp (- t_days / safeS) in
    let forgetRisk' := 1 - retentionProbability' in
    let successes := or_else (totalSuccesses card) (n card) in
    let retentionScore' :=
      Math_min 100 (Math_log2 (1 + successes) * EF card * 10) in
    let overdueDays :=
      match nextReviewAt card with
      | Some dueDate =>
          if gtb now dueDate then (now - dueDate) / (1000 * 60 * 60 * 24) else 0
      | None => 0
      end in
    let easePenalty := 1.0 / EF card in
    let priorityScore' :=
      (forgetRisk' * 0.5) + ((1 - retentionScore' / 100) * 0.3)
      + (easePenalty * 0.1) + (Math_log10 (1 + overdueDays) * 0.1) in
    mkStats None (Some retentionProbability') (Some forgetRisk')
            (Some retentionScore') (Some priorityScore').

(** [Logic.getDueCards] of the second version. *)
Definition getDueCards_v2 (allCards : list Card) (logs : option (list Log))
  (now : num) : list Card :=
  let forgetRate := forgetRate (getUserStats Date_getDate Date_setDate logs now) in
  let cardsWithPriority :=
    map (fun card => spread card (calculateCardStats_v2 card forgetRate now))
        allCards in
  let due := filter (is_due now) cardsWithPriority in
  Array_sort by_priority due.

(** The body of [App.submitReview] of the second version: the ease factor
    is clamped by [if (efNew < 1.3) efNew = 1.3]. *)
Definition review_v2 (card : Card) (q : num) (userStats : UserStats) (now : num)
  : option (Card * Log) :=
  let userEFMultiplier :=
    if gtb (forgetRate userStats) 0.35 then 0.9
    else if forgetRate userStats <? 0.15 then 1.1
    else 1.0 in
  let cardStats := calculateCardStats_v2 card (forgetRate userStats) now in
  let rScore := to_number (retentionScore cardStats) in
  let retentionMult :=
    if rScore <? 40 then 0.8 else if gtb rScore 80 then 1.2 else 1.0 in
  let sm2Result := calculateSM2 card q in
  let efNew := sm2_EF sm2Result * userEFMultiplier in
  let efNew := if efNew <? 1.3 then 1.3 else efNew in
  let iNew :=
    if gtb (sm2_n sm2Result) 2 && geb q 3
    then Math_round (I card * efNew * retentionMult)
    else if q <? 3 then 1
    else sm2_I sm2Result in
  let nextDate := add_days Date_getDate Date_setDate now iNew in
  if valid_time nextDate then
    Some (mkCard (id card) (deckId card) (sm2_n sm2Result) iNew efNew
            (Some nextDate) (Some now)
            (if geb q 3 then Some (or_else (totalSuccesses card) 0 + 1)
             else totalSuccesses card)
            (stats card),
          mkLog (id card) now q (I card) (EF card) iNew efNew)
  else None.

End Session.

(* ================================================================== *)
(** ** Numbers shown by the dashboard and the deck list *)
(* ================================================================== *)

(** [UI.renderDashboard]: the log entries reviewed after [now] minus seven
    days ([new Date(l.reviewedAt).getTime() > t7]). *)
Definition last7days (logs : list Log) (now : num) : list Log :=
  let t7 := now - 7 * 864e5 in
  filter (fun l => gtb (reviewedAt l) t7) logs.

(** The success rate of the last seven days shown by [UI.renderDashboard]:
    [Math.round(l7.filter(l => l.q >= 3).length / l7.length * 100)], and 0
    when no review is that recent. *)
Definition rate7d (logs : list Log) (now : num) : num :=
  let l7 := last7days logs now in
  match l7 with
  | [] => 0
  | _ :: _ =>
      Math_round (of_nat (length (filter (fun l => geb (q l) 3) l7))
                  / of_nat (length l7) * 100)
  end.

(** [UI.renderDeckList]: [countMap] after the [forEach] over the cards, as
    a function of the key, and the number shown for a deck,
    [countMap[d.id] || 0]. *)
Definition countMap (allCards : list Card) : Z -> option num :=
  fold_left
    (fun m c key =>
       if (key =? deckId c)%Z then Some (or_else (m (deckId c)) 0 + 1)
       else m key)
    allCards (fun _ => None).

Definition deck_count (allCards : list Card) (d : Deck) : num :=
  or_else (countMap allCards (deck_id d)) 0.

(** What the scheduler keeps true of a card: an ease factor of at least
    1.3, and an interval of at least one day unless the card is at its
    first repetition. *)
Definition schedulable (c : Card) : Prop :=
  (1.3 <=? EF c) = true /\
  (strict_eq (n c) 0 = true \/ (1 <=? I c) = true).

(* ================================================================== *)
(** ** Sample data *)
(* ================================================================== *)

(** Stand-ins for the three [Math] functions, a store of four cards in two
    decks and a log of six reviews, on which the statements below are
    instantiated. *)
(** Stand-ins for the two [Date] methods: a zone without clock changes, on
    the 14th of a month, where a calendar day is 864e5 ms. *)
Definition sample_getDate : num -> num := fun _ => 14.
Definition sample_setDate : num -> num -> num :=
  fun t date => t + (date - 14) * 864e5.

(** The same on the eve of a clock change: the hour between 2 and 3 of the
    next local day is skipped, so that day comes 23 hours later. *)
Definition spring_setDate : num -> num -> num :=
  fun t date => t + (date - 14) * 864e5 - 36e5.

Definition sample_exp : num -> num := fun _ => 0.5.
Definition sample_log2 : num -> num := fun _ => 3.
Definition sample_log10 : num -> num := fun _ => 0.25.

Definition sample_cards : list Card :=
  [mkCard 1 1 3 15 2.5 (Some 1.69e12) (Some 1.68e12) (Some 3) no_stats;
   new_card 2 2;
   mkCard 3 1 1 1 2.6 (Some 1.71e12) (Some 1.6999e12) (Some 1) no_stats;
   mkCard 4 2 2 6 1.3 (Some 1.7e12) (Some 1.69e12) (Some 4) no_stats].

Definition sample_logs : list Log :=
  [mkLog 1 1.699e12 1 0 2.5 1 2.5; mkLog 2 1.699e12 1 6 2.5 1 2.2;
   mkLog 3 1.6995e12 3 1 2.5 6 2.4; mkLog 1 1.6996e12 4 1 2.5 6 2.5;
   mkLog 2 1.6997e12 5 1 2.2 6 2.3; mkLog 4 1.6e12 1 1 2.5 1 2.2].

(** The state right after [startSession] with the second deck chosen. *)
Definition sample_state : State :=
  startSession sample_exp sample_log2 sample_log10 sample_getDate sample_setDate
    (mkState [] 0 sample_cards sample_logs) (Some 2%Z) 1.7e12.

Definition sample_deck : Deck := mkDeck 2 String.EmptyString 1.6e12 1.6e12.

(* ================================================================== *)
(** ** A numbering of the binary64 values *)
(* ================================================================== *)

(** A numbering of the canonical values that follows their order: the
    exponent counted from the least one, then the mantissa. *)
Definition rank (x : spec_float) : Z :=
  match x with
  | S754_zero _ => 0%Z
  | S754_infinity s => cond_Zopp s (2 ^ 70)%Z
  | S754_nan => 0%Z
  | S754_finite s m e => cond_Zopp s ((e - emin) * 2 ^ 53 + Zpos m)%Z
  end.

(* ================================================================== *)
(** ** Facts about binary64 comparison *)
(* ================================================================== *)

Module F64.

Lemma SFcompare_swap (x y : spec_float) :
  SFcompare y x = option_map CompOpp (SFcompare x y).
Proof.
  destruct x as [sx|sx| |sx mx ex], y as [sy|sy| |sy my ey]; simpl;
    try reflexivity;
    try (destruct sx; reflexivity);
    try (destruct sy; reflexivity);
    try (destruct sx, sy; reflexivity).
  assert (H : Pos.compare_cont Eq my mx = CompOpp (Pos.compare_cont Eq mx my))
    by (now rewrite (Pos.compare_cont_antisym mx my Eq)).
  rewrite (Z.compare_antisym ex ey), H.
  destruct sx, sy; simpl; try reflexivity;
    destruct (ex ?= ey)%Z; simpl; reflexivity.
Qed.

Lemma SFcompare_refl (x : spec_float) :
  x <> S754_nan -> SFcompare x x = Some Eq.
Proof.
  destruct x as [s|s| |s m e]; simpl; intros H; try congruence.
  - now destruct s.
  - rewrite Z.compare_refl. fold (Pos.compare m m).
    rewrite Pos.compare_refl. now destruct s.
Qed.

Lemma SFcompare_nan_l (y : spec_float) : SFcompare S754_nan y = None.
Proof. reflexivity. Qed.

Lemma SFcompare_nan_r (x : spec_float) : SFcompare x S754_nan = None.
Proof. now destruct x. Qed.

Lemma SFcompare_some (x y : spec_float) :
  x <> S754_nan -> y <> S754_nan -> exists c, SFcompare x y = Some c.
Proof.
  destruct x, y; simpl; intros; try congruence; eauto.
Qed.

(** Equality with a finite non-zero value is syntactic. *)
Lemma SFeqb_finite (x : spec_float) s m e :
  SFeqb x (S754_finite s m e) = true -> x = S754_finite s m e.
Proof.
  unfold SFeqb.
  destruct x as [sx|sx| |sx mx ex]; simpl; try discriminate.
  - destruct s; discriminate.
  - destruct sx; discriminate.
  - destruct sx, s; try discriminate;
      destruct (Z.compare_spec ex e) as [->|?|?]; try discriminate;
      fold (Pos.compare mx m);
      destruct (Pos.compare_spec mx m) as [->|?|?]; try discriminate;
      reflexivity.
Qed.

Lemma is_nan_spec (x : float) : is_nan x = true <-> Prim2SF x = S754_nan.
Proof.
  unfold is_nan. rewrite eqb_spec. unfold SFeqb. split.
  - intros H. destruct (Prim2SF x) eqn:E; try reflexivity;
      rewrite SFcompare_refl in H by congruence; discriminate.
  - intros ->. reflexivity.
Qed.

Lemma is_nan_false (x : float) : is_nan x = false <-> Prim2SF x <> S754_nan.
Proof.
  rewrite <- is_nan_spec. destruct (is_nan x); split; congruence.
Qed.

Lemma is_nan_eq (x : float) : is_nan x = true -> x = nan.
Proof.
  intros H. apply Prim2SF_inj. apply is_nan_spec in H. now rewrite H.
Qed.

Lemma ltb_nan_l (x y : float) : is_nan x = true -> (x <? y) = false.
Proof.
  intros H. apply is_nan_spec in H. rewrite ltb_spec. unfold SFltb.
  now rewrite H.
Qed.

Lemma ltb_nan_r (x y : float) : is_nan y = true -> (x <? y) = false.
Proof.
  intros H. apply is_nan_spec in H. rewrite ltb_spec. unfold SFltb.
  now rewrite H, SFcompare_nan_r.
Qed.

Lemma leb_not_nan_l (x y : float) : (x <=? y) = true -> is_nan x = false.
Proof.
  rewrite leb_spec. unfold SFleb. intros H. apply is_nan_false. intros E.
  rewrite E in H. discriminate.
Qed.

Lemma leb_not_nan_r (x y : float) : (x <=? y) = true -> is_nan y = false.
Proof.
  rewrite leb_spec. unfold SFleb. intros H. apply is_nan_false. intros E.
  rewrite E, SFcompare_nan_r in H. discriminate.
Qed.

Lemma ltb_not_nan_l (x y : float) : (x <? y) = true -> is_nan x = false.
Proof.
  intros H. destruct (is_nan x) eqn:E; [|reflexivity].
  now rewrite ltb_nan_l in H.
Qed.

Lemma ltb_not_nan_r (x y : float) : (x <? y) = true -> is_nan y = false.
Proof.
  intros H. destruct (is_nan y) eqn:E; [|reflexivity].
  now rewrite ltb_nan_r in H.
Qed.

(** On numbers the order is total: what is not below is at or above. *)
Lemma ltb_false_leb (x y : float) :
  is_nan x = false -> is_nan y = false -> (x <? y) = false -> (y <=? x) = true.
Proof.
  rewrite !is_nan_false, ltb_spec, leb_spec. unfold SFltb, SFleb.
  intros Hx Hy. rewrite (SFcompare_swap (Prim2SF x) (Prim2SF y)).
  destruct (SFcompare_some _ _ Hx Hy) as [c ->]. now destruct c.
Qed.

Lemma leb_ltb_false (x y : float) : (x <=? y) = true -> (y <? x) = false.
Proof.
  rewrite ltb_spec, leb_spec. unfold SFltb, SFleb.
  rewrite (SFcompare_swap (Prim2SF x) (Prim2SF y)).
  destruct (SFcompare (Prim2SF x) (Prim2SF y)) as [[]|]; simpl; congruence.
Qed.

Lemma ltb_leb (x y : float) : (x <? y) = true -> (x <=? y) = true.
Proof.
  rewrite ltb_spec, leb_spec. unfold SFltb, SFleb.
  destruct (SFcompare (Prim2SF x) (Prim2SF y)) as [[]|]; simpl; congruence.
Qed.

Lemma ltb_asym (x y : float) : (x <? y) = true -> (y <? x) = false.
Proof. intros H. now apply leb_ltb_false, ltb_leb. Qed.

Lemma leb_refl (x : float) : is_nan x = false -> (x <=? x) = true.
Proof.
  rewrite is_nan_false, leb_spec. unfold SFleb. intros H.
  now rewrite SFcompare_refl.
Qed.

(** [x === c] for a finite non-zero constant [c] makes [x] that constant. *)
Lemma eqb_finite (x c : float) s m e :
  Prim2SF c = S754_finite s m e -> (x =? c) = true -> x = c.
Proof.
  intros Hc. rewrite eqb_spec, Hc. intros H. apply SFeqb_finite in H.
  apply Prim2SF_inj. congruence.
Qed.

(** Neither below nor above a finite non-zero constant: equal to it. *)
Lemma not_ltb_eq (x c : float) s m e :
  Prim2SF c = S754_finite s m e ->
  is_nan x = false -> (x <? c) = false -> (c <? x) = false -> x = c.
Proof.
  intros Hc Hx H1 H2. apply (eqb_finite x c s m e Hc).
  assert (Hn : is_nan c = false) by (apply is_nan_false; congruence).
  revert H1 H2. apply is_nan_false in Hx, Hn.
  rewrite !ltb_spec, eqb_spec. unfold SFltb, SFeqb.
  rewrite (SFcompare_swap (Prim2SF x) (Prim2SF c)).
  destruct (SFcompare_some _ _ Hx Hn) as [k ->]. now destruct k.
Qed.

End F64.

(* ================================================================== *)
(** ** The library functions on sample values *)
(* ================================================================== *)

Example Math_round_samples :
  Math_round 2.5 = 3 /\ Math_round (-2.5) = -2 /\ Math_round 3.5 = 4 /\
  Math_round (-3.6) = -4 /\ Math_round 0.49999999999999994 = 0 /\
  Math_round 16.848 = 17 /\ Math_round 4503599627370497 = 4503599627370497 /\
  Math_round infinity = infinity /\ Math_round nan = nan.
Proof. repeat split. Qed.

Example Math_max_min_samples :
  Math_max nan 1.3 = nan /\ Math_max 1.17 1.3 = 1.3 /\ Math_max 2.86 1.3 = 2.86 /\
  Math_max neg_zero 0 = 0 /\ Math_min 100 39.62 = 39.62 /\
  Math_min 100 infinity = 100 /\ Math_min 100 nan = nan.
Proof. repeat split. Qed.

Example undefined_comparisons :
  (to_number None <? 40) = false /\ gtb (to_number None) 80 = false /\
  or_else None 2 = 2 /\ or_else (Some 0) 2 = 2 /\ or_else (Some 7) 2 = 7.
Proof. repeat split. Qed.

Example ease_updates :
  ease_update 2.5 5 = 2.6 /\ ease_update 2.5 4 = 2.5 /\
  ease_update 2.5 3 = 2.36 /\ ease_update 2.5 1 = 1.96.
Proof. repeat split. Qed.

(* ================================================================== *)
(** ** Logic.calculateSM2: repetition count, interval and ease factor *)
(* ================================================================== *)

Import F64.

Lemma Prim2SF_1_3 :
  Prim2SF 1.3 = S754_finite false 5854679515581645 (-52).
Proof. reflexivity. Qed.

(** The guard [if (nextEF < 1.3) nextEF = 1.3] is [Math.max(nextEF, 1.3)]. *)
Lemma clamp_is_max (f : num) :
  (if f <? 1.3 then 1.3 else f) = Math_max f 1.3.
Proof.
  unfold Math_max. destruct (is_nan f) eqn:Hn.
  - rewrite (ltb_nan_l f 1.3 Hn). now apply is_nan_eq.
  - change (is_nan 1.3) with false. simpl.
    destruct (f <? 1.3) eqn:H1; [reflexivity|].
    destruct (1.3 <? f) eqn:H2; [reflexivity|].
    rewrite (not_ltb_eq f 1.3 _ _ _ Prim2SF_1_3 Hn H1 H2). reflexivity.
Qed.

Lemma clamp_ge (f : num) :
  is_nan f = false -> (1.3 <=? (if f <? 1.3 then 1.3 else f)) = true.
Proof.
  intros Hn. destruct (f <? 1.3) eqn:H1; [reflexivity|].
  now apply ltb_false_leb.
Qed.

Lemma geb_ltb_false (x y : num) : geb x y = true -> (x <? y) = false.
Proof. unfold geb. apply leb_ltb_false. Qed.

(** C1: a lapse ([q < 3]) resets the repetition count to 0 and the interval
    to 1 whatever the card holds, and it does not reset the ease factor:
    the new ease factor is [EF + (0.1 - delta * (0.08 + delta * 0.02))] with
    [delta = 5 - q], clamped from below by 1.3. *)
Theorem C1_lapse_resets_n_and_I (card : Card) (q : num) :
  (q <? 3) = true ->
  sm2_n (calculateSM2 card q) = 0 /\
  sm2_I (calculateSM2 card q) = 1 /\
  sm2_EF (calculateSM2 card q) =
    Math_max (EF card + (0.1 - (5 - q) * (0.08 + (5 - q) * 0.02))) 1.3.
Proof.
  intros Hq. unfold calculateSM2. rewrite Hq. cbn [fst snd sm2_n sm2_I sm2_EF].
  repeat split. apply clamp_is_max.
Qed.

Lemma C1_witness :
  (1 <? 3) = true /\
  sm2_n (calculateSM2 (mkCard 7 1 4 30 2.2 None None (Some 9) no_stats) 1) = 0 /\
  sm2_I (calculateSM2 (mkCard 7 1 4 30 2.2 None None (Some 9) no_stats) 1) = 1 /\
  sm2_EF (calculateSM2 (mkCard 7 1 4 30 2.2 None None (Some 9) no_stats) 1) =
    Math_max (2.2 + (0.1 - (5 - 1) * (0.08 + (5 - 1) * 0.02))) 1.3.
Proof.
  split; [reflexivity|].
  exact (C1_lapse_resets_n_and_I
           (mkCard 7 1 4 30 2.2 None None (Some 9) no_stats) 1 eq_refl).
Defined.

(** C2: a success ([q >= 3]) increments the repetition count, and the
    interval is 1 at the first repetition, 6 at the second and
    [round(I * EF)] from the third on. *)
Theorem C2_success_steps (card : Card) (q : num) :
  geb q 3 = true ->
  sm2_n (calculateSM2 card q) = n card + 1 /\
  (strict_eq (sm2_n (calculateSM2 card q)) 1 = true ->
     sm2_I (calculateSM2 card q) = 1) /\
  (strict_eq (sm2_n (calculateSM2 card q)) 2 = true ->
     sm2_I (calculateSM2 card q) = 6) /\
  (geb (sm2_n (calculateSM2 card q)) 3 = true ->
     sm2_I (calculateSM2 card q) = Math_round (I card * EF card)).
Proof.
  intros Hq. unfold calculateSM2. rewrite (geb_ltb_false _ _ Hq).
  cbn [fst snd sm2_n sm2_I sm2_EF]. unfold strict_eq.
  split; [reflexivity|]. split; [|split].
  - intros ->. reflexivity.
  - intros H. assert (E : n card + 1 = 2)
      by (now apply (eqb_finite _ 2 false 4503599627370496 (-51))).
    rewrite E. reflexivity.
  - intros H.
    destruct (n card + 1 =? 1) eqn:H1.
    + apply (eqb_finite _ 1 false 4503599627370496 (-52)) in H1; [|reflexivity].
      rewrite H1 in H. discriminate.
    + destruct (n card + 1 =? 2) eqn:H2; [|reflexivity].
      apply (eqb_finite _ 2 false 4503599627370496 (-51)) in H2; [|reflexivity].
      rewrite H2 in H. discriminate.
Qed.

Lemma C2_witness :
  geb 4 3 = true /\
  sm2_n (calculateSM2 (mkCard 7 1 2 6 2.5 None None None no_stats) 4) = 2 + 1 /\
  sm2_I (calculateSM2 (mkCard 7 1 2 6 2.5 None None None no_stats) 4) =
    Math_round (6 * 2.5).
Proof.
  split; [reflexivity|].
  pose proof (C2_success_steps (mkCard 7 1 2 6 2.5 None None None no_stats) 4
                eq_refl) as [H1 [_ [_ H3]]].
  split; [exact H1|]. apply H3. reflexivity.
Defined.

(* ================================================================== *)
(** ** Logic.calculateCardStats: the sentinel and the retention score *)
(* ================================================================== *)

Section CardStatsFacts.

Variables Math_exp Math_log2 Math_log10 : num -> num.
Variable Date_getDate : num -> num.
Variable Date_setDate : num -> num -> num.

Local Abbreviation cardStats :=
  (calculateCardStats Math_exp Math_log2 Math_log10).

Lemma cardStats_new (card : Card) (fr now : num) :
  strict_eq (n card) 0 = true -> cardStats card fr now = sentinel.
Proof. intros H. unfold calculateCardStats. now rewrite H. Qed.

(** C6: a card with [n = 0] gets the fixed sentinel, whatever its other
    fields, the forgetting rate and the clock are: retention 0, forget risk
    1.0 and priority score exactly 100. *)
Theorem C6_new_card_sentinel (card : Card) (fr now : num) :
  strict_eq (n card) 0 = true ->
  retention (cardStats card fr now) = Some 0 /\
  forgetRisk (cardStats card fr now) = Some 1.0 /\
  priorityScore (cardStats card fr now) = Some 100.
Proof.
  intros H. rewrite (cardStats_new card fr now H). repeat split.
Qed.

(** C10: for a card with [n = 0] the object returned by
    [calculateCardStats] has no [retentionScore] key; [undefined < 40] and
    [undefined > 80] are both false, so [submitReview] keeps the neutral
    retention multiplier 1.0, whatever the grade: the interval it computes
    is the one of the rule with multiplier 1.0. *)
Theorem C10_new_card_neutral_retention_multiplier (card : Card) (fr now : num) :
  strict_eq (n card) 0 = true ->
  retentionScore (cardStats card fr now) = None /\
  (to_number (retentionScore (cardStats card fr now)) <? 40) = false /\
  gtb (to_number (retentionScore (cardStats card fr now))) 80 = false /\
  retentionMultiplier (cardStats card fr now) = 1.0 /\
  (forall (q : num) (us : UserStats),
     iNew_of Math_exp Math_log2 Math_log10 card q us now =
     finalInterval card q (calculateSM2 card q) (efNew_of card q us) 1.0).
Proof.
  intros H. rewrite (cardStats_new card fr now H).
  split; [reflexivity|]. split; [reflexivity|]. split; [reflexivity|].
  split; [reflexivity|].
  intros q us. unfold iNew_of. now rewrite (cardStats_new card _ now H).
Qed.

(** C9 (amended): for a card with [n <> 0] the returned object has exactly
    the four keys [retentionProbability], [forgetRisk], [retentionScore] and
    [priorityScore], and [retentionScore] is
    [min(100, log2(1 + successes) * EF * 10)] where [successes] is
    [totalSuccesses || n]; for a card with [n = 0] it is the sentinel, which
    has neither [retentionProbability] nor [retentionScore]. *)
Theorem C9_stats_keys (card : Card) (fr now : num) :
  (strict_eq (n card) 0 = false ->
     retention (cardStats card fr now) = None /\
     retentionProbability (cardStats card fr now) <> None /\
     forgetRisk (cardStats card fr now) <> None /\
     priorityScore (cardStats card fr now) <> None /\
     retentionScore (cardStats card fr now) =
       Some (Math_min 100
               (Math_log2 (1 + or_else (totalSuccesses card) (n card))
                * EF card * 10))) /\
  (strict_eq (n card) 0 = true ->
     cardStats card fr now = sentinel /\
     retentionProbability (cardStats card fr now) = None /\
     retentionScore (cardStats card fr now) = None).
Proof.
  split; intros H.
  - unfold calculateCardStats. rewrite H. cbn. repeat split; discriminate.
  - rewrite (cardStats_new card fr now H). repeat split.
Qed.

(** The fallback of [totalSuccesses || n]: an absent count gives [n], and
    so does a count that is present but zero. *)
Lemma or_else_absent (k : num) : or_else None k = k.
Proof. reflexivity. Qed.

Lemma or_else_zero (k : num) : or_else (Some 0) k = k.
Proof. reflexivity. Qed.

Lemma or_else_present (v k : num) : truthy v = true -> or_else (Some v) k = v.
Proof. intros H. unfold or_else. now rewrite H. Qed.

End CardStatsFacts.

(** Instances at a concrete card: the stand-ins for the three [Math]
    functions below are only there to make the statements closed. *)
Lemma C6_witness :
  strict_eq (n (mkCard 3 1 0 12 1.9 (Some 1.8e12) (Some 1.6e12) (Some 7) no_stats)) 0
    = true /\
  priorityScore
    (calculateCardStats (fun x => x) (fun x => x) (fun x => x)
       (mkCard 3 1 0 12 1.9 (Some 1.8e12) (Some 1.6e12) (Some 7) no_stats)
       0.2 1.7e12) = Some 100.
Proof.
  split; [reflexivity|].
  apply (C6_new_card_sentinel (fun x => x) (fun x => x) (fun x => x)
           (mkCard 3 1 0 12 1.9 (Some 1.8e12) (Some 1.6e12) (Some 7) no_stats)
           0.2 1.7e12 eq_refl).
Defined.

Lemma C10_witness :
  strict_eq (n (new_card 5 1)) 0 = true /\
  retentionMultiplier
    (calculateCardStats (fun x => x) (fun x => x) (fun x => x)
       (new_card 5 1) 0 1.7e12) = 1.0.
Proof.
  split; [reflexivity|].
  apply (C10_new_card_neutral_retention_multiplier
           (fun x => x) (fun x => x) (fun x => x) (new_card 5 1) 0 1.7e12 eq_refl).
Defined.

Lemma C9_witness :
  retentionScore
    (calculateCardStats (fun x => x) (fun _ => 3.32) (fun x => x)
       (mkCard 3 1 4 30 2.2 (Some 1.8e12) (Some 1.6e12) (Some 9) no_stats)
       0.2 1.7e12) = Some (Math_min 100 (3.32 * 2.2 * 10)).
Proof.
  apply (C9_stats_keys (fun x => x) (fun _ => 3.32) (fun x => x)
           (mkCard 3 1 4 30 2.2 (Some 1.8e12) (Some 1.6e12) (Some 9) no_stats)
           0.2 1.7e12).
  reflexivity.
Defined.

(** The claim as stated fails on a fresh card: the returned object has
    three keys, and neither [retentionProbability] nor [retentionScore]. *)
Lemma C9_counterexample :
  retentionScore
    (calculateCardStats (fun x => x) (fun x => x) (fun x => x)
       (new_card 1 1) 0 1.7e12) = None /\
  retentionProbability
    (calculateCardStats (fun x => x) (fun x => x) (fun x => x)
       (new_card 1 1) 0 1.7e12) = None.
Proof. split; reflexivity. Qed.

(* ================================================================== *)
(** ** App.submitReview: what is written *)
(* ================================================================== *)

Lemma nth_error_set_nth {A} (l : list A) (i : nat) (x v : A) :
  nth_error l i = Some x -> nth_error (set_nth i v l) i = Some v.
Proof.
  revert i. induction l as [|a l IH]; intros [|i]; simpl; try discriminate.
  - reflexivity.
  - apply IH.
Qed.

Lemma In_put (card : Card) (store : list Card) : In card (put card store).
Proof.
  induction store as [|c store IH]; simpl.
  - now left.
  - destruct (id c =? id card)%Z; simpl; auto.
Qed.

Section ReviewFacts.

Variables Math_exp Math_log2 Math_log10 : num -> num.
Variable Date_getDate : num -> num.
Variable Date_setDate : num -> num -> num.

Local Abbreviation cardStats :=
  (calculateCardStats Math_exp Math_log2 Math_log10).
Local Abbreviation review' := (review Math_exp Math_log2 Math_log10 Date_getDate Date_setDate).
Local Abbreviation iNew := (iNew_of Math_exp Math_log2 Math_log10).
Local Abbreviation submit := (submitReview Math_exp Math_log2 Math_log10 Date_getDate Date_setDate).

(** When the next date is a valid one, the review goes through and writes
    the computed values. *)
Lemma review_done (card : Card) (q : num) (us : UserStats) (now : num) :
  valid_time (add_days Date_getDate Date_setDate now (iNew card q us now)) = true ->
  exists card' log,
    review' card q us now = Some (card', log) /\
    n card' = sm2_n (calculateSM2 card q) /\
    I card' = iNew card q us now /\
    EF card' = efNew_of card q us /\
    nextReviewAt card' = Some (add_days Date_getDate Date_setDate
        now (iNew card q us now)) /\
    lastReviewAt card' = Some now /\
    intervalAfter log = iNew card q us now /\
    logEF log = efNew_of card q us.
Proof.
  intros Hv. unfold review. fold (efNew_of card q us).
  fold (iNew card q us now). rewrite Hv.
  eexists _, _. split; [reflexivity|]. cbn. repeat split.
Qed.

(** Whenever the review goes through, these are the values written. *)
Lemma review_inv (card : Card) (q : num) (us : UserStats) (now : num) card' log :
  review' card q us now = Some (card', log) ->
  n card' = sm2_n (calculateSM2 card q) /\
  I card' = iNew card q us now /\
  EF card' = efNew_of card q us /\
  nextReviewAt card' = Some (add_days Date_getDate Date_setDate
      now (iNew card q us now)).
Proof.
  unfold review. fold (efNew_of card q us). fold (iNew card q us now).
  destruct (valid_time _); [|discriminate].
  intros [= <- <-]. cbn. repeat split.
Qed.

(** [submitReview] puts the reviewed card back in the queue slot and in the
    card store, and advances the session. *)
Lemma submitReview_done (st : State) (uiGrade : Z) (now : num) card card' log :
  nth_error (studyQueue st) (currentCardIndex st) = Some card ->
  review' card (to_number (qMap uiGrade)) (getUserStats Date_getDate Date_setDate
      (Some (logs st)) now) now
    = Some (card', log) ->
  exists st',
    submit st uiGrade now = Some st' /\
    nth_error (studyQueue st') (currentCardIndex st) = Some card' /\
    In card' (cards st') /\
    logs st' = logs st ++ [log] /\
    currentCardIndex st' = S (currentCardIndex st).
Proof.
  intros Hc Hr. unfold submitReview. rewrite Hc, Hr.
  eexists. split; [reflexivity|]. cbn. repeat split.
  - now apply nth_error_set_nth with (x := card).
  - apply In_put.
Qed.

End ReviewFacts.

(* ================================================================== *)
(** ** Scenario: the first review of a new card *)
(* ================================================================== *)

(** On a fresh card graded 3 in the interface ([q = 4]) the ease factor
    returned by [calculateSM2] is 2.5, not 2.6: with [delta = 1] the update
    is [0.1 - 1 * (0.08 + 1 * 0.02) = 0]. *)
Lemma C5_counterexample :
  qMap 3 = Some 4 /\
  sm2_EF (calculateSM2 (new_card 1 1) 4) = 2.5 /\
  (sm2_EF (calculateSM2 (new_card 1 1) 4) =? 2.6) = false.
Proof. repeat split. Qed.

Section FirstReview.

Variables Math_exp Math_log2 Math_log10 : num -> num.
Variable Date_getDate : num -> num.
Variable Date_setDate : num -> num -> num.

Local Abbreviation submit := (submitReview Math_exp Math_log2 Math_log10 Date_getDate Date_setDate).
Local Abbreviation iNew := (iNew_of Math_exp Math_log2 Math_log10).

Lemma sm2_fresh (card : Card) :
  n card = 0 -> I card = 0 -> EF card = 2.5 ->
  calculateSM2 card 4 = mkSM2 1 1 2.5.
Proof.
  intros Hn HI HEF. unfold calculateSM2, ease_update, ease_delta.
  rewrite Hn, HEF. reflexivity.
Qed.

Lemma iNew_fresh (card : Card) (us : UserStats) (now : num) :
  n card = 0 -> I card = 0 -> EF card = 2.5 -> iNew card 4 us now = 1.
Proof.
  intros Hn HI HEF. unfold iNew_of, finalInterval.
  rewrite (sm2_fresh card Hn HI HEF). reflexivity.
Qed.

(** C5 (amended): a freshly created card [{n:0, I:0, EF:2.5}] reviewed with
    interface grade 3 ([q = 4]) gets [n' = 1], [I' = 1] and an unchanged
    ease factor [EF' = 2.5] from [calculateSM2]; the interval written by
    [submitReview] stays 1 and [nextReviewAt] is one calendar day after
    [now], the value of [next.setDate(now.getDate() + 1)]: that is [now]
    plus 24 hours whenever the library moves the date by exactly that
    much, which it does unless the local clock changes in between. *)
Theorem C5_first_review_of_a_new_card (st : State) (now : num) (card : Card) :
  nth_error (studyQueue st) (currentCardIndex st) = Some card ->
  n card = 0 -> I card = 0 -> EF card = 2.5 ->
  valid_time (Date_setDate now (Date_getDate now + 1)) = true ->
  qMap 3 = Some 4 /\
  calculateSM2 card 4 = mkSM2 1 1 2.5 /\
  exists st' card',
    submit st 3 now = Some st' /\
    nth_error (studyQueue st') (currentCardIndex st) = Some card' /\
    In card' (cards st') /\
    n card' = 1 /\
    I card' = 1 /\
    nextReviewAt card' = Some (Date_setDate now (Date_getDate now + 1)) /\
    lastReviewAt card' = Some now /\
    (Date_setDate now (Date_getDate now + 1) = now + day_ms ->
     nextReviewAt card' = Some (now + day_ms)).
Proof.
  intros Hc Hn HI HEF Hv.
  split; [reflexivity|]. split; [now apply sm2_fresh|].
  set (us := getUserStats Date_getDate Date_setDate (Some (logs st)) now).
  pose proof (iNew_fresh card us now Hn HI HEF) as Hi.
  destruct (review_done Math_exp Math_log2 Math_log10 Date_getDate Date_setDate
              card 4 us now)
    as (card' & log & Hr & Hn' & HI' & _ & Hnext & Hlast & _).
  { rewrite Hi. exact Hv. }
  destruct (submitReview_done Math_exp Math_log2 Math_log10 Date_getDate
              Date_setDate st 3 now card card' log Hc Hr)
    as (st' & Hs & Hq & Hin & _).
  exists st', card'. rewrite Hn', HI', Hnext, Hlast, Hi.
  rewrite (sm2_fresh card Hn HI HEF). unfold add_days.
  repeat split; try assumption. now intros ->.
Qed.

End FirstReview.

Lemma C5_witness :
  exists st' card',
    submitReview (fun x => x) (fun x => x) (fun x => x) sample_getDate sample_setDate
      (mkState [new_card 1 1] 0 [new_card 1 1] []) 3 1.7e12 = Some st' /\
    nth_error (studyQueue st') 0 = Some card' /\
    n card' = 1 /\ I card' = 1 /\
    nextReviewAt card' = Some (1.7e12 + day_ms).
Proof.
  destruct (C5_first_review_of_a_new_card (fun x => x) (fun x => x) (fun x => x)
              sample_getDate sample_setDate
              (mkState [new_card 1 1] 0 [new_card 1 1] []) 1.7e12 (new_card 1 1)
              eq_refl eq_refl eq_refl eq_refl eq_refl)
    as (_ & _ & st' & card' & Hs & Hq & _ & Hn & HI & _ & _ & Hnext).
  exists st', card'. repeat split; try assumption. now apply Hnext.
Defined.

(** Across a clock change the next calendar day is not 24 hours away: with
    an hour skipped, the same first review sets [nextReviewAt] 23 hours
    after [now]. *)
Example first_review_across_a_clock_change :
  option_map (fun st' => map nextReviewAt (studyQueue st'))
    (submitReview (fun x => x) (fun x => x) (fun x => x) sample_getDate
       spring_setDate (mkState [new_card 1 1] 0 [new_card 1 1] []) 3 1.7e12)
  = Some [Some (1.7e12 + 828e5)].
Proof. reflexivity. Qed.

(* ================================================================== *)
(** ** Rounding never produces NaN *)
(* ================================================================== *)

Module Rounding.

Local Open Scope Z_scope.

Lemma iter_pos_inv {A} (P : A -> Prop) (f : A -> A) :
  (forall x, P x -> P (f x)) -> forall p x, P x -> P (iter_pos f p x).
Proof.
  intros Hf. induction p as [p IH|p IH|]; intros x Hx; simpl; auto.
Qed.

Lemma shr_1_nonneg (mrs : shr_record) :
  0 <= shr_m mrs -> 0 <= shr_m (shr_1 mrs).
Proof.
  destruct mrs as [m r s]. simpl.
  destruct m as [|[p|p|]|[p|p|]]; simpl; lia.
Qed.

Lemma shr_nonneg (mrs : shr_record) (e k : Z) :
  0 <= shr_m mrs -> 0 <= shr_m (fst (shr mrs e k)).
Proof.
  intros H. unfold shr. destruct k; simpl; try assumption.
  apply (iter_pos_inv (fun x => 0 <= shr_m x)); [apply shr_1_nonneg|assumption].
Qed.

Lemma shr_record_of_loc_m (m : Z) (l : location) :
  shr_m (shr_record_of_loc m l) = m.
Proof. destruct l as [|[]]; reflexivity. Qed.

Lemma shr_fexp_nonneg (m e : Z) (l : location) :
  0 <= m -> 0 <= shr_m (fst (shr_fexp prec emax m e l)).
Proof.
  intros H. unfold shr_fexp. apply shr_nonneg.
  now rewrite shr_record_of_loc_m.
Qed.

Lemma round_nearest_even_nonneg (m : Z) (l : location) :
  0 <= m -> 0 <= round_nearest_even m l.
Proof.
  intros H. unfold round_nearest_even.
  destruct l as [|[]]; try destruct (Z.even m); lia.
Qed.

Lemma binary_round_aux_not_nan (s : bool) (m e : Z) (l : location) :
  0 <= m -> binary_round_aux prec emax s m e l <> S754_nan.
Proof.
  intros H. unfold binary_round_aux.
  pose proof (shr_fexp_nonneg m e l H) as H1.
  destruct (shr_fexp prec emax m e l) as [mrs' e'] eqn:E1. simpl in H1.
  pose proof (shr_fexp_nonneg _ e' loc_Exact
                (round_nearest_even_nonneg _ (loc_of_shr_record mrs') H1)) as H2.
  destruct (shr_fexp prec emax _ e' loc_Exact) as [mrs'' e''] eqn:E2.
  simpl in H2. destruct (shr_m mrs'') as [|p|p]; try lia; try discriminate.
  destruct (e'' <=? emax - prec); discriminate.
Qed.

Lemma binary_round_not_nan (s : bool) (m : positive) (e : Z) :
  binary_round prec emax s m e <> S754_nan.
Proof.
  unfold binary_round. destruct (shl_align _ _ _) as [mz ez].
  apply binary_round_aux_not_nan. lia.
Qed.

Lemma binary_normalize_not_nan (m e : Z) (sz : bool) :
  binary_normalize prec emax m e sz <> S754_nan.
Proof.
  destruct m; simpl; try discriminate; apply binary_round_not_nan.
Qed.

Lemma SFadd_not_nan (x y : spec_float) :
  x <> S754_nan -> SFfinite y = true -> SFadd prec emax x y <> S754_nan.
Proof.
  destruct x as [sx|sx| |sx mx ex], y as [sy|sy| |sy my ey]; simpl;
    intros Hx Hy; try congruence; try discriminate.
  - destruct sx, sy; discriminate.
  - apply binary_normalize_not_nan.
Qed.

Lemma SFmul_not_nan (x y : spec_float) sy my ey :
  x <> S754_nan -> y = S754_finite sy my ey -> SFmul prec emax x y <> S754_nan.
Proof.
  intros Hx ->. destruct x as [sx|sx| |sx mx ex]; simpl;
    try congruence; try discriminate.
  apply binary_round_aux_not_nan. lia.
Qed.

End Rounding.

Lemma add_not_nan (x y : num) :
  is_nan x = false -> SFfinite (Prim2SF y) = true ->
  is_nan (x + y) = false.
Proof.
  rewrite !is_nan_false, add_spec. apply Rounding.SFadd_not_nan.
Qed.

Lemma mul_not_nan (x y : num) sy my ey :
  is_nan x = false -> Prim2SF y = S754_finite sy my ey ->
  is_nan (x * y) = false.
Proof.
  rewrite !is_nan_false, mul_spec. intros Hx Hy.
  now apply Rounding.SFmul_not_nan with (sy := sy) (my := my) (ey := ey).
Qed.

Lemma Math_max_ge_r (x y : num) :
  is_nan x = false -> is_nan y = false -> (y <=? Math_max x y) = true.
Proof.
  intros Hx Hy. unfold Math_max. rewrite Hx, Hy. simpl.
  destruct (x <? y) eqn:H1; [now apply leb_refl|].
  destruct (y <? x) eqn:H2; [now apply ltb_leb|].
  destruct (get_sign x); [now apply leb_refl|now apply ltb_false_leb].
Qed.

(* ================================================================== *)
(** ** The ease factor never goes below 1.3 *)
(* ================================================================== *)

Lemma sm2_EF_ge (card : Card) (q : num) :
  is_nan (ease_update (EF card) q) = false ->
  (1.3 <=? sm2_EF (calculateSM2 card q)) = true.
Proof. intros H. unfold calculateSM2. cbn [sm2_EF]. now apply clamp_ge. Qed.

Lemma ease_update_not_nan (ef q : num) :
  is_nan ef = false -> In q [1; 2; 3; 4; 5] ->
  is_nan (ease_update ef q) = false.
Proof.
  intros Hef Hq. unfold ease_update, ease_delta.
  simpl in Hq. destruct Hq as [<-|[<-|[<-|[<-|[<-|[]]]]]];
    (apply add_not_nan; [assumption|reflexivity]).
Qed.

Lemma easeMultiplier_cases (us : UserStats) :
  In (easeMultiplier us) [0.9; 1.0; 1.1].
Proof.
  unfold easeMultiplier. simpl.
  destruct (gtb _ _); [now left|].
  destruct (_ <? _); auto.
Qed.

Lemma finalEF_ge (sm2 : SM2) (eMult : num) :
  (1.3 <=? sm2_EF sm2) = true -> In eMult [0.9; 1.0; 1.1] ->
  (1.3 <=? finalEF sm2 eMult) = true.
Proof.
  intros H Hm. unfold finalEF. apply Math_max_ge_r; [|reflexivity].
  apply leb_not_nan_r in H. simpl in Hm.
  destruct Hm as [<-|[<-|[<-|[]]]].
  - now apply (mul_not_nan _ 0.9 false 8106479329266893 (-53)).
  - now apply (mul_not_nan _ 1.0 false 4503599627370496 (-52)).
  - now apply (mul_not_nan _ 1.1 false 4953959590107546 (-52)).
Qed.

Section EaseFloor.

Variables Math_exp Math_log2 Math_log10 : num -> num.
Variable Date_getDate : num -> num.
Variable Date_setDate : num -> num -> num.

Local Abbreviation review' := (review Math_exp Math_log2 Math_log10 Date_getDate Date_setDate).
Local Abbreviation submit := (submitReview Math_exp Math_log2 Math_log10 Date_getDate Date_setDate).

Lemma submitReview_inv (st st' : State) (uiGrade : Z) (now : num) :
  submit st uiGrade now = Some st' ->
  exists card card' log,
    nth_error (studyQueue st) (currentCardIndex st) = Some card /\
    review' card (to_number (qMap uiGrade))
      (getUserStats Date_getDate Date_setDate
          (Some (logs st)) now) now = Some (card', log) /\
    nth_error (studyQueue st') (currentCardIndex st) = Some card' /\
    In card' (cards st').
Proof.
  unfold submitReview.
  destruct (nth_error _ _) as [card|] eqn:Hc; [|discriminate].
  destruct (review _ _ _ _ _ _ _) as [[card' log]|] eqn:Hr; [|discriminate].
  intros [= <-]. exists card, card', log. cbn [studyQueue cards].
  split; [reflexivity|]. split; [exact Hr|]. split.
  - now apply nth_error_set_nth with (x := card).
  - apply In_put.
Qed.

(** C3: for a card whose ease factor is at least 1.3 and a quality in
    [{1,2,3,4,5}], the ease factor returned by [calculateSM2] is at least
    1.3, and so is the one [submitReview] computes after the ease multiplier
    (0.9, 1.0 or 1.1) and writes to the card. *)
Theorem C3_ease_factor_floor (card : Card) (q : num) :
  (1.3 <=? EF card) = true ->
  In q [1; 2; 3; 4; 5] ->
  (1.3 <=? sm2_EF (calculateSM2 card q)) = true /\
  (forall us : UserStats,
     In (easeMultiplier us) [0.9; 1.0; 1.1] /\
     (1.3 <=? finalEF (calculateSM2 card q) (easeMultiplier us)) = true) /\
  (forall us now card' log,
     review' card q us now = Some (card', log) ->
     EF card' = finalEF (calculateSM2 card q) (easeMultiplier us) /\
     (1.3 <=? EF card') = true) /\
  (forall st st' uiGrade now,
     nth_error (studyQueue st) (currentCardIndex st) = Some card ->
     qMap uiGrade = Some q ->
     submit st uiGrade now = Some st' ->
     exists card',
       nth_error (studyQueue st') (currentCardIndex st) = Some card' /\
       In card' (cards st') /\
       (1.3 <=? EF card') = true).
Proof.
  intros HEF Hq.
  assert (H1 : (1.3 <=? sm2_EF (calculateSM2 card q)) = true).
  { apply sm2_EF_ge, ease_update_not_nan; [|assumption].
    now apply leb_not_nan_r in HEF. }
  assert (H2 : forall us,
             (1.3 <=? finalEF (calculateSM2 card q) (easeMultiplier us)) = true).
  { intros us. apply finalEF_ge; [assumption|apply easeMultiplier_cases]. }
  assert (H3 : forall us now card' log,
             review' card q us now = Some (card', log) ->
             EF card' = finalEF (calculateSM2 card q) (easeMultiplier us) /\
             (1.3 <=? EF card') = true).
  { intros us now card' log Hr.
    apply review_inv in Hr. destruct Hr as (_ & _ & -> & _).
    split; [reflexivity|apply H2]. }
  repeat split; try assumption.
  - apply easeMultiplier_cases.
  - apply H2.
  - now apply (H3 us now card' log).
  - now apply (H3 us now card' log).
  - intros st st' uiGrade now Hc Hg Hs.
    apply submitReview_inv in Hs.
    destruct Hs as (c & card' & log & Hc' & Hr & Hq' & Hin).
    rewrite Hc in Hc'. injection Hc' as <-. rewrite Hg in Hr. simpl in Hr.
    exists card'. repeat split; try assumption.
    now apply (H3 _ _ _ _ Hr).
Qed.

End EaseFloor.

Lemma C3_witness :
  (1.3 <=? sm2_EF (calculateSM2 (mkCard 2 1 5 40 1.3 None None (Some 8) no_stats) 1))
    = true /\
  (1.3 <=? finalEF (calculateSM2 (mkCard 2 1 5 40 1.3 None None (Some 8) no_stats) 1)
             (easeMultiplier (mkUserStats 0.5 10))) = true.
Proof.
  destruct (C3_ease_factor_floor (fun x => x) (fun x => x) (fun x => x) sample_getDate sample_setDate
              (mkCard 2 1 5 40 1.3 None None (Some 8) no_stats) 1
              eq_refl (or_introl eq_refl)) as (H1 & H2 & _).
  split; [exact H1|apply H2].
Defined.

(* ================================================================== *)
(** ** The interval written by submitReview *)
(* ================================================================== *)

Section IntervalRule.

Variables Math_exp Math_log2 Math_log10 : num -> num.
Variable Date_getDate : num -> num.
Variable Date_setDate : num -> num -> num.

Local Abbreviation cardStats :=
  (calculateCardStats Math_exp Math_log2 Math_log10).
Local Abbreviation submit := (submitReview Math_exp Math_log2 Math_log10 Date_getDate Date_setDate).

(** C4: [submitReview] writes the interval chosen by this rule: with
    [EF'' = max(EF'_sm2 * easeMultiplier, 1.3)], it is
    [round(card.I * EF'' * retentionMultiplier)] when the SM-2 result has
    [n' > 2] and [q >= 3], else 1 when [q < 3], else the SM-2 interval.  For
    the card [{n:2, I:6, EF:2.5}] reviewed with [q = 5] under a forgetting
    rate of 0.4 and a retention score of 85, the multipliers are 0.9 and
    1.2, SM-2 gives [{n:3, I:15, EF:2.6}], the final ease factor is
    [2.6 * 0.9], the double next to 2.34, and the final interval is 17. *)
Theorem C4_final_interval_rule :
  (forall (st : State) (uiGrade : Z) (now : num) (card : Card),
     nth_error (studyQueue st) (currentCardIndex st) = Some card ->
     let q := to_number (qMap uiGrade) in
     let us := getUserStats Date_getDate Date_setDate (Some (logs st)) now in
     let sm2 := calculateSM2 card q in
     let ef'' := Math_max (sm2_EF sm2 * easeMultiplier us) 1.3 in
     let rMult := retentionMultiplier (cardStats card (forgetRate us) now) in
     let i'' :=
       if gtb (sm2_n sm2) 2 && geb q 3 then Math_round (I card * ef'' * rMult)
       else if q <? 3 then 1
       else sm2_I sm2 in
     valid_time (Date_setDate now (Date_getDate now + i'')) = true ->
     exists st' card',
       submit st uiGrade now = Some st' /\
       nth_error (studyQueue st') (currentCardIndex st) = Some card' /\
       In card' (cards st') /\
       EF card' = ef'' /\
       I card' = i'') /\
  (forall (card : Card) (us : UserStats) (cs : CardStats),
     n card = 2 -> I card = 6 -> EF card = 2.5 ->
     forgetRate us = 0.4 -> retentionScore cs = Some 85 ->
     easeMultiplier us = 0.9 /\
     retentionMultiplier cs = 1.2 /\
     calculateSM2 card 5 = mkSM2 3 15 2.6 /\
     finalEF (calculateSM2 card 5) (easeMultiplier us) = 2.6 * 0.9 /\
     2.6 * 0.9 = next_up 2.34 /\
     finalInterval card 5 (calculateSM2 card 5)
       (finalEF (calculateSM2 card 5) (easeMultiplier us))
       (retentionMultiplier cs) = 17).
Proof.
  split.
  - intros st uiGrade now card Hc q us sm2 ef'' rMult i'' Hv.
    destruct (review_done Math_exp Math_log2 Math_log10 Date_getDate
                Date_setDate card q us now Hv)
      as (card' & log & Hr & _ & HI & HEF & _).
    destruct (submitReview_done Math_exp Math_log2 Math_log10 Date_getDate
                Date_setDate st uiGrade now card card' log Hc Hr)
      as (st' & Hs & Hq & Hin & _).
    exists st', card'.
    split; [exact Hs|]. split; [exact Hq|]. split; [exact Hin|].
    split; [exact HEF|exact HI].
  - intros card us cs Hn HI HEF Hfr Hrs.
    assert (Hsm : calculateSM2 card 5 = mkSM2 3 15 2.6).
    { unfold calculateSM2, ease_update, ease_delta.
      rewrite Hn, HI, HEF. reflexivity. }
    assert (He : easeMultiplier us = 0.9).
    { unfold easeMultiplier. rewrite Hfr. reflexivity. }
    assert (Hr : retentionMultiplier cs = 1.2).
    { unfold retentionMultiplier. rewrite Hrs. reflexivity. }
    rewrite Hsm, He, Hr. unfold finalInterval. rewrite HI.
    repeat split.
Qed.

End IntervalRule.

Lemma C4_witness :
  exists st' card',
    submitReview (fun x => x) (fun _ => 3.4) (fun x => x)
      sample_getDate sample_setDate
      (mkState [mkCard 1 1 2 6 2.5 (Some 1.69e12) (Some 1.68e12) (Some 9) no_stats] 0
               [] [mkLog 1 1.699e12 1 0 0 0 0; mkLog 1 1.699e12 1 0 0 0 0;
                   mkLog 1 1.699e12 3 0 0 0 0; mkLog 1 1.699e12 4 0 0 0 0;
                   mkLog 1 1.699e12 5 0 0 0 0])
      4 1.7e12 = Some st' /\
    nth_error (studyQueue st') 0 = Some card' /\
    EF card' = next_up 2.34 /\
    I card' = 17.
Proof.
  destruct C4_final_interval_rule with
    (Math_exp := fun x : num => x) (Math_log2 := fun _ : num => 3.4)
    (Math_log10 := fun x : num => x)
    (Date_getDate := sample_getDate) (Date_setDate := sample_setDate)
    as [Hrule _].
  destruct (Hrule
              (mkState [mkCard 1 1 2 6 2.5 (Some 1.69e12) (Some 1.68e12) (Some 9) no_stats] 0
                 [] [mkLog 1 1.699e12 1 0 0 0 0; mkLog 1 1.699e12 1 0 0 0 0;
                     mkLog 1 1.699e12 3 0 0 0 0; mkLog 1 1.699e12 4 0 0 0 0;
                     mkLog 1 1.699e12 5 0 0 0 0])
              4%Z 1.7e12 _ eq_refl eq_refl)
    as (st' & card' & Hs & Hq & _ & HEF & HI).
  exists st', card'.
  split; [exact Hs|]. split; [exact Hq|]. split; [exact HEF|exact HI].
Defined.

(* ================================================================== *)
(** ** Canonical binary64 values and the sign of a difference *)
(* ================================================================== *)

Module Canonical.

Import Rounding.

Local Open Scope Z_scope.

Lemma digits2_size (m : positive) : digits2_pos m = Pos.size m.
Proof. induction m; simpl; congruence. Qed.

Lemma digits2_lt (m : positive) : Zpos m < 2 ^ Zpos (digits2_pos m).
Proof.
  rewrite digits2_size. pose proof (Pos.size_gt m) as H.
  apply Pos2Z.pos_lt_pos in H. now rewrite Pos2Z.inj_pow in H.
Qed.

Lemma digits2_le (m : positive) : 2 ^ Zpos (digits2_pos m) <= 2 * Zpos m.
Proof.
  rewrite digits2_size. pose proof (Pos.size_le m) as H.
  apply Pos2Z.pos_le_pos in H. now rewrite Pos2Z.inj_pow in H.
Qed.

Lemma shl_align_fst (m : positive) (e e' : Z) :
  e' <= e -> Zpos (fst (shl_align m e e')) = Zpos m * 2 ^ (e - e').
Proof.
  intros H. unfold shl_align.
  destruct (e' - e) as [|d|d] eqn:E; try lia.
  - replace (e - e') with 0 by lia. now rewrite Z.pow_0_r, Z.mul_1_r.
  - simpl. fold (shift_pos d m). rewrite shift_pos_correct, Z.pow_pos_fold.
    replace (e - e') with (Zpos d) by lia. apply Z.mul_comm.
Qed.

Lemma shl_align_snd (m : positive) (e e' : Z) :
  snd (shl_align m e e') = Z.min e e'.
Proof.
  unfold shl_align. destruct (e' - e) eqn:E; simpl; lia.
Qed.

(** What a canonical mantissa and exponent satisfy. *)
Lemma bounded_emin (m : positive) (e : Z) :
  bounded prec emax m e = true -> emin <= e.
Proof.
  unfold bounded, canonical_mantissa, fexp. intros H.
  apply andb_prop in H. destruct H as [H _]. apply Z.eqb_eq in H.
  unfold emin, SpecFloat.emin in *. lia.
Qed.

Lemma bounded_digits (m : positive) (e : Z) :
  bounded prec emax m e = true -> Zpos (digits2_pos m) <= prec.
Proof.
  unfold bounded, canonical_mantissa, fexp. intros H.
  apply andb_prop in H. destruct H as [H _]. apply Z.eqb_eq in H. lia.
Qed.

Lemma bounded_normal (m : positive) (e : Z) :
  bounded prec emax m e = true -> emin < e -> Zpos (digits2_pos m) = prec.
Proof.
  unfold bounded, canonical_mantissa, fexp. intros H.
  apply andb_prop in H. destruct H as [H _]. apply Z.eqb_eq in H.
  unfold emin, SpecFloat.emin in *. lia.
Qed.

(** Canonical values are ordered by exponent first. *)
Lemma bounded_exp_lt (m1 m2 : positive) (e1 e2 : Z) :
  bounded prec emax m1 e1 = true -> bounded prec emax m2 e2 = true ->
  e1 < e2 -> Zpos m1 < Zpos m2 * 2 ^ (e2 - e1).
Proof.
  intros H1 H2 He.
  pose proof (bounded_digits _ _ H1) as D1.
  pose proof (bounded_emin _ _ H1) as E1.
  assert (D2 : Zpos (digits2_pos m2) = prec) by (apply (bounded_normal _ _ H2); lia).
  pose proof (digits2_lt m1) as L1. pose proof (digits2_le m2) as L2.
  rewrite D2 in L2.
  assert (Zpos m1 < 2 ^ prec).
  { eapply Z.lt_le_trans; [exact L1|]. apply Z.pow_le_mono_r; lia. }
  assert (2 <= 2 ^ (e2 - e1)).
  { change 2 with (2 ^ 1) at 1. apply Z.pow_le_mono_r; lia. }
  nia.
Qed.

(** Shifting right divides the mantissa. *)
Lemma shr_1_div (mrs : shr_record) :
  0 <= shr_m mrs -> shr_m (shr_1 mrs) = shr_m mrs / 2.
Proof.
  destruct mrs as [m r s]. simpl.
  destruct m as [|[p|p|]|p]; simpl; intros H; try reflexivity; try lia.
  - rewrite Pos2Z.inj_xI. apply Z.div_unique with 1; lia.
  - rewrite Pos2Z.inj_xO. apply Z.div_unique with 0; lia.
Qed.

Lemma iter_shr_1_div (p : positive) (mrs : shr_record) :
  0 <= shr_m mrs ->
  shr_m (iter_pos shr_1 p mrs) = shr_m mrs / 2 ^ Zpos p.
Proof.
  revert mrs. induction p as [p IH|p IH|]; intros mrs H; simpl iter_pos.
  - pose proof (shr_1_nonneg mrs H) as H1.
    pose proof (iter_pos_inv (fun x => 0 <= shr_m x) shr_1 shr_1_nonneg
                  p _ H1) as H2.
    rewrite (IH _ H2), (IH _ H1), (shr_1_div _ H), !Z.div_div by lia.
    f_equal. change 2 with (2 ^ 1) at 1.
    rewrite <- !Z.pow_add_r by lia. f_equal. lia.
  - pose proof (iter_pos_inv (fun x => 0 <= shr_m x) shr_1 shr_1_nonneg
                  p _ H) as H2.
    rewrite (IH _ H2), (IH _ H), !Z.div_div by lia.
    f_equal. rewrite <- Z.pow_add_r by lia. f_equal. lia.
  - now apply shr_1_div.
Qed.

(** The rounding shift keeps a positive mantissa positive when the
    exponent is not below the least one. *)
Lemma shr_fexp_pos (m : positive) (e : Z) (l : location) :
  emin <= e ->
  0 < shr_m (fst (shr_fexp prec emax (Zpos m) e l)) /\
  emin <= snd (shr_fexp prec emax (Zpos m) e l).
Proof.
  intros He. unfold shr_fexp, shr. cbn [Zdigits2].
  pose proof (digits2_le m) as Hd. pose proof (digits2_lt m) as Hd'.
  set (d := Zpos (digits2_pos m)) in *.
  assert (Hf : fexp prec emax (d + e) = Z.max (d + e - prec) emin)
    by reflexivity.
  destruct (fexp prec emax (d + e) - e) as [|k|k] eqn:Ek;
    cbn [fst snd]; rewrite ?shr_record_of_loc_m; try (split; lia).
  assert (Hk : Zpos k = d - prec) by (unfold emin, SpecFloat.emin in *; lia).
  split; [|lia].
  rewrite iter_shr_1_div by (rewrite shr_record_of_loc_m; lia).
  rewrite shr_record_of_loc_m.
  apply Z.div_str_pos. split; [apply Z.pow_pos_nonneg; lia|].
  assert (2 * 2 ^ Zpos k <= 2 ^ d); [|lia].
  change (2 * 2 ^ Zpos k) with (2 ^ 1 * 2 ^ Zpos k).
  rewrite <- Z.pow_add_r by lia. apply Z.pow_le_mono_r; [lia|].
  unfold prec in Hk. lia.
Qed.

Lemma round_nearest_even_pos (m : Z) (l : location) :
  0 < m -> 0 < round_nearest_even m l.
Proof.
  intros H. unfold round_nearest_even.
  destruct l as [|[]]; try destruct (Z.even m); lia.
Qed.

Lemma binary_round_aux_signed (s : bool) (m : positive) (e : Z) (l : location) :
  emin <= e -> SFsigned s (binary_round_aux prec emax s (Zpos m) e l) = true.
Proof.
  intros He. unfold binary_round_aux.
  destruct (shr_fexp_pos m e l He) as [H1 H1'].
  destruct (shr_fexp prec emax (Zpos m) e l) as [mrs' e'].
  cbn [fst snd] in H1, H1'.
  pose proof (round_nearest_even_pos _ (loc_of_shr_record mrs') H1) as H2.
  destruct (round_nearest_even (shr_m mrs') (loc_of_shr_record mrs'))
    as [|m2|m2]; try lia.
  destruct (shr_fexp_pos m2 e' loc_Exact H1') as [H3 _].
  destruct (shr_fexp prec emax (Zpos m2) e' loc_Exact) as [mrs'' e''].
  cbn [fst] in H3.
  destruct (shr_m mrs''); try lia.
  destruct (e'' <=? emax - prec); simpl; apply eqb_reflx.
Qed.

Lemma binary_round_signed (s : bool) (m : positive) (e : Z) :
  emin <= e -> SFsigned s (binary_round prec emax s m e) = true.
Proof.
  intros He. unfold binary_round.
  pose proof (shl_align_snd m e (fexp prec emax (Zpos (digits2_pos m) + e))) as Hs.
  destruct (shl_align _ _ _) as [mz ez]. cbn [snd] in Hs.
  apply binary_round_aux_signed.
  assert (emin <= fexp prec emax (Zpos (digits2_pos m) + e))
    by (unfold fexp; lia).
  lia.
Qed.

Lemma SFltb_zero_signed (s : bool) (r : spec_float) :
  SFsigned s r = true -> SFltb (S754_zero false) r = negb s.
Proof.
  destruct r as [| s' | | s' m e]; simpl; try discriminate;
    destruct s, s'; simpl; try discriminate; reflexivity.
Qed.

(** On canonical values the comparison is that of the aligned mantissas. *)
Lemma SFltb_aligned (sx sy : bool) (mx my : positive) (ex ey : Z) :
  bounded prec emax mx ex = true -> bounded prec emax my ey = true ->
  SFltb (S754_finite sx mx ex) (S754_finite sy my ey) =
  (0 <? cond_Zopp sy (Zpos (fst (shl_align my ey (Z.min ey ex))))
        - cond_Zopp sx (Zpos (fst (shl_align mx ex (Z.min ey ex))))).
Proof.
  intros Hx Hy. rewrite !shl_align_fst by lia.
  unfold SFltb, SFcompare.
  assert (P1 : 0 < 2 ^ (ex - Z.min ey ex)) by (apply Z.pow_pos_nonneg; lia).
  assert (P2 : 0 < 2 ^ (ey - Z.min ey ex)) by (apply Z.pow_pos_nonneg; lia).
  destruct sx, sy; cbn [cond_Zopp].
  - destruct (Z.compare_spec ex ey) as [E|E|E].
    + subst ey. rewrite Z.min_id, Z.sub_diag, Z.pow_0_r, !Z.mul_1_r.
      fold (Pos.compare mx my).
      destruct (Pos.compare_spec mx my) as [C|C|C]; cbn [CompOpp];
        symmetry; try (apply Z.ltb_ge; lia); apply Z.ltb_lt; lia.
    + pose proof (bounded_exp_lt _ _ _ _ Hx Hy E) as B.
      rewrite Z.min_r in * by lia. rewrite Z.sub_diag, Z.pow_0_r, Z.mul_1_r.
      symmetry. apply Z.ltb_ge. lia.
    + pose proof (bounded_exp_lt _ _ _ _ Hy Hx E) as B.
      rewrite Z.min_l in * by lia. rewrite Z.sub_diag, Z.pow_0_r, Z.mul_1_r.
      symmetry. apply Z.ltb_lt. lia.
  - symmetry. apply Z.ltb_lt. lia.
  - symmetry. apply Z.ltb_ge. lia.
  - destruct (Z.compare_spec ex ey) as [E|E|E].
    + subst ey. rewrite Z.min_id, Z.sub_diag, Z.pow_0_r, !Z.mul_1_r.
      fold (Pos.compare mx my).
      destruct (Pos.compare_spec mx my) as [C|C|C];
        symmetry; try (apply Z.ltb_ge; lia); apply Z.ltb_lt; lia.
    + pose proof (bounded_exp_lt _ _ _ _ Hx Hy E) as B.
      rewrite Z.min_r in * by lia. rewrite Z.sub_diag, Z.pow_0_r, Z.mul_1_r.
      symmetry. apply Z.ltb_lt. lia.
    + pose proof (bounded_exp_lt _ _ _ _ Hy Hx E) as B.
      rewrite Z.min_l in * by lia. rewrite Z.sub_diag, Z.pow_0_r, Z.mul_1_r.
      symmetry. apply Z.ltb_ge. lia.
Qed.

(** The difference [y - x] is positive exactly when [x < y]: subtraction
    never rounds a non-zero difference to zero. *)
Lemma SFsub_pos (x y : spec_float) :
  valid_binary x = true -> valid_binary y = true ->
  SFltb (S754_zero false) (SFsub prec emax y x) = SFltb x y.
Proof.
  destruct x as [sx|sx| |sx mx ex], y as [sy|sy| |sy my ey];
    cbn [valid_binary]; intros Hx Hy;
    try reflexivity;
    try (destruct sx; reflexivity);
    try (destruct sy; reflexivity);
    try (destruct sx, sy; reflexivity).
  rewrite (SFltb_aligned sx sy mx my ex ey Hx Hy).
  cbn [SFsub].
  set (D := cond_Zopp sy _ - cond_Zopp sx _).
  pose proof (bounded_emin _ _ Hx). pose proof (bounded_emin _ _ Hy).
  destruct D as [|p|p]; cbn [binary_normalize].
  - reflexivity.
  - rewrite (SFltb_zero_signed false); [reflexivity|].
    apply binary_round_signed. lia.
  - rewrite (SFltb_zero_signed true); [reflexivity|].
    apply binary_round_signed. lia.
Qed.

End Canonical.

Lemma sub_pos (x y : num) : (0 <? y - x) = (x <? y).
Proof.
  rewrite !ltb_spec, sub_spec.
  apply Canonical.SFsub_pos; apply Prim2SF_valid.
Qed.


(* ================================================================== *)
(** ** Logic.getDueCards: the due set and its order *)
(* ================================================================== *)

Lemma by_priority_gt (a b : Card) : gtb (by_priority a b) 0 = (ps a <? ps b).
Proof. unfold gtb, by_priority. apply sub_pos. Qed.

Lemma sort_insert_perm {A} (cmp : A -> A -> num) (a : A) (l : list A) :
  Permutation (a :: l) (sort_insert cmp a l).
Proof.
  induction l as [|b l IH]; simpl; [reflexivity|].
  destruct (gtb (cmp a b) 0); [|reflexivity].
  rewrite perm_swap. now apply perm_skip.
Qed.

Lemma Array_sort_perm {A} (cmp : A -> A -> num) (l : list A) :
  Permutation l (Array_sort cmp l).
Proof.
  induction l as [|a l IH]; simpl; [reflexivity|].
  rewrite <- sort_insert_perm. now apply perm_skip.
Qed.

Lemma sort_insert_hd (c a : Card) (l : list Card) :
  before c a -> HdRel before c l -> HdRel before c (sort_insert by_priority a l).
Proof.
  intros Hca Hl. destruct l as [|b l]; simpl.
  - now constructor.
  - destruct (gtb (by_priority a b) 0); constructor; trivial.
    now inversion Hl.
Qed.

Lemma sort_insert_sorted (a : Card) (l : list Card) :
  is_nan (ps a) = false -> Forall (fun c => is_nan (ps c) = false) l ->
  Sorted before l -> Sorted before (sort_insert by_priority a l).
Proof.
  intros Ha. induction l as [|b l IH]; intros Hl Hs; simpl.
  - repeat constructor.
  - inversion Hl as [|? ? Hb Hl']; subst. inversion Hs as [|? ? Hs' Hh]; subst.
    destruct (gtb (by_priority a b) 0) eqn:E; rewrite by_priority_gt in E.
    + constructor; [now apply IH|].
      apply sort_insert_hd; [|assumption]. now apply ltb_leb.
    + constructor; [assumption|]. constructor. now apply ltb_false_leb.
Qed.

Lemma Array_sort_sorted (l : list Card) :
  Forall (fun c => is_nan (ps c) = false) l ->
  Sorted before (Array_sort by_priority l).
Proof.
  induction l as [|a l IH]; intros Hl; simpl; [constructor|].
  inversion Hl as [|? ? Ha Hl']; subst.
  apply sort_insert_sorted; [assumption| |now apply IH].
  eapply Permutation_Forall; [apply Array_sort_perm|assumption].
Qed.

Section DueCards.

Variables Math_exp Math_log2 Math_log10 : num -> num.
Variable Date_getDate : num -> num.
Variable Date_setDate : num -> num -> num.

Local Abbreviation cardStats :=
  (calculateCardStats Math_exp Math_log2 Math_log10).
Local Abbreviation dueCards := (getDueCards Math_exp Math_log2 Math_log10 Date_getDate Date_setDate).
Local Abbreviation withPriority :=
  (withPriority Math_exp Math_log2 Math_log10 Date_getDate Date_setDate).

Lemma withPriority_nextReviewAt logs now c :
  nextReviewAt (withPriority logs now c) = nextReviewAt c.
Proof. reflexivity. Qed.

(** The merged [priorityScore] is the one just computed. *)
Lemma withPriority_ps logs now c :
  ps (withPriority logs now c) =
  to_number (priorityScore (cardStats c (forgetRate (getUserStats Date_getDate Date_setDate
      logs now)) now)).
Proof.
  unfold withPriority, ps, spread, spread_stats, calculateCardStats.
  cbn [stats priorityScore].
  destruct (strict_eq (n c) 0); reflexivity.
Qed.

Lemma getDueCards_In (allCards : list Card) logs now (c : Card) :
  In c (dueCards allCards logs now) <->
  exists c0, In c0 allCards /\ c = withPriority logs now c0 /\ is_due now c = true.
Proof.
  unfold getDueCards.
  rewrite <- (Permutation_in' (eq_refl c) (Array_sort_perm by_priority _)).
  rewrite filter_In, in_map_iff.
  change (fun c1 : Card => spread c1 (cardStats c1 _ now))
    with (withPriority logs now).
  split.
  - intros [(c0 & <- & Hin) Hd]. now exists c0.
  - intros (c0 & Hin & -> & Hd). split; [now exists c0|assumption].
Qed.

(** C7: every card returned by [getDueCards] satisfies the inclusion
    predicate ([nextReviewAt] absent, or [nextReviewAt <= now], or
    [priorityScore >= 0.6]); a stored card without [nextReviewAt] is always
    returned; and the returned sequence is sorted non-increasing by
    [priorityScore] (the scores being numbers). *)
Theorem C7_due_cards (allCards : list Card) (logs : option (list Log)) (now : num) :
  (forall c, In c (dueCards allCards logs now) ->
     (exists c0, In c0 allCards /\ c = withPriority logs now c0) /\
     (nextReviewAt c = None \/
      (exists d, nextReviewAt c = Some d /\ (d <=? now) = true) \/
      geb (ps c) 0.6 = true)) /\
  (forall c0, In c0 allCards -> nextReviewAt c0 = None ->
     In (withPriority logs now c0) (dueCards allCards logs now)) /\
  (Forall (fun c => is_nan (ps c) = false) (dueCards allCards logs now) ->
   Sorted (fun a b => (ps b <=? ps a) = true) (dueCards allCards logs now)).
Proof.
  split; [|split].
  - intros c Hc. apply getDueCards_In in Hc.
    destruct Hc as (c0 & Hin & Hc & Hd). split; [now exists c0|].
    unfold is_due in Hd. destruct (nextReviewAt c) as [d|]; [|now left].
    right. apply orb_prop in Hd. destruct Hd as [Hd|Hd]; [left|now right].
    now exists d.
  - intros c0 Hin Hn. apply getDueCards_In. exists c0.
    split; [assumption|]. split; [reflexivity|].
    unfold is_due. now rewrite withPriority_nextReviewAt, Hn.
  - intros Hnan. unfold getDueCards in *. apply Array_sort_sorted.
    eapply Permutation_Forall; [|exact Hnan].
    symmetry. apply Array_sort_perm.
Qed.

End DueCards.

(* ================================================================== *)
(** ** The ratio of two counts lies between 0 and 1 *)
(* ================================================================== *)

Module Quotient.

Import Rounding Canonical.
Local Open Scope Z_scope.

Ltac pow_consts :=
  change (2 ^ 52) with 4503599627370496 in *;
  change (2 ^ 53) with 9007199254740992 in *;
  change (2 ^ 54) with 18014398509481984 in *.

Ltac div2 x :=
  pose proof (Z.div_mod x 2 ltac:(lia));
  pose proof (Z.mod_pos_bound x 2 ltac:(lia)).

Lemma digits2_unique (m : positive) (d : Z) :
  2 ^ (d - 1) <= Zpos m < 2 ^ d -> Zpos (digits2_pos m) = d.
Proof.
  intros [H1 H2].
  pose proof (digits2_lt m) as L. pose proof (digits2_le m) as U.
  set (d' := Zpos (digits2_pos m)) in *.
  assert (0 < d') by (unfold d'; lia).
  assert (0 < d).
  { destruct (Z.le_gt_cases d 0) as [D|D]; [|lia].
    assert (2 ^ d <= 2 ^ 0) by (apply Z.pow_le_mono_r; lia).
    simpl in *. lia. }
  destruct (Z.lt_trichotomy d d') as [D|[D|D]]; [|now symmetry|].
  - assert (2 ^ d <= 2 ^ (d' - 1)) by (apply Z.pow_le_mono_r; lia).
    replace (2 ^ d') with (2 ^ 1 * 2 ^ (d' - 1)) in U
      by (rewrite <- Z.pow_add_r by lia; f_equal; lia).
    lia.
  - assert (2 ^ d' <= 2 ^ (d - 1)) by (apply Z.pow_le_mono_r; lia). lia.
Qed.

(** A mantissa of 53 digits is not shifted; one of 54 is shifted once. *)
Lemma shr_fexp_53 (m : positive) (e : Z) (l : location) :
  Zpos (digits2_pos m) = 53 -> emin <= e ->
  shr_fexp prec emax (Zpos m) e l = (shr_record_of_loc (Zpos m) l, e).
Proof.
  intros Hd He. unfold shr_fexp. cbn [Zdigits2]. rewrite Hd.
  replace (fexp prec emax (53 + e) - e) with 0
    by (unfold fexp, prec, emin, SpecFloat.emin in *; lia).
  reflexivity.
Qed.

Lemma shr_fexp_54 (m : positive) (e : Z) (l : location) :
  Zpos (digits2_pos m) = 54 -> emin <= e + 1 ->
  shr_fexp prec emax (Zpos m) e l = (shr_1 (shr_record_of_loc (Zpos m) l), e + 1).
Proof.
  intros Hd He. unfold shr_fexp. cbn [Zdigits2]. rewrite Hd.
  replace (fexp prec emax (54 + e) - e) with 1
    by (unfold fexp, prec, emin, SpecFloat.emin in *; lia).
  reflexivity.
Qed.

Lemma loc_of_shr_record_of_loc (m : Z) (l : location) :
  loc_of_shr_record (shr_record_of_loc m l) = l.
Proof. destruct l as [|[]]; reflexivity. Qed.

Lemma round_nearest_even_cases (m : Z) (l : location) :
  round_nearest_even m l = m \/
  (round_nearest_even m l = m + 1 /\ l <> loc_Exact).
Proof.
  unfold round_nearest_even.
  destruct l as [|[]]; try destruct (Z.even m); auto;
    right; split; try reflexivity; discriminate.
Qed.

Lemma shr_1_exact (q : positive) (l : location) :
  loc_of_shr_record (shr_1 (shr_record_of_loc (Zpos q) l)) = loc_Exact ->
  l = loc_Exact /\ Z.even (Zpos q) = true.
Proof.
  destruct l as [|[]], q; simpl; intros H; try discriminate; auto.
Qed.

(** The last step of rounding on a mantissa between [2^52] and [2^53]. *)
Lemma shr_fexp_last (m1 : positive) (e1 : Z) :
  2 ^ 52 <= Zpos m1 <= 2 ^ 53 -> emin <= e1 ->
  exists mf ef,
    shr_fexp prec emax (Zpos m1) e1 loc_Exact
      = (Build_shr_record (Zpos mf) false false, ef) /\
    2 ^ 52 <= Zpos mf < 2 ^ 53 /\ e1 <= ef <= e1 + 1 /\
    Zpos mf * 2 ^ (ef - e1) = Zpos m1.
Proof.
  intros [L U] He.
  destruct (Z.eq_dec (Zpos m1) (2 ^ 53)) as [E|E].
  - assert (m1 = 9007199254740992%positive) by (apply Pos2Z.inj; exact E).
    subst m1. exists 4503599627370496%positive, (e1 + 1).
    rewrite shr_fexp_54 by (try reflexivity; lia).
    split; [reflexivity|]. replace (e1 + 1 - e1) with 1 by lia.
    simpl. lia.
  - exists m1, e1.
    rewrite shr_fexp_53 by (try apply digits2_unique; simpl in *; lia).
    split; [reflexivity|]. rewrite Z.sub_diag. simpl in *. lia.
Qed.

(** Rounding a mantissa [q] of 53 or 54 digits that is at most [2^t], and
    exact when it equals [2^t], gives a normal number that is still at most
    [2^t] units of the original exponent. *)
Lemma binary_round_aux_le_pow (s : bool) (q : positive) (e t : Z) (l : location) :
  2 ^ 52 <= Zpos q < 2 ^ 54 -> emin <= e -> e + 2 <= emax - prec -> 1 <= t ->
  Zpos q <= 2 ^ t -> (Zpos q = 2 ^ t -> l = loc_Exact) ->
  exists mf ef,
    binary_round_aux prec emax s (Zpos q) e l = S754_finite s mf ef /\
    2 ^ 52 <= Zpos mf < 2 ^ 53 /\ e <= ef /\
    Zpos mf * 2 ^ (ef - e) <= 2 ^ t.
Proof.
  intros [L U] He He' Ht Hq Hx.
  assert (Hfin : forall m1 e1,
             2 ^ 52 <= Zpos m1 <= 2 ^ 53 -> e <= e1 <= e + 1 ->
             Zpos m1 * 2 ^ (e1 - e) <= 2 ^ t ->
             exists mf ef,
               (let '(mrs'', e'') := shr_fexp prec emax (Zpos m1) e1 loc_Exact in
                match shr_m mrs'' with
                | Z0 => S754_zero s
                | Zpos m =>
                    if e'' <=? emax - prec then S754_finite s m e''
                    else S754_infinity s
                | Zneg _ => S754_nan
                end) = S754_finite s mf ef /\
               2 ^ 52 <= Zpos mf < 2 ^ 53 /\ e <= ef /\
               Zpos mf * 2 ^ (ef - e) <= 2 ^ t).
  { intros m1 e1 Hm1 He1 Hb.
    destruct (shr_fexp_last m1 e1 Hm1 ltac:(lia)) as (mf & ef & -> & Hmf & Hef & Hv).
    exists mf, ef. cbn [shr_m].
    replace (ef <=? emax - prec) with true by (symmetry; apply Z.leb_le; lia).
    split; [reflexivity|]. split; [assumption|]. split; [lia|].
    replace (ef - e) with ((ef - e1) + (e1 - e)) by lia.
    rewrite Z.pow_add_r, Z.mul_assoc, Hv by lia. assumption. }
  unfold binary_round_aux.
  assert (T : 2 ^ t = 2 * 2 ^ (t - 1)).
  { change 2 with (2 ^ 1) at 2. rewrite <- Z.pow_add_r by lia. f_equal. lia. }
  assert (0 < 2 ^ (t - 1)) by (apply Z.pow_pos_nonneg; lia).
  destruct (Z.lt_ge_cases (Zpos q) (2 ^ 53)) as [C|C].
  - rewrite shr_fexp_53 by (try apply digits2_unique; pow_consts; lia).
    rewrite shr_record_of_loc_m, loc_of_shr_record_of_loc.
    destruct (round_nearest_even_cases (Zpos q) l) as [R|[R Hl]]; rewrite R.
    + apply Hfin; rewrite ?Z.sub_diag, ?Z.pow_0_r; pow_consts; lia.
    + change (Zpos q + 1) with (Zpos (q + 1)).
      assert (Zpos q <> 2 ^ t) by (intros E; now apply Hl, Hx).
      apply Hfin; rewrite ?Z.sub_diag, ?Z.pow_0_r; pow_consts; lia.
  - rewrite shr_fexp_54 by (try apply digits2_unique; pow_consts; lia).
    assert (Hm : shr_m (shr_1 (shr_record_of_loc (Zpos q) l)) = Zpos q / 2).
    { rewrite shr_1_div; rewrite shr_record_of_loc_m; [reflexivity|lia]. }
    rewrite Hm.
    assert (Hq2 : 2 ^ 52 <= Zpos q / 2 < 2 ^ 53).
    { pow_consts. div2 (Zpos q). lia. }
    div2 (Zpos q).
    destruct (Zpos q / 2) as [|h|h] eqn:Eh; try (pow_consts; lia).
    replace (e + 1 - e) with 1 in * by lia.
    destruct (round_nearest_even_cases (Zpos h)
                (loc_of_shr_record (shr_1 (shr_record_of_loc (Zpos q) l))))
      as [R|[R Hl]]; rewrite R.
    + apply Hfin; replace (e + 1 - e) with 1 by lia;
        rewrite ?Z.pow_1_r; pow_consts; lia.
    + change (Zpos h + 1) with (Zpos (h + 1)).
      assert (Zpos q <> 2 ^ t).
      { intros E. apply Hl.
        destruct l as [|[]]; try (specialize (Hx E); discriminate).
        assert (Ev : Z.even (Zpos q) = true).
        { rewrite E, T. apply Z.even_mul. }
        destruct q; try discriminate. reflexivity. }
      apply Hfin; replace (e + 1 - e) with 1 by lia;
        rewrite ?Z.pow_1_r; pow_consts; lia.
Qed.

Lemma new_location_exact (nb : Z) : new_location nb 0 = loc_Exact.
Proof.
  unfold new_location, new_location_even, new_location_odd.
  now destruct (Z.even nb).
Qed.

(** The quotient of two normal numbers, the first not above the second, is
    a normal number not above 1. *)
Lemma SFdiv_le_one (M1 M2 : positive) (E1 E2 : Z) :
  Zpos (digits2_pos M1) = 53 -> Zpos (digits2_pos M2) = 53 ->
  -52 <= E1 -> E1 <= E2 -> E2 <= 0 ->
  Zpos M1 <= Zpos M2 * 2 ^ (E2 - E1) ->
  exists mf ef,
    SFdiv prec emax (S754_finite false M1 E1) (S754_finite false M2 E2)
      = S754_finite false mf ef /\
    SFleb (S754_finite false mf ef) (S754_finite false 4503599627370496 (-52))
      = true.
Proof.
  intros D1 D2 L1 L12 L2 Hle.
  pose proof (digits2_lt M1) as A1. pose proof (digits2_le M1) as B1.
  pose proof (digits2_lt M2) as A2. pose proof (digits2_le M2) as B2.
  rewrite D1 in A1, B1. rewrite D2 in A2, B2.
  set (t := 53 + (E2 - E1)).
  assert (Ht : 2 ^ t = 2 ^ 53 * 2 ^ (E2 - E1))
    by (unfold t; rewrite Z.pow_add_r by lia; reflexivity).
  assert (Hp : 0 < 2 ^ (E2 - E1)) by (apply Z.pow_pos_nonneg; lia).
  cbn [SFdiv xorb]. unfold SFdiv_core_binary. cbn [Zdigits2].
  rewrite D1, D2.
  replace (Z.min (fexp prec emax (53 + E1 - (53 + E2))) (E1 - E2)) with (- t)
    by (unfold fexp, prec, emax, emin, SpecFloat.emin, t; lia).
  replace (E1 - E2 - - t) with 53 by (unfold t; lia).
  rewrite Z.shiftl_mul_pow2 by lia.
  pose proof (Z_div_mod (Zpos M1 * 2 ^ 53) (Zpos M2) ltac:(lia)) as Hdm.
  destruct (Z.div_eucl (Zpos M1 * 2 ^ 53) (Zpos M2)) as [q r].
  destruct Hdm as [Hq Hr].
  pow_consts.
  assert (Q1 : 4503599627370496 <= q) by nia.
  assert (Q2 : q < 18014398509481984) by nia.
  assert (Q3 : q <= 2 ^ t) by (rewrite Ht; nia).
  destruct q as [|q|q]; try lia.
  destruct (binary_round_aux_le_pow false q (- t) t (new_location (Zpos M2) r))
    as (mf & ef & -> & Hmf & Hef & Hv);
    try assumption;
    try (pow_consts; unfold emin, SpecFloat.emin, emax, prec, t; lia).
  { intros E. rewrite Ht in E. rewrite E in Hq.
    replace r with 0 by lia. apply new_location_exact. }
  exists mf, ef. split; [reflexivity|].
  pow_consts.
  assert (F : ef < -52 \/ (ef = -52 /\ mf = 4503599627370496%positive)).
  { destruct (Z.lt_trichotomy ef (-52)) as [C|[C|C]]; [now left| |exfalso].
    - right. split; [assumption|]. subst ef.
      replace (-52 - - t) with (E2 - E1 + 1) in Hv by (unfold t; lia).
      rewrite Ht, Z.pow_add_r, Z.pow_1_r in Hv by lia.
      change (2 ^ 53) with 9007199254740992 in Hv. nia.
    - assert (2 ^ (E2 - E1 + 2) <= 2 ^ (ef - - t))
        by (apply Z.pow_le_mono_r; unfold t; lia).
      rewrite Z.pow_add_r in H by lia. change (2 ^ 2) with 4 in H.
      rewrite Ht in Hv. change (2 ^ 53) with 9007199254740992 in Hv. nia. }
  unfold SFleb, SFcompare.
  destruct F as [F|[-> ->]]; [|reflexivity].
  now rewrite (proj2 (Z.compare_lt_iff ef (-52)) F).
Qed.

(** A positive integer below [2^53] converts exactly, to a normal number. *)
Lemma binary_round_small (z : positive) :
  Zpos z < 2 ^ 53 ->
  exists M E,
    binary_round prec emax false z 0 = S754_finite false M E /\
    Zpos (digits2_pos M) = 53 /\
    E = Zpos (digits2_pos z) - 53 /\ -52 <= E <= 0 /\
    Zpos M = Zpos z * 2 ^ (- E).
Proof.
  intros Hz.
  pose proof (digits2_lt z) as A. pose proof (digits2_le z) as B.
  set (d := Zpos (digits2_pos z)) in *.
  assert (Hd : 1 <= d <= 53).
  { split; [unfold d; lia|].
    destruct (Z.le_gt_cases d 53) as [C|C]; [assumption|].
    assert (2 ^ 54 <= 2 ^ d) by (apply Z.pow_le_mono_r; lia).
    pow_consts. lia. }
  unfold binary_round. rewrite Z.add_0_r. fold d.
  assert (Hf : fexp prec emax d = d - 53)
    by (unfold fexp, prec, emax, emin, SpecFloat.emin; lia).
  rewrite Hf.
  pose proof (shl_align_fst z 0 (d - 53) ltac:(lia)) as F.
  pose proof (shl_align_snd z 0 (d - 53)) as S.
  destruct (shl_align z 0 (d - 53)) as [mz ez]. cbn [fst snd] in F, S.
  rewrite Z.min_r in S by lia. subst ez.
  replace (0 - (d - 53)) with (53 - d) in F by lia.
  assert (P : 2 ^ 53 = 2 ^ d * 2 ^ (53 - d))
    by (rewrite <- Z.pow_add_r by lia; f_equal; lia).
  assert (0 < 2 ^ (53 - d)) by (apply Z.pow_pos_nonneg; lia).
  assert (Dm : Zpos (digits2_pos mz) = 53).
  { apply digits2_unique. rewrite F. change (53 - 1) with 52.
    replace (2 ^ 52) with (2 ^ 53 / 2) by reflexivity.
    rewrite P. split; [|nia].
    apply Z.div_le_upper_bound; [lia|]. nia. }
  exists mz, (d - 53).
  unfold binary_round_aux.
  rewrite shr_fexp_53
    by (try assumption; unfold emin, SpecFloat.emin, emax, prec; lia).
  rewrite shr_record_of_loc_m, loc_of_shr_record_of_loc.
  cbn [round_nearest_even].
  rewrite shr_fexp_53
    by (try assumption; unfold emin, SpecFloat.emin, emax, prec; lia).
  cbn [shr_record_of_loc shr_m].
  replace (d - 53 <=? emax - prec) with true
    by (symmetry; apply Z.leb_le; unfold emax, prec; lia).
  split; [reflexivity|]. split; [assumption|]. split; [reflexivity|].
  split; [lia|]. rewrite F. f_equal. f_equal. lia.
Qed.

Lemma digits2_mono (a b : positive) :
  Zpos a <= Zpos b -> Zpos (digits2_pos a) <= Zpos (digits2_pos b).
Proof.
  intros H.
  pose proof (digits2_le a) as A. pose proof (digits2_lt b) as B.
  destruct (Z.le_gt_cases (Zpos (digits2_pos a)) (Zpos (digits2_pos b)))
    as [C|C]; [assumption|].
  assert (2 * 2 ^ Zpos (digits2_pos b) <= 2 ^ Zpos (digits2_pos a)); [|lia].
  change 2 with (2 ^ 1) at 1. rewrite <- Z.pow_add_r by lia.
  apply Z.pow_le_mono_r; lia.
Qed.

(** The ratio of two array lengths, the first not above the second. *)
Lemma SFdiv_counts (k n : Z) :
  0 <= k <= n -> 0 < n < 2 ^ 53 ->
  SFleb (S754_zero false)
    (SFdiv prec emax (binary_normalize prec emax k 0 false)
                     (binary_normalize prec emax n 0 false)) = true /\
  SFleb (SFdiv prec emax (binary_normalize prec emax k 0 false)
                         (binary_normalize prec emax n 0 false))
        (S754_finite false 4503599627370496 (-52)) = true.
Proof.
  intros Hk Hn.
  destruct n as [|n|n]; try lia. cbn [binary_normalize].
  destruct (binary_round_small n ltac:(lia)) as (M2 & E2 & -> & D2 & HE2 & B2 & V2).
  destruct k as [|k|k]; try lia; cbn [binary_normalize].
  - split; reflexivity.
  - destruct (binary_round_small k ltac:(lia))
      as (M1 & E1 & -> & D1 & HE1 & B1 & V1).
    pose proof (digits2_mono k n ltac:(lia)) as Dm.
    destruct (SFdiv_le_one M1 M2 E1 E2 D1 D2) as (mf & ef & -> & Hle);
      try lia.
    + rewrite V1, V2.
      replace (- E1) with ((- E2) + (E2 - E1)) by lia.
      rewrite Z.pow_add_r by lia.
      assert (0 < 2 ^ (- E2)) by (apply Z.pow_pos_nonneg; lia).
      assert (0 < 2 ^ (E2 - E1)) by (apply Z.pow_pos_nonneg; lia).
      nia.
    + split; [reflexivity|assumption].
Qed.

End Quotient.

Lemma Prim2SF_of_nat (k : nat) :
  (Z.of_nat k < 2 ^ 53)%Z ->
  Prim2SF (of_nat k) = binary_normalize prec emax (Z.of_nat k) 0 false.
Proof.
  intros H. unfold of_nat. rewrite of_uint63_spec, Uint63.of_Z_spec.
  rewrite Z.mod_small; [reflexivity|].
  split; [lia|]. eapply Z.lt_trans; [exact H|]. reflexivity.
Qed.

(** The ratio computed by [getUserStats] lies between 0 and 1. *)
Lemma ratio_bounds (k n : nat) :
  (k <= n)%nat -> (0 < n)%nat -> (Z.of_nat n < 2 ^ 53)%Z ->
  (0 <=? of_nat k / of_nat n)%float = true /\
  (of_nat k / of_nat n <=? 1)%float = true.
Proof.
  intros Hk Hn Hb. rewrite !leb_spec, div_spec, !Prim2SF_of_nat by lia.
  apply Quotient.SFdiv_counts; lia.
Qed.


(* ================================================================== *)
(** ** Logic.getUserStats: the forgetting rate *)
(* ================================================================== *)

Lemma filter_length_le {A} (f : A -> bool) (l : list A) :
  (length (filter f l) <= length l)%nat.
Proof.
  induction l as [|a l IH]; simpl; [lia|]. destruct (f a); simpl; lia.
Qed.

Section ForgettingRate.

Variable Date_getDate : num -> num.
Variable Date_setDate : num -> num -> num.

Local Abbreviation getUserStats' := (getUserStats Date_getDate Date_setDate).
Local Abbreviation window' := (window Date_getDate Date_setDate).
Local Abbreviation cutoff' := (cutoff Date_getDate Date_setDate).

Lemma getUserStats_window (logs : option (list Log)) (now : num) :
  getUserStats' logs now =
  match window' logs now with
  | [] => mkUserStats 0 0
  | _ :: _ =>
      mkUserStats (of_nat (length (filter lapse (window' logs now)))
                   / of_nat (length (window' logs now)))
                  (length (window' logs now))
  end.
Proof.
  unfold getUserStats, window.
  destruct (index_getAll_lowerBound logs (cutoff' now)) as [[|l res]|];
    reflexivity.
Qed.

(** Entries are stamped with the clock: when none is dated after [now],
    the entries counted are those of the trailing 30 days. *)
Lemma window_trailing (ls : list Log) (now : num) :
  Forall (fun l => (reviewedAt l <=? now) = true) ls ->
  window' (Some ls) now
  = filter (in_trailing_30_days Date_getDate Date_setDate now) ls.
Proof.
  intros H. unfold window, index_getAll_lowerBound, option_map.
  induction H as [|l ls Hl _ IH]; simpl; [reflexivity|].
  unfold in_trailing_30_days at 1. rewrite Hl, andb_true_r.
  destruct (cutoff' now <=? reviewedAt l); now rewrite IH.
Qed.

(** C8 (amended): the entries that [getUserStats] counts are those dated at
    or after the cutoff, thirty calendar days before [now]; the query has no
    upper bound, so an entry dated after [now] is counted too.  It returns
    exactly 0 (and a total of 0) when no entry is counted, and also when the
    request fails; otherwise it returns the number of counted entries with
    [q < 3] divided by the number of counted entries, a value between 0 and
    1.  The entries counted are those of the trailing 30 days when no entry
    is dated after [now]. *)
Theorem C8_forgetting_rate (logs : option (list Log)) (now : num) :
  (forall ls, logs = Some ls ->
     window' logs now = filter (fun l => cutoff' now <=? reviewedAt l) ls) /\
  (window' logs now = [] -> getUserStats' logs now = mkUserStats 0 0) /\
  (logs = None -> getUserStats' logs now = mkUserStats 0 0) /\
  (window' logs now <> [] ->
     forgetRate (getUserStats' logs now) =
       of_nat (length (filter lapse (window' logs now)))
       / of_nat (length (window' logs now)) /\
     total (getUserStats' logs now) = length (window' logs now)) /\
  ((Z.of_nat (length (window' logs now)) < 2 ^ 32)%Z ->
     (0 <=? forgetRate (getUserStats' logs now)) = true /\
     (forgetRate (getUserStats' logs now) <=? 1) = true) /\
  (forall ls, logs = Some ls ->
     Forall (fun l => (reviewedAt l <=? now) = true) ls ->
     window' logs now
     = filter (in_trailing_30_days Date_getDate Date_setDate now) ls).
Proof.
  split; [now intros ls ->|].
  rewrite getUserStats_window. repeat split.
  - now intros ->.
  - now intros ->.
  - destruct (window' logs now); [congruence|reflexivity].
  - destruct (window' logs now); [congruence|reflexivity].
  - destruct (window' logs now) as [|l w] eqn:E; [reflexivity|].
    cbn [forgetRate]. apply ratio_bounds.
    + apply filter_length_le.
    + simpl. lia.
    + eapply Z.lt_trans; [eassumption|reflexivity].
  - destruct (window' logs now) as [|l w] eqn:E; [reflexivity|].
    cbn [forgetRate]. apply ratio_bounds.
    + apply filter_length_le.
    + simpl. lia.
    + eapply Z.lt_trans; [eassumption|reflexivity].
  - intros ls -> H. now apply window_trailing.
Qed.

End ForgettingRate.

(** Five entries counted, two of them lapses, and an older one. *)
Lemma C8_witness :
  forgetRate
    (getUserStats sample_getDate sample_setDate
       (Some [mkLog 1 1.699e12 1 0 2.5 1 2.5; mkLog 2 1.699e12 1 6 2.5 1 2.2;
              mkLog 3 1.6995e12 3 1 2.5 6 2.4; mkLog 1 1.6996e12 4 1 2.5 6 2.5;
              mkLog 2 1.6997e12 5 1 2.2 6 2.3; mkLog 4 1.6e12 1 1 2.5 1 2.2])
       1.7e12) = 0.4 /\
  (0 <=? 0.4) = true /\ (0.4 <=? 1) = true.
Proof.
  destruct (C8_forgetting_rate sample_getDate sample_setDate
              (Some [mkLog 1 1.699e12 1 0 2.5 1 2.5; mkLog 2 1.699e12 1 6 2.5 1 2.2;
                     mkLog 3 1.6995e12 3 1 2.5 6 2.4; mkLog 1 1.6996e12 4 1 2.5 6 2.5;
                     mkLog 2 1.6997e12 5 1 2.2 6 2.3; mkLog 4 1.6e12 1 1 2.5 1 2.2])
              1.7e12) as (_ & _ & _ & H3 & H4 & _).
  split; [apply H3; discriminate|]. apply H4. reflexivity.
Defined.

(** The claim as first stated fails on an entry dated after [now]: a lapse
    stamped one day ahead is outside the trailing 30 days of [now], no other
    entry exists, and the forgetting rate is 1 (with a total of 1), not 0. *)
Lemma C8_counterexample :
  filter (in_trailing_30_days sample_getDate sample_setDate 1.7e12)
    [mkLog 1 (1.7e12 + 864e5) 1 1 2.5 1 2.5] = [] /\
  getUserStats sample_getDate sample_setDate
    (Some [mkLog 1 (1.7e12 + 864e5) 1 1 2.5 1 2.5]) 1.7e12 = mkUserStats 1 1.
Proof. split; reflexivity. Qed.

Lemma C7_witness :
  Sorted (fun a b => (ps b <=? ps a) = true)
    (getDueCards (fun _ => 0.5) (fun _ => 3) (fun _ => 0.25) sample_getDate sample_setDate
       [mkCard 1 1 3 15 2.5 (Some 1.69e12) (Some 1.68e12) (Some 3) no_stats;
        new_card 2 1;
        mkCard 3 1 1 1 2.6 (Some 1.71e12) (Some 1.6999e12) (Some 1) no_stats;
        mkCard 4 1 2 6 1.3 (Some 1.7e12) (Some 1.69e12) (Some 4) no_stats]
       None 1.7e12).
Proof.
  apply (C7_due_cards (fun _ => 0.5) (fun _ => 3) (fun _ => 0.25) sample_getDate sample_setDate).
  repeat constructor.
Defined.

(* ================================================================== *)
(** ** The order of binary64 values is transitive *)
(* ================================================================== *)

Module Order.

Import Rounding Canonical.
Local Open Scope Z_scope.

Lemma rank_finite_bounds (m : positive) (e : Z) :
  bounded prec emax m e = true ->
  0 <= e - emin < 2 ^ 12 /\ 0 < Zpos m < 2 ^ 53.
Proof.
  intros H. pose proof (bounded_emin _ _ H) as He.
  pose proof (bounded_digits _ _ H) as Hd.
  pose proof (digits2_lt m) as Hm.
  unfold bounded in H. apply andb_prop in H. destruct H as [_ H].
  apply Z.leb_le in H.
  assert (2 ^ Zpos (digits2_pos m) <= 2 ^ 53)
    by (apply Z.pow_le_mono_r; unfold prec in *; lia).
  unfold emin, SpecFloat.emin, emax, prec in *.
  change (2 ^ 12) with 4096. lia.
Qed.

Lemma SFcompare_rank (x y : spec_float) :
  valid_binary x = true -> valid_binary y = true ->
  x <> S754_nan -> y <> S754_nan ->
  SFcompare x y = Some (rank x ?= rank y).
Proof.
  destruct x as [sx|sx| |sx mx ex], y as [sy|sy| |sy my ey];
    cbn [valid_binary]; intros Hx Hy Nx Ny; try congruence.
  - reflexivity.
  - destruct sy; reflexivity.
  - destruct (rank_finite_bounds _ _ Hy) as [B1 B2].
    destruct sy; cbn [SFcompare rank cond_Zopp]; f_equal; symmetry;
      [apply Z.compare_gt_iff|apply Z.compare_lt_iff]; nia.
  - destruct sx; reflexivity.
  - destruct sx, sy; reflexivity.
  - destruct (rank_finite_bounds _ _ Hy) as [B1 B2].
    change (2 ^ 12) with 4096 in *. change (2 ^ 53) with 9007199254740992 in *.
    destruct sx, sy; cbn [SFcompare rank cond_Zopp];
      change (2 ^ 70) with 1180591620717411303424;
      change (2 ^ 53) with 9007199254740992; f_equal; symmetry;
      try (apply Z.compare_gt_iff; nia); try (apply Z.compare_lt_iff; nia).
  - destruct (rank_finite_bounds _ _ Hx) as [B1 B2].
    destruct sx; cbn [SFcompare rank cond_Zopp]; f_equal; symmetry;
      [apply Z.compare_lt_iff|apply Z.compare_gt_iff]; nia.
  - destruct (rank_finite_bounds _ _ Hx) as [B1 B2].
    change (2 ^ 12) with 4096 in *. change (2 ^ 53) with 9007199254740992 in *.
    destruct sx, sy; cbn [SFcompare rank cond_Zopp];
      change (2 ^ 70) with 1180591620717411303424;
      change (2 ^ 53) with 9007199254740992; f_equal; symmetry;
      try (apply Z.compare_gt_iff; nia); try (apply Z.compare_lt_iff; nia).
  - destruct (rank_finite_bounds _ _ Hx) as [A1 A2].
    destruct (rank_finite_bounds _ _ Hy) as [B1 B2].
    change (2 ^ 53) with 9007199254740992 in *.
    cbn [SFcompare rank]. f_equal.
    destruct sx, sy; cbn [cond_Zopp].
    + destruct (Z.compare_spec ex ey) as [E|E|E].
      * subst ey. fold (Pos.compare mx my).
        destruct (Pos.compare_spec mx my) as [C|C|C]; cbn [CompOpp]; symmetry;
          [apply Z.compare_eq_iff|apply Z.compare_gt_iff|apply Z.compare_lt_iff];
          subst; lia.
      * symmetry. apply Z.compare_gt_iff. nia.
      * symmetry. apply Z.compare_lt_iff. nia.
    + symmetry. apply Z.compare_lt_iff. nia.
    + symmetry. apply Z.compare_gt_iff. nia.
    + destruct (Z.compare_spec ex ey) as [E|E|E].
      * subst ey. fold (Pos.compare mx my).
        destruct (Pos.compare_spec mx my) as [C|C|C]; symmetry;
          [apply Z.compare_eq_iff|apply Z.compare_lt_iff|apply Z.compare_gt_iff];
          subst; lia.
      * symmetry. apply Z.compare_lt_iff. nia.
      * symmetry. apply Z.compare_gt_iff. nia.
Qed.

End Order.

Lemma leb_rank (x y : float) :
  (x <=? y)%float = true <->
  is_nan x = false /\ is_nan y = false /\
  (rank (Prim2SF x) <= rank (Prim2SF y))%Z.
Proof.
  split.
  - intros H. pose proof (leb_not_nan_l _ _ H) as Hx.
    pose proof (leb_not_nan_r _ _ H) as Hy.
    split; [assumption|]. split; [assumption|].
    rewrite leb_spec in H. unfold SFleb in H.
    rewrite Order.SFcompare_rank in H
      by (try apply Prim2SF_valid; now apply is_nan_false).
    destruct (Z.compare_spec (rank (Prim2SF x)) (rank (Prim2SF y)));
      try discriminate; lia.
  - intros (Hx & Hy & H). rewrite leb_spec. unfold SFleb.
    rewrite Order.SFcompare_rank
      by (try apply Prim2SF_valid; now apply is_nan_false).
    destruct (Z.compare_spec (rank (Prim2SF x)) (rank (Prim2SF y)));
      try reflexivity; lia.
Qed.

Lemma leb_trans (x y z : float) :
  (x <=? y)%float = true -> (y <=? z)%float = true -> (x <=? z)%float = true.
Proof.
  rewrite !leb_rank. intros (Hx & _ & H1) (_ & Hz & H2).
  repeat split; try assumption. lia.
Qed.

Lemma ltb_rank (x y : float) :
  (x <? y)%float = true <->
  is_nan x = false /\ is_nan y = false /\
  (rank (Prim2SF x) < rank (Prim2SF y))%Z.
Proof.
  split.
  - intros H. pose proof (ltb_not_nan_l _ _ H) as Hx.
    pose proof (ltb_not_nan_r _ _ H) as Hy.
    split; [assumption|]. split; [assumption|].
    rewrite ltb_spec in H. unfold SFltb in H.
    rewrite Order.SFcompare_rank in H
      by (try apply Prim2SF_valid; now apply is_nan_false).
    destruct (Z.compare_spec (rank (Prim2SF x)) (rank (Prim2SF y)));
      try discriminate; lia.
  - intros (Hx & Hy & H). rewrite ltb_spec. unfold SFltb.
    rewrite Order.SFcompare_rank
      by (try apply Prim2SF_valid; now apply is_nan_false).
    destruct (Z.compare_spec (rank (Prim2SF x)) (rank (Prim2SF y)));
      try reflexivity; lia.
Qed.

Lemma ltb_leb_trans (x y z : float) :
  (x <? y)%float = true -> (y <=? z)%float = true -> (x <? z)%float = true.
Proof.
  rewrite !ltb_rank, leb_rank. intros (Hx & _ & H1) (_ & Hz & H2).
  repeat split; try assumption. lia.
Qed.

Lemma leb_ltb_trans (x y z : float) :
  (x <=? y)%float = true -> (y <? z)%float = true -> (x <? z)%float = true.
Proof.
  rewrite !ltb_rank, leb_rank. intros (Hx & _ & H1) (_ & Hz & H2).
  repeat split; try assumption. lia.
Qed.

(* ================================================================== *)
(** ** The card store *)
(* ================================================================== *)

Lemma put_keys (card : Card) (store : list Card) :
  map id (put card store) =
  if existsb (fun c => (id c =? id card)%Z) store then map id store
  else map id store ++ [id card].
Proof.
  induction store as [|c store IH]; simpl; [reflexivity|].
  destruct (id c =? id card)%Z eqn:E; simpl.
  - apply Z.eqb_eq in E. now rewrite E.
  - rewrite IH. now destruct (existsb _ store).
Qed.

Lemma existsb_key (k : Z) (store : list Card) :
  existsb (fun c => (id c =? k)%Z) store = true <-> In k (map id store).
Proof.
  rewrite existsb_exists, in_map_iff. split.
  - intros (c & Hin & E). apply Z.eqb_eq in E. now exists c.
  - intros (c & E & Hin). exists c. split; [assumption|now apply Z.eqb_eq].
Qed.

Lemma get_put (card : Card) (store : list Card) (k : Z) :
  get k (put card store) = if (id card =? k)%Z then Some card else get k store.
Proof.
  unfold get. induction store as [|c store IH]; simpl.
  - reflexivity.
  - destruct (id c =? id card)%Z eqn:E; simpl.
    + apply Z.eqb_eq in E. rewrite E. now destruct (id card =? k)%Z.
    + rewrite IH. destruct (id c =? k)%Z eqn:E'; [|reflexivity].
      apply Z.eqb_eq in E'. subst k.
      now rewrite Z.eqb_sym, E.
Qed.

Lemma put_keys_distinct (card : Card) (store : list Card) :
  keys_distinct store -> keys_distinct (put card store).
Proof.
  unfold keys_distinct. intros H. rewrite put_keys.
  destruct (existsb _ store) eqn:E; [assumption|].
  apply NoDup_app; [assumption|repeat constructor; simpl; tauto|].
  intros k Hk [<-|[]]. apply existsb_key in Hk. congruence.
Qed.

(** X1: [db.put] followed by [db.get]: the record just put is the one read
    back under its key, every other key reads as before, and the keys stay
    distinct; putting under a key already present changes neither the keys
    nor their order, and putting under a new key adds that one key. *)
Theorem put_get_round_trip (card : Card) (store : list Card) :
  get (id card) (put card store) = Some card /\
  (forall k, k <> id card -> get k (put card store) = get k store) /\
  (keys_distinct store -> keys_distinct (put card store)) /\
  (In (id card) (map id store) -> map id (put card store) = map id store) /\
  (~ In (id card) (map id store) ->
     Permutation (map id (put card store)) (id card :: map id store)).
Proof.
  repeat split.
  - now rewrite get_put, Z.eqb_refl.
  - intros k Hk. rewrite get_put.
    destruct (id card =? k)%Z eqn:E; [|reflexivity].
    apply Z.eqb_eq in E. congruence.
  - apply put_keys_distinct.
  - intros H. rewrite put_keys. apply existsb_key in H. now rewrite H.
  - intros H. rewrite put_keys.
    destruct (existsb _ store) eqn:E.
    + apply existsb_key in E. contradiction.
    + symmetry. apply Permutation_cons_append.
Qed.

Lemma get_del (k k' : Z) (store : list Card) :
  get k' (del k store) = if (k =? k')%Z then None else get k' store.
Proof.
  unfold get, del. induction store as [|c store IH]; simpl.
  - now destruct (k =? k')%Z.
  - destruct (id c =? k)%Z eqn:E; simpl.
    + rewrite IH. apply Z.eqb_eq in E. subst k.
      now destruct (id c =? k')%Z.
    + rewrite IH. destruct (id c =? k')%Z eqn:E'; [|reflexivity].
      apply Z.eqb_eq in E'. subst k'. now rewrite Z.eqb_sym, E.
Qed.

Lemma del_keys_distinct (k : Z) (store : list Card) :
  keys_distinct store -> keys_distinct (del k store).
Proof.
  unfold keys_distinct, del. induction store as [|c store IH]; simpl; intros H.
  - constructor.
  - inversion H as [|? ? Hn Hd]; subst.
    destruct (id c =? k)%Z; simpl; [now apply IH|].
    constructor; [|now apply IH].
    intros Hin. apply Hn. apply in_map_iff in Hin.
    destruct Hin as (x & E & Hx). apply filter_In in Hx.
    apply in_map_iff. exists x. tauto.
Qed.

(* ================================================================== *)
(** ** What a review changes *)
(* ================================================================== *)

Lemma set_nth_length {A} (i : nat) (v : A) (l : list A) :
  length (set_nth i v l) = length l.
Proof.
  revert i. induction l as [|a l IH]; intros [|i]; simpl; auto.
Qed.

Lemma nth_error_set_nth_other {A} (i j : nat) (v : A) (l : list A) :
  i <> j -> nth_error (set_nth i v l) j = nth_error l j.
Proof.
  revert i j. induction l as [|a l IH]; intros [|i] [|j] H; simpl;
    try reflexivity; try congruence.
  apply IH. congruence.
Qed.

Section ReviewEffects.

Variables Math_exp Math_log2 Math_log10 : num -> num.
Variable Date_getDate : num -> num.
Variable Date_setDate : num -> num -> num.

Local Abbreviation review' := (review Math_exp Math_log2 Math_log10 Date_getDate Date_setDate).
Local Abbreviation submit := (submitReview Math_exp Math_log2 Math_log10 Date_getDate Date_setDate).
Local Abbreviation run := (reviews Math_exp Math_log2 Math_log10 Date_getDate Date_setDate).
Local Abbreviation dueCards := (getDueCards Math_exp Math_log2 Math_log10 Date_getDate Date_setDate).
Local Abbreviation start := (startSession Math_exp Math_log2 Math_log10 Date_getDate Date_setDate).

Lemma review_keeps_identity (card : Card) (quality : num) (us : UserStats)
  (now : num) card' log :
  review' card quality us now = Some (card', log) ->
  id card' = id card /\ deckId card' = deckId card /\ stats card' = stats card /\
  lastReviewAt card' = Some now /\
  cardId log = id card /\ reviewedAt log = now /\ q log = quality /\
  intervalBefore log = I card /\ efBefore log = EF card /\
  intervalAfter log = I card' /\ logEF log = EF card'.
Proof.
  unfold review. destruct (valid_time _); [|discriminate].
  intros [= <- <-]. cbn. repeat split.
Qed.

Lemma submitReview_unfold (st : State) (uiGrade : Z) (now : num) :
  submit st uiGrade now =
  match nth_error (studyQueue st) (currentCardIndex st) with
  | None => None
  | Some card =>
      match review' card (to_number (qMap uiGrade))
              (getUserStats Date_getDate Date_setDate (Some (logs st)) now) now with
      | None => None
      | Some (card', log) =>
          Some (mkState (set_nth (currentCardIndex st) card' (studyQueue st))
                        (S (currentCardIndex st))
                        (put card' (cards st))
                        (logs st ++ [log]))
      end
  end.
Proof. reflexivity. Qed.

(** X2: a review that goes through rewrites exactly one record of the card
    store, the one of the current card, and appends exactly one log entry
    that snapshots the interval and ease factor before and after; the queue
    keeps its length and its other cards, and the session moves on by one
    card. *)
Theorem submitReview_effects (st st' : State) (uiGrade : Z) (now : num) :
  submit st uiGrade now = Some st' ->
  exists card card' log,
    nth_error (studyQueue st) (currentCardIndex st) = Some card /\
    id card' = id card /\ deckId card' = deckId card /\
    get (id card) (cards st') = Some card' /\
    (forall k, k <> id card -> get k (cards st') = get k (cards st)) /\
    (keys_distinct (cards st) -> keys_distinct (cards st')) /\
    logs st' = logs st ++ [log] /\
    cardId log = id card /\ reviewedAt log = now /\
    intervalBefore log = I card /\ efBefore log = EF card /\
    intervalAfter log = I card' /\ logEF log = EF card' /\
    length (studyQueue st') = length (studyQueue st) /\
    nth_error (studyQueue st') (currentCardIndex st) = Some card' /\
    (forall j, j <> currentCardIndex st ->
       nth_error (studyQueue st') j = nth_error (studyQueue st) j) /\
    currentCardIndex st' = S (currentCardIndex st).
Proof.
  rewrite submitReview_unfold.
  destruct (nth_error _ _) as [card|] eqn:Hc; [|discriminate].
  destruct (review' _ _ _ _) as [[card' log]|] eqn:Hr; [|discriminate].
  intros [= <-]. exists card, card', log.
  destruct (review_keeps_identity _ _ _ _ _ _ Hr)
    as (Hid & Hdeck & _ & _ & L1 & L2 & _ & L3 & L4 & L5 & L6).
  cbn [studyQueue currentCardIndex cards logs].
  split; [reflexivity|]. split; [assumption|]. split; [assumption|].
  split; [now rewrite <- Hid, get_put, Z.eqb_refl|].
  split; [intros k Hk; rewrite get_put;
          destruct (id card' =? k)%Z eqn:E; [apply Z.eqb_eq in E|]; congruence|].
  split; [apply put_keys_distinct|]. split; [reflexivity|].
  split; [assumption|]. split; [assumption|]. split; [assumption|].
  split; [assumption|]. split; [assumption|]. split; [assumption|].
  split; [apply set_nth_length|].
  split; [now apply nth_error_set_nth with (x := card)|].
  split; [|reflexivity].
  intros j Hj. apply nth_error_set_nth_other. congruence.
Qed.

Lemma submitReview_step (st st' : State) (uiGrade : Z) (now : num) :
  submit st uiGrade now = Some st' ->
  (currentCardIndex st < length (studyQueue st))%nat /\
  currentCardIndex st' = S (currentCardIndex st) /\
  length (studyQueue st') = length (studyQueue st) /\
  length (logs st') = S (length (logs st)).
Proof.
  rewrite submitReview_unfold.
  destruct (nth_error _ _) as [card|] eqn:Hc; [|discriminate].
  destruct (review' _ _ _ _) as [[card' log]|]; [|discriminate].
  intros [= <-]. cbn [studyQueue currentCardIndex cards logs].
  assert (Hlt : (currentCardIndex st < length (studyQueue st))%nat)
    by (apply nth_error_Some; congruence).
  rewrite set_nth_length, length_app. simpl. lia.
Qed.

Lemma reviews_counts (st st' : State) (steps : list (Z * num)) :
  run st steps = Some st' ->
  currentCardIndex st' = (currentCardIndex st + length steps)%nat /\
  (steps <> [] -> currentCardIndex st' <= length (studyQueue st))%nat /\
  length (studyQueue st') = length (studyQueue st) /\
  length (logs st') = (length (logs st) + length steps)%nat.
Proof.
  revert st. induction steps as [|[g now] steps IH]; intros st; simpl.
  - intros [= <-]. repeat split; try lia. congruence.
  - destruct (submit st g now) as [st1|] eqn:Hs; [|discriminate].
    intros Hrun. destruct (IH _ Hrun) as (I1 & I2 & I3 & I4).
    destruct (submitReview_step _ _ _ _ Hs) as (Hlt & Hidx & Hlen & Hl).
    rewrite Hidx in I1. rewrite Hlen in I2, I3. rewrite Hl in I4.
    repeat split; try lia.
    intros _. destruct steps as [|s steps']; [|apply I2; discriminate].
    simpl in I1. lia.
Qed.

(** X3: a review with no current card (the queue is exhausted) is an
    exception and a run of reviews never goes past the end of the queue;
    a run of [k] reviews moves the session on by [k] cards and appends [k]
    log entries, without changing the length of the queue. *)
Theorem reviews_progress (st st' : State) (steps : list (Z * num)) :
  run st steps = Some st' ->
  currentCardIndex st' = (currentCardIndex st + length steps)%nat /\
  (steps <> [] -> currentCardIndex st' <= length (studyQueue st))%nat /\
  length (studyQueue st') = length (studyQueue st) /\
  length (logs st') = (length (logs st) + length steps)%nat.
Proof.
  apply reviews_counts.
Qed.

(** X4: once every card of the queue has been reviewed, nothing is left to
    show and a further review is an exception that writes nothing. *)
Theorem session_ends (st st' : State) (steps : list (Z * num)) :
  run st steps = Some st' ->
  (currentCardIndex st + length steps)%nat = length (studyQueue st) ->
  renderCurrentStudyCard st' = EmptySession /\
  (forall uiGrade now, submit st' uiGrade now = None).
Proof.
  intros Hrun Hlen.
  destruct (reviews_counts _ _ _ Hrun) as (H1 & _ & H2 & _).
  assert (Hge : (length (studyQueue st') <= currentCardIndex st')%nat) by lia.
  split.
  - unfold renderCurrentStudyCard.
    now rewrite (proj2 (Nat.leb_le _ _) Hge).
  - intros uiGrade now. rewrite submitReview_unfold.
    now rewrite (proj2 (nth_error_None _ _) Hge).
Qed.

(* ================================================================ *)
(** ** Starting a session *)
(* ================================================================ *)

Lemma filter_partition_perm {A} (f : A -> bool) (l : list A) :
  Permutation l (filter f l ++ filter (fun x => negb (f x)) l).
Proof.
  induction l as [|a l IH]; simpl; [reflexivity|].
  destruct (f a); simpl.
  - now apply perm_skip.
  - now apply Permutation_cons_app.
Qed.

Lemma before_trans : Relations_1.Transitive before.
Proof.
  intros a b c Hab Hbc. unfold before in *. now apply leb_trans with (ps b).
Qed.

Lemma StronglySorted_filter {A} (R : A -> A -> Prop) (f : A -> bool) (l : list A) :
  StronglySorted R l -> StronglySorted R (filter f l).
Proof.
  induction 1 as [|a l Hs IH Hf]; simpl; [constructor|].
  destruct (f a); [|assumption].
  constructor; [assumption|].
  rewrite Forall_forall in *. intros x Hx. apply filter_In in Hx.
  now apply Hf.
Qed.

Lemma Array_sort_by_priority_strongly (l : list Card) :
  Forall (fun c => is_nan (ps c) = false) (Array_sort by_priority l) ->
  StronglySorted (fun a b => (ps b <=? ps a) = true) (Array_sort by_priority l).
Proof.
  intros H. apply (Sorted_StronglySorted before_trans).
  apply Array_sort_sorted.
  eapply Permutation_Forall; [|exact H].
  symmetry. apply Array_sort_perm.
Qed.

(** X5: when the scores are numbers, every card returned by [getDueCards]
    has a priority score at least as high as every card after it: the first
    card of the queue has the highest score. *)
Theorem getDueCards_strongly_sorted (allCards : list Card)
  (logs : option (list Log)) (now : num) :
  Forall (fun c => is_nan (ps c) = false) (dueCards allCards logs now) ->
  StronglySorted (fun a b => (ps b <=? ps a) = true) (dueCards allCards logs now).
Proof.
  intros H. unfold getDueCards in *.
  now apply Array_sort_by_priority_strongly.
Qed.

(** X6: [startSession] leaves the state alone when nothing is due;
    otherwise it restarts at the first card of a queue that holds exactly
    the due cards, the cards of the chosen deck before all the others, and
    the due queue itself when no deck is chosen; the stores are not
    touched. *)
Theorem startSession_queue (st : State) (filter' : option Z) (now : num) :
  let due := dueCards (cards st) (Some (logs st)) now in
  (due = [] -> start st filter' now = st) /\
  (due <> [] ->
     currentCardIndex (start st filter' now) = 0%nat /\
     cards (start st filter' now) = cards st /\
     logs (start st filter' now) = logs st /\
     Permutation due (studyQueue (start st filter' now)) /\
     match filter' with
     | None => studyQueue (start st filter' now) = due
     | Some f =>
         exists l1 l2,
           studyQueue (start st filter' now) = l1 ++ l2 /\
           Forall (fun c => deckId c = f) l1 /\
           Forall (fun c => deckId c <> f) l2
     end).
Proof.
  intros due. unfold startSession. fold due. split.
  - now intros ->.
  - intros Hne. destruct due as [|c due'] eqn:E; [congruence|].
    cbn [currentCardIndex cards logs studyQueue].
    repeat split.
    + destruct filter' as [f|]; [|reflexivity]. apply filter_partition_perm.
    + destruct filter' as [f|]; [|reflexivity].
      eexists _, _. split; [reflexivity|].
      split; apply Forall_forall; intros x Hx; apply filter_In in Hx;
        destruct Hx as [_ Hx].
      * now apply Z.eqb_eq.
      * apply negb_true_iff in Hx. now apply Z.eqb_neq.
Qed.

(** X7: inside each of the two groups of the queue built by [startSession]
    (the cards of the chosen deck, then the others) the cards keep the order
    of [getDueCards], so each group is in non-increasing order of priority
    score when the scores are numbers. *)
Theorem startSession_groups_sorted (st : State) (f : Z) (now : num) :
  let due := dueCards (cards st) (Some (logs st)) now in
  due <> [] ->
  Forall (fun c => is_nan (ps c) = false) due ->
  studyQueue (start st (Some f) now) =
    filter (fun c => (deckId c =? f)%Z) due
    ++ filter (fun c => negb (deckId c =? f)%Z) due /\
  StronglySorted (fun a b => (ps b <=? ps a) = true)
    (filter (fun c => (deckId c =? f)%Z) due) /\
  StronglySorted (fun a b => (ps b <=? ps a) = true)
    (filter (fun c => negb (deckId c =? f)%Z) due).
Proof.
  intros due Hne Hnan.
  assert (Hs : StronglySorted (fun a b => (ps b <=? ps a) = true) due)
    by (unfold due, getDueCards in *; now apply Array_sort_by_priority_strongly).
  split; [|split; now apply StronglySorted_filter].
  unfold startSession. fold due.
  destruct due; [congruence|reflexivity].
Qed.

(* ================================================================ *)
(** ** Cards that are always due *)
(* ================================================================ *)

Lemma cardStats_new' (card : Card) (fr now : num) :
  strict_eq (n card) 0 = true ->
  calculateCardStats Math_exp Math_log2 Math_log10 card fr now = sentinel.
Proof. intros H. unfold calculateCardStats. now rewrite H. Qed.

Lemma new_stage_due (allCards : list Card) (logs : option (list Log))
  (now : num) (c0 : Card) :
  In c0 allCards -> strict_eq (n c0) 0 = true ->
  In (withPriority Math_exp Math_log2 Math_log10 Date_getDate Date_setDate logs now c0)
     (dueCards allCards logs now) /\
  ps (withPriority Math_exp Math_log2 Math_log10 Date_getDate Date_setDate
      logs now c0) = 100.
Proof.
  intros Hin Hn.
  assert (Hps : ps (withPriority Math_exp Math_log2 Math_log10 Date_getDate Date_setDate
      logs now c0) = 100).
  { rewrite withPriority_ps, (cardStats_new' _ _ _ Hn). reflexivity. }
  split; [|assumption].
  apply getDueCards_In. exists c0. split; [assumption|]. split; [reflexivity|].
  unfold is_due. rewrite Hps.
  destruct (nextReviewAt _); [|reflexivity]. apply orb_true_r.
Qed.

(** X8: a stored card with [n = 0] is returned by [getDueCards] at any
    time with priority score 100, whatever its [nextReviewAt] is. *)
Theorem zero_repetitions_always_due (allCards : list Card)
  (logs : option (list Log)) (now : num) (c0 : Card) :
  In c0 allCards -> strict_eq (n c0) 0 = true ->
  exists c,
    In c (dueCards allCards logs now) /\
    id c = id c0 /\ nextReviewAt c = nextReviewAt c0 /\ ps c = 100.
Proof.
  intros Hin Hn.
  destruct (new_stage_due allCards logs now c0 Hin Hn) as (H1 & H2).
  exists (withPriority Math_exp Math_log2 Math_log10 Date_getDate Date_setDate
      logs now c0).
  split; [assumption|]. repeat split. assumption.
Qed.

(** X9: after a lapse (the grade button 1) the card is written with
    [n = 0], interval 1 and [nextReviewAt] one calendar day ahead (the value
    of [next.setDate(now.getDate() + 1)]), and its success count is left as
    it was; being at [n = 0], it is returned again by [getDueCards] at any
    time, before that day has passed. *)
Theorem lapsed_card_due_at_once (st st' : State) (now : num) (card : Card) :
  nth_error (studyQueue st) (currentCardIndex st) = Some card ->
  submit st 1 now = Some st' ->
  exists card',
    get (id card) (cards st') = Some card' /\
    n card' = 0 /\ I card' = 1 /\
    nextReviewAt card' = Some (Date_setDate now (Date_getDate now + 1)) /\
    totalSuccesses card' = totalSuccesses card /\
    forall now',
      exists c,
        In c (dueCards (cards st') (Some (logs st')) now') /\
        id c = id card /\
        nextReviewAt c = Some (Date_setDate now (Date_getDate now + 1)) /\
        ps c = 100.
Proof.
  intros Hc Hs. rewrite submitReview_unfold, Hc in Hs.
  destruct (review' _ _ _ _) as [[card' log]|] eqn:Hr; [|discriminate].
  injection Hs as <-.
  assert (Hcard : n card' = 0 /\ I card' = 1 /\
                  nextReviewAt card'
                  = Some (Date_setDate now (Date_getDate now + 1)) /\
                  totalSuccesses card' = totalSuccesses card /\
                  id card' = id card).
  { revert Hr. unfold review. destruct (valid_time _); [|discriminate].
    intros [= <- _]. cbn. repeat split. }
  destruct Hcard as (Hn & HI & Hnext & Htot & Hid).
  exists card'. cbn [cards logs].
  split; [now rewrite <- Hid, get_put, Z.eqb_refl|].
  repeat split; try assumption.
  intros now'.
  destruct (new_stage_due (put card' (cards st))
              (Some (logs st ++ [log])) now' card') as (H1 & H4).
  - apply In_put.
  - rewrite Hn. reflexivity.
  - exists (withPriority Math_exp Math_log2 Math_log10 Date_getDate Date_setDate
              (Some (logs st ++ [log])) now' card').
    split; [assumption|]. split; [assumption|]. split; assumption.
Qed.

End ReviewEffects.

(* ================================================================== *)
(** ** Deleting cards and decks *)
(* ================================================================== *)

Lemma splice1_length {A} (i : nat) (l : list A) :
  (i < length l)%nat -> length (splice1 i l) = pred (length l).
Proof.
  revert i. induction l as [|a l IH]; intros [|i]; simpl; try lia.
  intros H. rewrite IH by lia. destruct l; simpl in *; lia.
Qed.

Lemma splice1_nth_error {A} (i j : nat) (l : list A) :
  nth_error (splice1 i l) j =
  if (j <? i)%nat then nth_error l j else nth_error l (S j).
Proof.
  revert i j. induction l as [|a l IH]; intros i j.
  - destruct i, j; simpl; try reflexivity; now destruct (_ <? _)%nat.
  - destruct i as [|i], j as [|j]; simpl; try reflexivity.
    rewrite IH. reflexivity.
Qed.

(** X10: deleting the current card from the study view removes its record
    from the store and its slot from the queue, so that the following card
    moves into the current position and every later card moves up by one;
    the session ends when it was the last one; declining the confirmation
    changes nothing. *)
Theorem deleteCardFromStudy_effects (st : State) (k : Z) :
  deleteCardFromStudy st k false = st /\
  let st' := deleteCardFromStudy st k true in
  get k (cards st') = None /\
  (forall k', k' <> k -> get k' (cards st') = get k' (cards st)) /\
  logs st' = logs st /\
  currentCardIndex st' = currentCardIndex st /\
  (forall j, (j < currentCardIndex st)%nat ->
     nth_error (studyQueue st') j = nth_error (studyQueue st) j) /\
  (forall j, (currentCardIndex st <= j)%nat ->
     nth_error (studyQueue st') j = nth_error (studyQueue st) (S j)) /\
  renderCurrentStudyCard st' =
    match nth_error (studyQueue st) (S (currentCardIndex st)) with
    | Some next =>
        StudyCard next (pred (length (studyQueue st))) (currentCardIndex st)
    | None => EmptySession
    end.
Proof.
  split; [reflexivity|]. cbn [deleteCardFromStudy cards logs currentCardIndex studyQueue].
  split; [now rewrite get_del, Z.eqb_refl|].
  split.
  { intros k' Hk. rewrite get_del.
    destruct (k =? k')%Z eqn:E; [|reflexivity].
    apply Z.eqb_eq in E. congruence. }
  split; [reflexivity|]. split; [reflexivity|].
  split.
  { intros j Hj. rewrite splice1_nth_error.
    now rewrite (proj2 (Nat.ltb_lt _ _) Hj). }
  split.
  { intros j Hj. rewrite splice1_nth_error.
    now rewrite (proj2 (Nat.ltb_ge _ _) Hj). }
  unfold renderCurrentStudyCard. cbn [studyQueue currentCardIndex].
  rewrite splice1_nth_error, Nat.ltb_irrefl.
  destruct (nth_error (studyQueue st) (S (currentCardIndex st))) as [next|] eqn:E.
  - assert (Hlt : (S (currentCardIndex st) < length (studyQueue st))%nat)
      by (apply nth_error_Some; congruence).
    rewrite splice1_length by lia.
    now rewrite (proj2 (Nat.leb_gt _ _)) by lia.
  - now destruct (_ <=? _)%nat.
Qed.

Lemma fold_del (ds store : list Card) :
  fold_left (fun s c => del (id c) s) ds store =
  filter (fun x => negb (existsb (fun c => (id c =? id x)%Z) ds)) store.
Proof.
  revert store. induction ds as [|d ds IH]; intros store; simpl.
  - induction store as [|x store IHs]; simpl; congruence.
  - rewrite IH. unfold del. induction store as [|x store IHs]; simpl;
      [reflexivity|].
    rewrite (Z.eqb_sym (id d) (id x)).
    destruct (id x =? id d)%Z; simpl; [assumption|].
    destruct (existsb _ ds); simpl; congruence.
Qed.

Lemma keys_distinct_inj (store : list Card) (a b : Card) :
  keys_distinct store -> In a store -> In b store -> id a = id b -> a = b.
Proof.
  unfold keys_distinct. induction store as [|c store IH]; simpl; [tauto|].
  intros H Ha Hb E. inversion H as [|? ? Hn Hd]; subst.
  destruct Ha as [<-|Ha], Hb as [<-|Hb]; auto.
  - exfalso. apply Hn. rewrite E. now apply in_map.
  - exfalso. apply Hn. rewrite <- E. now apply in_map.
Qed.

(** X11: a confirmed [deleteDeck] removes the deck and leaves no card of
    that deck in the store; with distinct keys the cards of every other
    deck are exactly as before; declining changes nothing. *)
Theorem deleteDeck_effects (decks : list Deck) (store : list Card) (k : Z) :
  deleteDeck decks store k false = (decks, store) /\
  let decks' := fst (deleteDeck decks store k true) in
  let store' := snd (deleteDeck decks store k true) in
  (forall d, In d decks' <-> In d decks /\ deck_id d <> k) /\
  getCardsByDeck k store' = [] /\
  (forall c, In c store' -> In c store) /\
  (keys_distinct store ->
     store' = filter (fun c => negb (deckId c =? k)%Z) store /\
     forall d, d <> k -> getCardsByDeck d store' = getCardsByDeck d store).
Proof.
  split; [reflexivity|]. cbn [deleteDeck fst snd]. rewrite fold_del.
  split.
  { intros d. unfold del_deck. rewrite filter_In, negb_true_iff, Z.eqb_neq.
    tauto. }
  split.
  { unfold getCardsByDeck.
    match goal with |- ?l = [] => destruct l as [|c l'] eqn:E end;
      [reflexivity|].
    assert (Hc : In c (c :: l')) by now left.
    rewrite <- E in Hc. apply filter_In in Hc. destruct Hc as [Hc Hd].
    apply filter_In in Hc. destruct Hc as [Hc Hx].
    apply negb_true_iff in Hx.
    assert (existsb (fun c0 => (id c0 =? id c)%Z)
              (filter (fun c0 => (deckId c0 =? k)%Z) store) = true); [|congruence].
    apply existsb_exists. exists c. rewrite filter_In, Z.eqb_refl. tauto. }
  split.
  { intros c Hc. now apply filter_In in Hc. }
  intros Hk.
  assert (E : filter
                (fun x => negb (existsb (fun c => (id c =? id x)%Z)
                                  (getCardsByDeck k store))) store
              = filter (fun c => negb (deckId c =? k)%Z) store).
  { apply filter_ext_in. intros x Hx. f_equal.
    destruct (deckId x =? k)%Z eqn:D.
    - apply existsb_exists. exists x. unfold getCardsByDeck.
      rewrite filter_In, Z.eqb_refl. tauto.
    - apply not_true_is_false. intros H. apply existsb_exists in H.
      destruct H as (c & Hc & Hid). unfold getCardsByDeck in Hc.
      apply filter_In in Hc. destruct Hc as [Hc Hd]. apply Z.eqb_eq in Hid.
      rewrite (keys_distinct_inj store c x Hk Hc Hx Hid) in Hd. congruence. }
  rewrite E. split; [reflexivity|].
  intros d Hd. unfold getCardsByDeck.
  induction store as [|x store IH]; simpl; [reflexivity|].
  assert (Hk' : keys_distinct store) by (now inversion Hk).
  assert (E' : filter
                 (fun x0 => negb (existsb (fun c => (id c =? id x0)%Z)
                                    (getCardsByDeck k store))) store
               = filter (fun c => negb (deckId c =? k)%Z) store).
  { clear - Hk'. apply filter_ext_in. intros y Hy. f_equal.
    destruct (deckId y =? k)%Z eqn:D.
    - apply existsb_exists. exists y. unfold getCardsByDeck.
      rewrite filter_In, Z.eqb_refl. tauto.
    - apply not_true_is_false. intros H. apply existsb_exists in H.
      destruct H as (c & Hc & Hid). unfold getCardsByDeck in Hc.
      apply filter_In in Hc. destruct Hc as [Hc Hd]. apply Z.eqb_eq in Hid.
      rewrite (keys_distinct_inj store c y Hk' Hc Hy Hid) in Hd. congruence. }
  destruct (deckId x =? k)%Z eqn:D; simpl.
  - apply Z.eqb_eq in D. subst k.
    rewrite (proj2 (Z.eqb_neq _ _)) by congruence. now apply IH.
  - destruct (deckId x =? d)%Z; [f_equal|]; now apply IH.
Qed.

(* ================================================================== *)
(** ** The grade "good" and the ease factor *)
(* ================================================================== *)

Lemma add_zero_above (c x : num) s m e :
  Prim2SF c = S754_finite s m e -> s = false ->
  (c <=? x) = true -> x + 0 = x.
Proof.
  intros Hc -> H. apply Prim2SF_inj. rewrite add_spec.
  rewrite leb_spec, Hc in H. unfold SFleb in H.
  change (Prim2SF 0) with (S754_zero false).
  destruct (Prim2SF x) as [sx|sx| |sx mx ex]; simpl in *; try discriminate.
  - destruct sx; [discriminate|reflexivity].
  - reflexivity.
Qed.

(** X12: the grade "good" ([q = 4]) leaves the ease factor of a card exactly
    as it is, whatever the card's other fields, as long as the ease factor
    respects its floor of 1.3. *)
Theorem good_grade_keeps_ease_factor (card : Card) :
  (1.3 <=? EF card) = true ->
  sm2_EF (calculateSM2 card 4) = EF card /\
  sm2_n (calculateSM2 card 4) = n card + 1.
Proof.
  intros H. unfold calculateSM2, ease_update, ease_delta. cbn [sm2_EF sm2_n fst].
  change (0.1 - (5 - 4) * (0.08 + (5 - 4) * 0.02)) with 0.
  rewrite (add_zero_above 1.3 (EF card) _ _ _ Prim2SF_1_3 eq_refl H).
  rewrite (leb_ltb_false _ _ H). split; reflexivity.
Qed.

(* ================================================================== *)
(** ** The two versions of the scheduler *)
(* ================================================================== *)

Section Versions.

Variables Math_exp Math_log2 Math_log10 : num -> num.
Variable Date_getDate : num -> num.
Variable Date_setDate : num -> num -> num.

Local Abbreviation stats1 := (calculateCardStats Math_exp Math_log2 Math_log10).
Local Abbreviation stats2 :=
  (calculateCardStats_v2 Math_exp Math_log2 Math_log10).

Lemma retentionScore_v2 (card : Card) (fr now : num) :
  retentionScore (stats2 card fr now) = retentionScore (stats1 card fr now).
Proof.
  unfold calculateCardStats_v2, calculateCardStats.
  now destruct (strict_eq (n card) 0).
Qed.

(** X13: the two versions of [submitReview] in the file write the same
    card and the same log entry, and fail together, on every input: the
    guard [if (efNew < 1.3) efNew = 1.3] of the second is the
    [Math.max(.., 1.3)] of the first, NaN included, and the retention score
    does not depend on the memory-strength guard in which the two versions
    of [calculateCardStats] differ. *)
Theorem review_versions_agree (card : Card) (q : num) (us : UserStats) (now : num) :
  review_v2 Math_exp Math_log2 Math_log10 Date_getDate Date_setDate card q us now =
  review Math_exp Math_log2 Math_log10 Date_getDate Date_setDate card q us now.
Proof.
  unfold review_v2, review, finalEF, finalInterval, easeMultiplier,
    retentionMultiplier.
  rewrite retentionScore_v2, clamp_is_max. reflexivity.
Qed.

Lemma safeS_agree (S : num) :
  (0.1 <=? S) = true \/ (S <=? 0) = true ->
  (if gtb S 0 then S else 0.1) = Math_max S 0.1.
Proof.
  unfold gtb, Math_max. intros [H|H].
  - assert (H0 : (0 <? S) = true)
      by (apply ltb_leb_trans with 0.1; [reflexivity|assumption]).
    rewrite H0, (leb_not_nan_r _ _ H), (leb_ltb_false _ _ H). simpl.
    destruct (0.1 <? S) eqn:E; [reflexivity|].
    assert (S = 0.1).
    { apply (not_ltb_eq S 0.1 false 7205759403792794 (-56)); try reflexivity;
        try assumption.
      - now apply leb_not_nan_r in H.
      - now apply leb_ltb_false. }
    subst S. reflexivity.
  - rewrite (leb_ltb_false _ _ H), (leb_not_nan_l _ _ H). simpl.
    now rewrite (leb_ltb_trans S 0 0.1 H eq_refl).
Qed.

(** X14: the two versions of [calculateCardStats] return the same object
    for a card with [n = 0] and for every card whose product [I * EF] is at
    least 0.1 or at most 0, hence for every stored card with an interval
    that is zero or at least one day and an ease factor above its floor;
    the due queues of the two versions are then the same. *)
Theorem stats_versions_agree (allCards : list Card) (logs : option (list Log))
  (now : num) :
  (forall card, In card allCards ->
     strict_eq (n card) 0 = true \/
     (0.1 <=? I card * EF card) = true \/ (I card * EF card <=? 0) = true) ->
  (forall card fr, In card allCards -> stats2 card fr now = stats1 card fr now) /\
  getDueCards_v2 Math_exp Math_log2 Math_log10 Date_getDate Date_setDate
      allCards logs now =
  getDueCards Math_exp Math_log2 Math_log10 Date_getDate Date_setDate allCards logs now.
Proof.
  intros H.
  assert (E : forall card fr, In card allCards ->
                stats2 card fr now = stats1 card fr now).
  { intros card fr Hin. unfold calculateCardStats_v2, calculateCardStats.
    destruct (strict_eq (n card) 0) eqn:Hn; [reflexivity|].
    destruct (H card Hin) as [H0|H0]; [congruence|].
    cbv zeta. pose proof (safeS_agree _ H0) as E. unfold num in E.
    rewrite E. reflexivity. }
  split; [exact E|].
  unfold getDueCards_v2, getDueCards. cbv zeta.
  rewrite (map_ext_in _ (fun c => spread c
             (stats1 c (forgetRate (getUserStats Date_getDate Date_setDate
                 logs now)) now)) allCards);
    [reflexivity|].
  intros card Hin. now rewrite E.
Qed.

(** The versions part on a product strictly between 0 and 0.1. *)
Example stats_versions_differ :
  retentionProbability
    (calculateCardStats_v2 (fun x => x) (fun x => x) (fun x => x)
       (mkCard 1 1 1 0.05 1.3 None (Some 1.69e12) None no_stats) 0 1.7e12)
  <> retentionProbability
       (calculateCardStats (fun x => x) (fun x => x) (fun x => x)
          (mkCard 1 1 1 0.05 1.3 None (Some 1.69e12) None no_stats) 0 1.7e12).
Proof. vm_compute. intros [= H]. Qed.

End Versions.

(* ================================================================== *)
(** ** The forgetting rate at its ends *)
(* ================================================================== *)

Module Ends.

Import Rounding Canonical Quotient.
Local Open Scope Z_scope.

Lemma SFdiv_counts_pos (k n : Z) :
  0 < k <= n -> n < 2 ^ 53 ->
  SFltb (S754_zero false)
    (SFdiv prec emax (binary_normalize prec emax k 0 false)
                     (binary_normalize prec emax n 0 false)) = true.
Proof.
  intros Hk Hn.
  destruct n as [|n|n]; try lia. destruct k as [|k|k]; try lia.
  cbn [binary_normalize].
  destruct (binary_round_small n ltac:(lia)) as (M2 & E2 & -> & D2 & HE2 & B2 & V2).
  destruct (binary_round_small k ltac:(lia)) as (M1 & E1 & -> & D1 & HE1 & B1 & V1).
  pose proof (digits2_mono k n ltac:(lia)) as Dm.
  destruct (SFdiv_le_one M1 M2 E1 E2 D1 D2) as (mf & ef & -> & _);
    try lia; [|reflexivity].
  rewrite V1, V2.
  replace (- E1) with ((- E2) + (E2 - E1)) by lia.
  rewrite Z.pow_add_r by lia.
  assert (0 < 2 ^ (- E2)) by (apply Z.pow_pos_nonneg; lia).
  assert (0 < 2 ^ (E2 - E1)) by (apply Z.pow_pos_nonneg; lia).
  nia.
Qed.

Lemma div_eucl_mul (a b : Z) : 0 < b -> Z.div_eucl (a * b) b = (a, 0).
Proof.
  intros Hb. pose proof (Z.div_mul a b ltac:(lia)) as Hq.
  pose proof (Z.mod_mul a b ltac:(lia)) as Hr.
  unfold Z.div, Z.modulo in *.
  destruct (Z.div_eucl (a * b) b) as [q r]. simpl in *. congruence.
Qed.

(** A normal number divided by itself is 1. *)
Lemma SFdiv_self (M : positive) (E : Z) :
  Zpos (digits2_pos M) = 53 ->
  SFdiv prec emax (S754_finite false M E) (S754_finite false M E)
    = S754_finite false 4503599627370496 (-52).
Proof.
  intros D. cbn [SFdiv xorb]. unfold SFdiv_core_binary. cbn [Zdigits2].
  rewrite D.
  replace (53 + E - (53 + E)) with 0 by lia.
  replace (E - E) with 0 by lia.
  change (Z.min (fexp prec emax 0) 0) with (-53).
  change (0 - -53) with 53.
  rewrite Z.shiftl_mul_pow2 by lia.
  rewrite (Z.mul_comm (Zpos M)), div_eucl_mul by lia.
  rewrite new_location_exact. reflexivity.
Qed.

Lemma SFdiv_counts_same (k : Z) :
  0 < k < 2 ^ 53 ->
  SFdiv prec emax (binary_normalize prec emax k 0 false)
                  (binary_normalize prec emax k 0 false)
    = S754_finite false 4503599627370496 (-52).
Proof.
  intros Hk. destruct k as [|k|k]; try lia. cbn [binary_normalize].
  destruct (binary_round_small k ltac:(lia)) as (M & E & -> & D & _).
  now apply SFdiv_self.
Qed.

End Ends.

Lemma ratio_zero (n : nat) :
  (0 < n)%nat -> (Z.of_nat n < 2 ^ 53)%Z -> of_nat 0 / of_nat n = 0.
Proof.
  intros Hn Hb. apply Prim2SF_inj.
  rewrite div_spec, !Prim2SF_of_nat by (simpl; lia).
  destruct (Z.of_nat n) as [|p|p] eqn:E; try lia.
  cbn [binary_normalize Z.of_nat].
  destruct (Quotient.binary_round_small p ltac:(lia)) as (M & E' & -> & _).
  reflexivity.
Qed.

Lemma ratio_pos (k n : nat) :
  (0 < k <= n)%nat -> (Z.of_nat n < 2 ^ 53)%Z -> (0 <? of_nat k / of_nat n) = true.
Proof.
  intros Hk Hb. rewrite ltb_spec, div_spec, !Prim2SF_of_nat by lia.
  apply Ends.SFdiv_counts_pos; lia.
Qed.

Lemma ratio_one (n : nat) :
  (0 < n)%nat -> (Z.of_nat n < 2 ^ 53)%Z -> of_nat n / of_nat n = 1.
Proof.
  intros Hn Hb. apply Prim2SF_inj.
  rewrite div_spec, !Prim2SF_of_nat by lia.
  rewrite Ends.SFdiv_counts_same by lia. reflexivity.
Qed.

Section RateEnds.

Variable Date_getDate : num -> num.
Variable Date_setDate : num -> num -> num.

(** X15: over a non-empty window the forgetting rate is exactly 0 when no
    counted review is a lapse and strictly positive as soon as one is; it
    is exactly 1 when every counted review is a lapse.  So [submitReview]
    multiplies the ease factor by 1.1 when there is no lapse in the window
    (or nothing in it) and by 0.9 when there are only lapses. *)
Theorem forgetting_rate_ends (logs : option (list Log)) (now : num) :
  (Z.of_nat (length (window Date_getDate Date_setDate logs now)) < 2 ^ 32)%Z ->
  (filter lapse (window Date_getDate Date_setDate logs now) = [] ->
     forgetRate (getUserStats Date_getDate Date_setDate logs now) = 0 /\
     easeMultiplier (getUserStats Date_getDate Date_setDate logs now) = 1.1) /\
  (filter lapse (window Date_getDate Date_setDate logs now) <> [] ->
     (0 <? forgetRate (getUserStats Date_getDate Date_setDate logs now)) = true) /\
  (window Date_getDate Date_setDate logs now <> [] ->
   filter lapse (window Date_getDate Date_setDate
       logs now) = window Date_getDate Date_setDate logs now ->
     forgetRate (getUserStats Date_getDate Date_setDate logs now) = 1 /\
     easeMultiplier (getUserStats Date_getDate Date_setDate logs now) = 0.9).
Proof.
  intros Hb. rewrite getUserStats_window.
  assert (Hb' : (Z.of_nat (length (window Date_getDate Date_setDate
      logs now)) < 2 ^ 53)%Z)
    by (eapply Z.lt_trans; [exact Hb|reflexivity]).
  destruct (window Date_getDate Date_setDate logs now) as [|l w] eqn:E.
  - split; [intros _; split; reflexivity|].
    split; [intros H; now contradiction H|]. intros H. congruence.
  - cbn [forgetRate]. split; [|split].
    + intros ->. unfold easeMultiplier. cbn [forgetRate length].
      rewrite ratio_zero by (simpl in *; lia). split; reflexivity.
    + intros Hne. apply ratio_pos; [|assumption].
      split; [|apply filter_length_le].
      destruct (filter lapse (l :: w)); [congruence|simpl; lia].
    + intros _ ->. unfold easeMultiplier. cbn [forgetRate].
      rewrite ratio_one by (simpl in *; lia). split; reflexivity.
Qed.

End RateEnds.

(* ================================================================== *)
(** ** getDueCards neither invents nor repeats cards *)
(* ================================================================== *)

Section DueKeys.

Variables Math_exp Math_log2 Math_log10 : num -> num.
Variable Date_getDate : num -> num.
Variable Date_setDate : num -> num -> num.

Local Abbreviation dueCards := (getDueCards Math_exp Math_log2 Math_log10 Date_getDate Date_setDate).

Lemma keys_distinct_filter (keep : Card -> bool) (store : list Card) :
  keys_distinct store -> keys_distinct (filter keep store).
Proof.
  unfold keys_distinct. induction store as [|c store IH]; simpl; intros H.
  - constructor.
  - apply NoDup_cons_iff in H. destruct H as [Hn Hd].
    destruct (keep c); simpl; [|now apply IH].
    constructor; [|now apply IH].
    rewrite in_map_iff. intros (x & E & Hx). apply filter_In in Hx.
    apply Hn. rewrite <- E. apply in_map. tauto.
Qed.

(** X16: [getDueCards] returns each stored card at most once and nothing
    else: the keys of the result are keys of the store, they are distinct
    when the keys of the store are, and the scheduling fields of a returned
    card are those of the stored card. *)
Theorem getDueCards_keys (allCards : list Card) (logs : option (list Log))
  (now : num) :
  (forall c, In c (dueCards allCards logs now) ->
     exists c0, In c0 allCards /\
       id c = id c0 /\ deckId c = deckId c0 /\ n c = n c0 /\ I c = I c0 /\
       EF c = EF c0 /\ nextReviewAt c = nextReviewAt c0 /\
       lastReviewAt c = lastReviewAt c0 /\
       totalSuccesses c = totalSuccesses c0) /\
  (keys_distinct allCards -> keys_distinct (dueCards allCards logs now)) /\
  (length (dueCards allCards logs now) <= length allCards)%nat.
Proof.
  split; [|split].
  - intros c Hc. apply getDueCards_In in Hc.
    destruct Hc as (c0 & Hin & -> & _). exists c0. repeat split. assumption.
  - unfold keys_distinct, getDueCards. intros H.
    eapply Permutation_NoDup.
    + apply Permutation_map, Array_sort_perm.
    + apply keys_distinct_filter. unfold keys_distinct. now rewrite map_map.
  - unfold getDueCards.
    rewrite <- (Permutation_length (Array_sort_perm by_priority _)).
    etransitivity; [apply filter_length_le|]. now rewrite length_map.
Qed.

End DueKeys.

(* ================================================================== *)
(** ** Products of normal numbers *)
(* ================================================================== *)

Module Products.

Import Rounding Canonical Quotient.
Local Open Scope Z_scope.

(** Shifting out a zero bit keeps a record exact. *)
Lemma shr_1_even (mrs : shr_record) (c : Z) :
  shr_m mrs = c * 2 -> 0 <= c -> loc_of_shr_record mrs = loc_Exact ->
  loc_of_shr_record (shr_1 mrs) = loc_Exact /\ shr_m (shr_1 mrs) = c.
Proof.
  destruct mrs as [m [] []]; simpl; intros Hm Hc Hl; try discriminate.
  destruct m as [|[p|p|]|p]; simpl; split; try reflexivity; lia.
Qed.

Lemma iter_shr_1_even (p : positive) :
  forall (mrs : shr_record) (c : Z),
    shr_m mrs = c * 2 ^ Zpos p -> 0 <= c ->
    loc_of_shr_record mrs = loc_Exact ->
    loc_of_shr_record (iter_pos shr_1 p mrs) = loc_Exact /\
    shr_m (iter_pos shr_1 p mrs) = c.
Proof.
  induction p as [p IH|p IH|]; intros mrs c Hm Hc Hl; simpl iter_pos.
  - assert (P : 0 < 2 ^ Zpos p) by (apply Z.pow_pos_nonneg; lia).
    destruct (shr_1_even mrs (c * 2 ^ Zpos p * 2 ^ Zpos p)) as [L1 M1];
      try assumption; try nia.
    { rewrite Hm. replace (Zpos p~1) with (Zpos p + Zpos p + 1) by lia.
      rewrite !Z.pow_add_r, Z.pow_1_r by lia. ring. }
    destruct (IH _ (c * 2 ^ Zpos p) M1 ltac:(nia) L1) as [L2 M2].
    exact (IH _ c M2 Hc L2).
  - assert (P : 0 < 2 ^ Zpos p) by (apply Z.pow_pos_nonneg; lia).
    destruct (IH mrs (c * 2 ^ Zpos p)) as [L2 M2]; try assumption; try nia.
    { rewrite Hm. replace (Zpos p~0) with (Zpos p + Zpos p) by lia.
      rewrite !Z.pow_add_r by lia. ring. }
    exact (IH _ c M2 Hc L2).
  - apply shr_1_even; assumption.
Qed.

(** The first shift of rounding, on a mantissa of more than 53 digits. *)
Lemma shr_fexp_long (p : positive) (e s : Z) :
  s = Zpos (digits2_pos p) - 53 -> 0 < s -> emin <= e + s ->
  exists mrs,
    shr_fexp prec emax (Zpos p) e loc_Exact = (mrs, e + s) /\
    shr_m mrs = Zpos p / 2 ^ s /\
    (forall c, Zpos p = c * 2 ^ s -> loc_of_shr_record mrs = loc_Exact).
Proof.
  intros Hs Hpos He. unfold shr_fexp. cbn [Zdigits2].
  replace (fexp prec emax (Zpos (digits2_pos p) + e) - e) with s
    by (unfold fexp, prec, emin, SpecFloat.emin in *; lia).
  destruct s as [|k|k]; try lia. cbn [shr].
  eexists. split; [reflexivity|]. split.
  - rewrite iter_shr_1_div by (simpl; lia). reflexivity.
  - intros c Hc.
    assert (0 <= c).
    { assert (0 < 2 ^ Zpos k) by (apply Z.pow_pos_nonneg; lia). nia. }
    now apply (iter_shr_1_even k _ c).
Qed.

(** Rounding an exact mantissa of more than 53 digits: the result is the
    quotient by the shifted-out power of two or its successor, and the
    successor only when the division is not exact, so that the result stays
    on the same side of every multiple of that power as the mantissa. *)
Lemma binary_round_aux_long (sgn : bool) (p : positive) (e s : Z) :
  s = Zpos (digits2_pos p) - 53 -> 0 < s -> emin <= e + s ->
  exists (m2 mf : positive) (ef : Z),
    binary_round_aux prec emax sgn (Zpos p) e loc_Exact =
      (if ef <=? emax - prec then S754_finite sgn mf ef
       else S754_infinity sgn) /\
    2 ^ 52 <= Zpos mf < 2 ^ 53 /\ e + s <= ef <= e + s + 1 /\
    Zpos mf * 2 ^ (ef - (e + s)) = Zpos m2 /\
    (forall N, Zpos p <= N * 2 ^ s -> Zpos m2 <= N) /\
    (forall N, N * 2 ^ s <= Zpos p -> N <= Zpos m2).
Proof.
  intros Hs Hpos He.
  destruct (shr_fexp_long p e s Hs Hpos He) as (mrs & E1 & Hm & Hx).
  pose proof (digits2_lt p) as A. pose proof (digits2_le p) as B.
  replace (Zpos (digits2_pos p)) with (53 + s) in A, B by lia.
  rewrite Z.pow_add_r in A, B by lia.
  assert (P : 0 < 2 ^ s) by (apply Z.pow_pos_nonneg; lia).
  pose proof (Z.div_mod (Zpos p) (2 ^ s) ltac:(lia)) as Hd.
  pose proof (Z.mod_pos_bound (Zpos p) (2 ^ s) P) as Hr.
  set (m1 := Zpos p / 2 ^ s) in *. set (r := Zpos p mod 2 ^ s) in *.
  pow_consts.
  assert (M1 : 4503599627370496 <= m1 < 9007199254740992) by nia.
  unfold binary_round_aux. rewrite E1, Hm.
  assert (R : exists m2 : positive,
             round_nearest_even m1 (loc_of_shr_record mrs) = Zpos m2 /\
             m1 <= Zpos m2 <= m1 + 1 /\
             (Zpos m2 = m1 + 1 -> r <> 0)).
  { destruct (round_nearest_even_cases m1 (loc_of_shr_record mrs))
      as [R|[R Hl]]; rewrite R.
    - destruct m1 as [|m1'|m1'] eqn:Em; try lia.
      exists m1'. split; [reflexivity|]. split; lia.
    - destruct (m1 + 1) as [|m2|m2] eqn:Em; try lia.
      exists m2. split; [reflexivity|]. split; [lia|].
      intros _ Hr0. apply Hl. apply (Hx m1). rewrite Hd, Hr0. ring. }
  destruct R as (m2 & -> & Hm2 & Hup).
  destruct (shr_fexp_last m2 (e + s)) as (mf & ef & -> & Hmf & Hef & Hv);
    try (pow_consts; lia).
  exists m2, mf, ef. cbn [shr_m].
  split; [reflexivity|]. split; [pow_consts; lia|]. split; [lia|].
  split; [assumption|]. split.
  - intros N HN.
    destruct (Z.eq_dec (Zpos m2) (m1 + 1)) as [E|E]; [|nia].
    specialize (Hup E). nia.
  - intros N HN. nia.
Qed.

(** A product of two 53-digit mantissas has 105 or 106 digits. *)
Lemma digits2_product (mx my : positive) :
  Zpos (digits2_pos mx) = 53 -> Zpos (digits2_pos my) = 53 ->
  52 <= Zpos (digits2_pos (mx * my)) - 53 <= 53.
Proof.
  intros Dx Dy.
  pose proof (digits2_lt mx) as A1. pose proof (digits2_le mx) as B1.
  pose proof (digits2_lt my) as A2. pose proof (digits2_le my) as B2.
  rewrite Dx in A1, B1. rewrite Dy in A2, B2.
  pose proof (digits2_lt (mx * my)) as A. pose proof (digits2_le (mx * my)) as B.
  rewrite Pos2Z.inj_mul in A, B.
  set (d := Zpos (digits2_pos (mx * my))) in *.
  pow_consts.
  assert (L : 2 ^ 104 < 2 ^ d).
  { eapply Z.le_lt_trans; [|exact A].
    change (2 ^ 104) with (4503599627370496 * 4503599627370496). nia. }
  assert (U : 2 ^ d < 2 ^ 107).
  { eapply Z.le_lt_trans; [exact B|].
    change (2 ^ 107) with (2 * (9007199254740992 * 9007199254740992)). nia. }
  apply Z.pow_lt_mono_r_iff in L; [|lia|unfold d; lia].
  apply Z.pow_lt_mono_r_iff in U; [|lia|lia].
  lia.
Qed.

(** Comparison of two positive normal numbers. *)
Lemma SFleb_pos_intro (mc mf : positive) (ec ef : Z) :
  ec < ef \/ (ec = ef /\ Zpos mc <= Zpos mf) ->
  SFleb (S754_finite false mc ec) (S754_finite false mf ef) = true.
Proof.
  unfold SFleb, SFcompare. intros [H|[-> H]].
  - now rewrite (proj2 (Z.compare_lt_iff _ _) H).
  - rewrite Z.compare_refl. fold (Pos.compare mc mf).
    destruct (Pos.compare_spec mc mf); try reflexivity. lia.
Qed.

Lemma SFleb_pos_inv (ma : positive) (ea : Z) (x : spec_float) :
  SFleb (S754_finite false ma ea) x = true ->
  x = S754_infinity false \/
  exists mx ex, x = S754_finite false mx ex /\
    (ea < ex \/ (ea = ex /\ Zpos ma <= Zpos mx)).
Proof.
  unfold SFleb, SFcompare.
  destruct x as [s|[]| |[] mx ex]; try discriminate; auto.
  intros H. right. exists mx, ex. split; [reflexivity|].
  destruct (Z.compare_spec ea ex) as [E|E|E]; try discriminate; auto.
  right. split; [assumption|]. fold (Pos.compare ma mx) in H.
  destruct (Pos.compare_spec ma mx); try discriminate; lia.
Qed.

(** A product of two positive normal numbers is not below a normal number
    that their exact product is not below. *)
Lemma SFmul_lower (mx my mc : positive) (ex ey ec : Z) :
  Zpos (digits2_pos mx) = 53 -> Zpos (digits2_pos my) = 53 ->
  Zpos (digits2_pos mc) = 53 ->
  emin - 52 <= ex + ey ->
  (ex + ey <= ec -> Zpos mc * 2 ^ (ec - (ex + ey)) <= Zpos mx * Zpos my) ->
  SFleb (S754_finite false mc ec)
        (SFmul prec emax (S754_finite false mx ex) (S754_finite false my ey))
    = true.
Proof.
  intros Dx Dy Dc He Hv.
  pose proof (digits2_product mx my Dx Dy) as Hs.
  set (s := Zpos (digits2_pos (mx * my)) - 53) in *.
  cbn [SFmul xorb].
  destruct (binary_round_aux_long false (mx * my) (ex + ey) s eq_refl)
    as (m2 & mf & ef & -> & Hmf & Hef & Hm2 & _ & Hlow);
    try (unfold emin, SpecFloat.emin in *; lia).
  destruct (ef <=? emax - prec); [|reflexivity].
  apply SFleb_pos_intro.
  pose proof (digits2_lt mc) as A. pose proof (digits2_le mc) as B.
  rewrite Dc in A, B. pow_consts.
  destruct (Z.lt_ge_cases ec (ex + ey + s)) as [C|C]; [left; lia|].
  specialize (Hv ltac:(lia)).
  assert (P : 0 < 2 ^ s) by (apply Z.pow_pos_nonneg; lia).
  assert (HN : Zpos mc * 2 ^ (ec - (ex + ey + s)) <= Zpos m2).
  { apply Hlow. rewrite Pos2Z.inj_mul, <- Z.mul_assoc, <- Z.pow_add_r by lia.
    replace (ec - (ex + ey + s) + s) with (ec - (ex + ey)) by lia.
    assumption. }
  rewrite <- Hm2 in HN.
  destruct (Z.lt_trichotomy ec ef) as [T|[T|T]]; [left; assumption| |exfalso].
  - right. split; [assumption|]. subst ef.
    assert (0 < 2 ^ (ec - (ex + ey + s))) by (apply Z.pow_pos_nonneg; lia).
    nia.
  - replace (ec - (ex + ey + s)) with ((ec - ef) + (ef - (ex + ey + s))) in HN
      by lia.
    rewrite Z.pow_add_r in HN by lia.
    assert (0 < 2 ^ (ef - (ex + ey + s))) by (apply Z.pow_pos_nonneg; lia).
    assert (X : 2 ^ 1 <= 2 ^ (ec - ef)) by (apply Z.pow_le_mono_r; lia).
    rewrite Z.pow_1_r in X.
    assert (Zpos mc * 2 ^ (ec - ef) <= Zpos mf).
    { apply (Z.mul_le_mono_pos_r _ _ (2 ^ (ef - (ex + ey + s)))); [assumption|].
      rewrite <- Z.mul_assoc. exact HN. }
    nia.
Qed.

End Products.

Lemma mul_lower (a b c x y : float) (ma mb mc : positive) (ea eb ec : Z) :
  Prim2SF a = S754_finite false ma ea ->
  Prim2SF b = S754_finite false mb eb ->
  Prim2SF c = S754_finite false mc ec ->
  (emin < ea)%Z -> (emin < eb)%Z -> (emin < ec)%Z ->
  (emin - 52 <= ea + eb)%Z -> (ea + eb <= ec)%Z ->
  (Zpos mc * 2 ^ (ec - (ea + eb)) <= Zpos ma * Zpos mb)%Z ->
  (a <=? x) = true -> (b <=? y) = true -> (c <=? x * y) = true.
Proof.
  intros Ha Hb Hc La Lb Lc Lab Labc Hv Hx Hy.
  rewrite leb_spec in *. rewrite mul_spec. unfold SF64mul.
  rewrite Ha in Hx. rewrite Hb in Hy. rewrite Hc.
  pose proof (Prim2SF_valid x) as Vx. pose proof (Prim2SF_valid y) as Vy.
  pose proof (Prim2SF_valid c) as Vc. rewrite Hc in Vc.
  destruct (Products.SFleb_pos_inv _ _ _ Hx) as [Ex|(mx & ex & Ex & Cx)];
    destruct (Products.SFleb_pos_inv _ _ _ Hy) as [Ey|(my & ey & Ey & Cy)];
    rewrite Ex, Ey in *; try reflexivity.
  cbn [valid_binary] in Vx, Vy, Vc.
  pose proof (Canonical.bounded_normal _ _ Vx ltac:(lia)) as Dx.
  pose proof (Canonical.bounded_normal _ _ Vy ltac:(lia)) as Dy.
  pose proof (Canonical.bounded_normal _ _ Vc Lc) as Dc.
  assert (Va : bounded prec emax ma ea = true)
    by (pose proof (Prim2SF_valid a) as V; now rewrite Ha in V).
  assert (Vb : bounded prec emax mb eb = true)
    by (pose proof (Prim2SF_valid b) as V; now rewrite Hb in V).
  pose proof (Canonical.bounded_normal _ _ Va La) as Da.
  pose proof (Canonical.bounded_normal _ _ Vb Lb) as Db.
  apply Products.SFmul_lower; try assumption; [lia|].
  intros Hle.
  pose proof (Canonical.digits2_lt ma) as A1.
  pose proof (Canonical.digits2_le mx) as B1.
  pose proof (Canonical.digits2_lt mb) as A2.
  pose proof (Canonical.digits2_le my) as B2.
  rewrite Da in A1. rewrite Dx in B1. rewrite Db in A2. rewrite Dy in B2.
  unfold prec in *.
  assert (X : (0 < 2 ^ (ex - ea))%Z) by (apply Z.pow_pos_nonneg; lia).
  assert (Y : (0 < 2 ^ (ey - eb))%Z) by (apply Z.pow_pos_nonneg; lia).
  assert (Ax : (Zpos ma <= Zpos mx * 2 ^ (ex - ea))%Z).
  { destruct Cx as [Cx|[-> Cx]].
    - assert (2 ^ 1 <= 2 ^ (ex - ea))%Z by (apply Z.pow_le_mono_r; lia).
      rewrite Z.pow_1_r in *. nia.
    - rewrite Z.sub_diag, Z.pow_0_r. lia. }
  assert (Ay : (Zpos mb <= Zpos my * 2 ^ (ey - eb))%Z).
  { destruct Cy as [Cy|[-> Cy]].
    - assert (2 ^ 1 <= 2 ^ (ey - eb))%Z by (apply Z.pow_le_mono_r; lia).
      rewrite Z.pow_1_r in *. nia.
    - rewrite Z.sub_diag, Z.pow_0_r. lia. }
  assert (ea <= ex /\ eb <= ey)%Z as [Lx Ly] by lia.
  apply (Z.mul_le_mono_pos_r _ _ (2 ^ (ex - ea) * 2 ^ (ey - eb))%Z); [nia|].
  replace (Zpos mc * 2 ^ (ec - (ex + ey)) * (2 ^ (ex - ea) * 2 ^ (ey - eb)))%Z
    with (Zpos mc * 2 ^ (ec - (ea + eb)))%Z.
  2:{ rewrite <- Z.mul_assoc, <- !Z.pow_add_r by lia. do 2 f_equal. lia. }
  eapply Z.le_trans; [exact Hv|]. nia.
Qed.

Lemma mul_interval_ease (x y : float) :
  (1 <=? x) = true -> (1.3 <=? y) = true -> (1.3 <=? x * y) = true.
Proof.
  apply (mul_lower 1 1.3 1.3 x y 4503599627370496 5854679515581645
           5854679515581645 (-52) (-52) (-52)); try reflexivity;
    vm_compute; discriminate.
Qed.

Lemma mul_retention (z r : float) :
  (1.3 <=? z) = true -> (0.8 <=? r) = true -> (1 <=? z * r) = true.
Proof.
  apply (mul_lower 1.3 0.8 1 z r 5854679515581645 7205759403792794
           4503599627370496 (-52) (-53) (-52)); try reflexivity;
    vm_compute; discriminate.
Qed.

Lemma Math_round_lower (w : float) :
  (1 <=? w) = true -> (1 <=? Math_round w) = true.
Proof.
  intros H. rewrite leb_spec in *. unfold Math_round.
  change (Prim2SF 1) with (S754_finite false 4503599627370496 (-52)) in *.
  pose proof (Prim2SF_valid w) as V.
  destruct (Products.SFleb_pos_inv _ _ _ H) as [E|(m & e & E & C)];
    rewrite E in *.
  - reflexivity.
  - cbn [SFround valid_binary] in *.
    destruct (0 <=? e)%Z eqn:He.
    + apply Z.leb_le in He. rewrite Prim2SF_SF2Prim by assumption.
      apply Products.SFleb_pos_intro. left. lia.
    + apply Z.leb_gt in He. cbn [cond_Zopp].
      pose proof (Canonical.bounded_normal _ _ V
                    ltac:(unfold emin, SpecFloat.emin, emax, prec; lia)) as D.
      pose proof (Canonical.digits2_lt m) as A.
      pose proof (Canonical.digits2_le m) as B.
      rewrite D in A, B. unfold prec in A, B.
      rewrite Z.shiftr_div_pow2 by lia.
      assert (P : (0 < 2 ^ (- e))%Z) by (apply Z.pow_pos_nonneg; lia).
      assert (P2 : (2 ^ (- e + 1) = 2 * 2 ^ (- e))%Z)
        by (rewrite Z.pow_add_r, Z.pow_1_r by lia; ring).
      assert (P3 : (2 ^ (- e) <= 2 ^ 52)%Z) by (apply Z.pow_le_mono_r; lia).
      assert (P4 : (2 ^ 1 <= 2 ^ (- e))%Z) by (apply Z.pow_le_mono_r; lia).
      rewrite Z.pow_1_r in P4.
      change (2 ^ 52)%Z with 4503599627370496%Z in *.
      change (2 ^ 53)%Z with 9007199254740992%Z in *.
      assert (K1 : (1 <= (2 * Zpos m + 2 ^ (- e)) / 2 ^ (- e + 1))%Z).
      { apply Z.div_le_lower_bound; lia. }
      assert (K2 : ((2 * Zpos m + 2 ^ (- e)) / 2 ^ (- e + 1)
                    < 9007199254740992)%Z).
      { apply Z.div_lt_upper_bound; [lia|]. nia. }
      destruct ((2 * Zpos m + 2 ^ (- e)) / 2 ^ (- e + 1))%Z as [|k|k] eqn:Ek;
        try lia.
      cbn [Z.eqb binary_normalize].
      destruct (Quotient.binary_round_small k K2)
        as (M & E' & -> & DM & HE & BE & VM).
      assert (Vr : valid_binary (S754_finite false M E') = true).
      { cbn [valid_binary]. unfold bounded, canonical_mantissa.
        rewrite DM. apply andb_true_intro. split.
        - apply Z.eqb_eq. unfold fexp, prec, emin, SpecFloat.emin, emax. lia.
        - apply Z.leb_le. unfold emax, prec. lia. }
      rewrite Prim2SF_SF2Prim by assumption.
      apply Products.SFleb_pos_intro.
      pose proof (Canonical.digits2_le M) as BM. rewrite DM in BM.
      change (2 ^ 53)%Z with 9007199254740992%Z in BM. lia.
Qed.

Lemma strict_eq_zero_succ (x : float) : strict_eq x 0 = true -> x + 1 = 1.
Proof.
  unfold strict_eq. rewrite eqb_spec. intros H.
  apply Prim2SF_inj. rewrite add_spec.
  change (Prim2SF 0) with (S754_zero false) in H.
  destruct (Prim2SF x) as [[]|[]| |[] m e]; try discriminate; reflexivity.
Qed.

Lemma Forall_set_nth {A} (P : A -> Prop) (i : nat) (v : A) (l : list A) :
  P v -> Forall P l -> Forall P (set_nth i v l).
Proof.
  intros Hv H. revert i. induction H as [|x l Hx Hl IH]; intros [|i]; simpl;
    constructor; auto.
Qed.

Lemma Forall_put (P : Card -> Prop) (card : Card) (store : list Card) :
  P card -> Forall P store -> Forall P (put card store).
Proof.
  intros Hc H. induction H as [|x l Hx Hl IH]; simpl.
  - repeat constructor. assumption.
  - destruct (id x =? id card)%Z; constructor; assumption.
Qed.

(* ================================================================== *)
(** ** The interval never drops below one day *)
(* ================================================================== *)

Section Schedulable.

Variables Math_exp Math_log2 Math_log10 : num -> num.
Variable Date_getDate : num -> num.
Variable Date_setDate : num -> num -> num.

Local Abbreviation review' := (review Math_exp Math_log2 Math_log10 Date_getDate Date_setDate).
Local Abbreviation submit := (submitReview Math_exp Math_log2 Math_log10 Date_getDate Date_setDate).
Local Abbreviation run := (reviews Math_exp Math_log2 Math_log10 Date_getDate Date_setDate).

Lemma retentionMultiplier_ge (cs : CardStats) :
  (0.8 <=? retentionMultiplier cs) = true.
Proof.
  unfold retentionMultiplier. cbv zeta.
  destruct (_ <? _); [reflexivity|]. destruct (gtb _ _); reflexivity.
Qed.

Lemma review_schedulable (card : Card) (q : num) (us : UserStats) (now : num)
  card' log :
  In q [1; 3; 4; 5] -> schedulable card ->
  review' card q us now = Some (card', log) ->
  (1 <=? I card') = true /\ (1.3 <=? EF card') = true.
Proof.
  intros Hq [HEF HnI] Hr.
  destruct (review_inv _ _ _ _ _ _ _ _ _ _ _ Hr) as (_ & -> & -> & _).
  assert (Hef : (1.3 <=? efNew_of card q us) = true).
  { unfold efNew_of. apply finalEF_ge; [|apply easeMultiplier_cases].
    apply sm2_EF_ge, ease_update_not_nan.
    - now apply leb_not_nan_r in HEF.
    - simpl in *. tauto. }
  split; [|assumption].
  unfold iNew_of, finalInterval.
  set (rMult := retentionMultiplier _).
  assert (Hrm : (0.8 <=? rMult) = true) by apply retentionMultiplier_ge.
  assert (Hn : sm2_n (calculateSM2 card q)
               = if q <? 3 then 0 else n card + 1)
    by (unfold calculateSM2; cbn [sm2_n]; now destruct (q <? 3)).
  assert (HI : sm2_I (calculateSM2 card q)
               = if q <? 3 then 1
                 else if strict_eq (n card + 1) 1 then 1
                 else if strict_eq (n card + 1) 2 then 6
                 else Math_round (I card * EF card))
    by (unfold calculateSM2; cbn [sm2_I]; now destruct (q <? 3)).
  rewrite Hn, HI.
  destruct (q <? 3) eqn:Q3.
  - replace (gtb 0 2) with false by reflexivity. reflexivity.
  - destruct HnI as [Hz|H1].
    + rewrite (strict_eq_zero_succ _ Hz).
      replace (gtb 1 2) with false by reflexivity. reflexivity.
    + destruct (gtb (n card + 1) 2 && geb q 3).
      * apply Math_round_lower, mul_retention; [|assumption].
        now apply mul_interval_ease.
      * destruct (strict_eq _ 1); [reflexivity|].
        destruct (strict_eq _ 2); [reflexivity|].
        apply Math_round_lower.
        apply leb_trans with 1.3; [reflexivity|].
        now apply mul_interval_ease.
Qed.

Lemma qMap_grades (uiGrade : Z) :
  In uiGrade [1; 2; 3; 4]%Z -> In (to_number (qMap uiGrade)) [1; 3; 4; 5].
Proof.
  simpl. intros [<-|[<-|[<-|[<-|[]]]]]; simpl; tauto.
Qed.

(** X17: a successful [submitReview] with one of the four grade buttons,
    on a card whose ease factor is at least 1.3 and which is either at
    [n = 0] or has an interval of at least one day, writes an interval of at
    least one day (and an ease factor of at least 1.3), whatever the
    multipliers are. *)
Theorem reviewed_interval_at_least_one_day (st st' : State) (uiGrade : Z)
  (now : num) (card : Card) :
  nth_error (studyQueue st) (currentCardIndex st) = Some card ->
  In uiGrade [1; 2; 3; 4]%Z ->
  (1.3 <=? EF card) = true ->
  strict_eq (n card) 0 = true \/ (1 <=? I card) = true ->
  submit st uiGrade now = Some st' ->
  exists card',
    get (id card) (cards st') = Some card' /\
    nth_error (studyQueue st') (currentCardIndex st) = Some card' /\
    (1 <=? I card') = true /\ (1.3 <=? EF card') = true.
Proof.
  intros Hc Hg HEF HnI Hs.
  rewrite submitReview_unfold, Hc in Hs.
  destruct (review' _ _ _ _) as [[card' log]|] eqn:Hr; [|discriminate].
  injection Hs as <-. exists card'. cbn [cards studyQueue].
  destruct (review_keeps_identity _ _ _ _ _ _ _ _ _ _ _ Hr) as (Hid & _).
  split; [now rewrite <- Hid, get_put, Z.eqb_refl|].
  split; [now apply nth_error_set_nth with (x := card)|].
  apply (review_schedulable card _ _ now card' log (qMap_grades _ Hg)
           (conj HEF HnI) Hr).
Qed.

(** X18: [schedulable] is an invariant of a study session: when it holds
    of every card of the queue and of the store, it holds of every card of
    both after any run of reviews with the four grade buttons. *)
Theorem session_keeps_cards_schedulable (st st' : State)
  (steps : list (Z * num)) :
  Forall (fun s => In (fst s) [1; 2; 3; 4]%Z) steps ->
  Forall schedulable (studyQueue st) -> Forall schedulable (cards st) ->
  run st steps = Some st' ->
  Forall schedulable (studyQueue st') /\ Forall schedulable (cards st').
Proof.
  intros Hg. revert st. induction Hg as [|[g now] steps Hg1 Hg IH];
    intros st Hq Hs; simpl.
  - intros [= <-]. now split.
  - destruct (submit st g now) as [st1|] eqn:E; [|discriminate].
    intros Hrun. apply (IH st1); try assumption;
      rewrite submitReview_unfold in E;
      destruct (nth_error _ _) as [card|] eqn:Hc; try discriminate;
      destruct (review' _ _ _ _) as [[card' log]|] eqn:Hr; try discriminate;
      injection E as <-; cbn [studyQueue cards];
      assert (Hok : schedulable card')
        by (destruct (review_schedulable card _ _ now card' log
                        (qMap_grades _ Hg1)
                        (proj1 (Forall_forall _ _) Hq _ (nth_error_In _ _ Hc))
                        Hr) as [A B];
            split; [assumption|now right]).
    + now apply Forall_set_nth.
    + now apply Forall_put.
Qed.

End Schedulable.

(* ================================================================== *)
(** ** The success rate of the dashboard *)
(* ================================================================== *)

Module Percent.

Import Rounding Canonical Quotient Products.
Local Open Scope Z_scope.

(** The quotient of two normal numbers, the first not above the second, is
    a normal number. *)
Lemma SFdiv_normal (M1 M2 : positive) (E1 E2 : Z) :
  Zpos (digits2_pos M1) = 53 -> Zpos (digits2_pos M2) = 53 ->
  -52 <= E1 -> E1 <= E2 -> E2 <= 0 ->
  Zpos M1 <= Zpos M2 * 2 ^ (E2 - E1) ->
  exists mf ef,
    SFdiv prec emax (S754_finite false M1 E1) (S754_finite false M2 E2)
      = S754_finite false mf ef /\
    2 ^ 52 <= Zpos mf < 2 ^ 53 /\ -158 <= ef.
Proof.
  intros D1 D2 L1 L12 L2 Hle.
  pose proof (digits2_lt M1) as A1. pose proof (digits2_le M1) as B1.
  pose proof (digits2_lt M2) as A2. pose proof (digits2_le M2) as B2.
  rewrite D1 in A1, B1. rewrite D2 in A2, B2.
  set (t := 53 + (E2 - E1)).
  assert (Ht : 2 ^ t = 2 ^ 53 * 2 ^ (E2 - E1))
    by (unfold t; rewrite Z.pow_add_r by lia; reflexivity).
  assert (Hp : 0 < 2 ^ (E2 - E1)) by (apply Z.pow_pos_nonneg; lia).
  cbn [SFdiv xorb]. unfold SFdiv_core_binary. cbn [Zdigits2].
  rewrite D1, D2.
  replace (Z.min (fexp prec emax (53 + E1 - (53 + E2))) (E1 - E2)) with (- t)
    by (unfold fexp, prec, emax, emin, SpecFloat.emin, t; lia).
  replace (E1 - E2 - - t) with 53 by (unfold t; lia).
  rewrite Z.shiftl_mul_pow2 by lia.
  pose proof (Z_div_mod (Zpos M1 * 2 ^ 53) (Zpos M2) ltac:(lia)) as Hdm.
  destruct (Z.div_eucl (Zpos M1 * 2 ^ 53) (Zpos M2)) as [q r].
  destruct Hdm as [Hq Hr].
  pow_consts.
  assert (Q1 : 4503599627370496 <= q) by nia.
  assert (Q2 : q < 18014398509481984) by nia.
  assert (Q3 : q <= 2 ^ t) by (rewrite Ht; nia).
  destruct q as [|q|q]; try lia.
  destruct (binary_round_aux_le_pow false q (- t) t (new_location (Zpos M2) r))
    as (mf & ef & -> & Hmf & Hef & Hv);
    try assumption;
    try (pow_consts; unfold emin, SpecFloat.emin, emax, prec, t; lia).
  { intros E. rewrite Ht in E. rewrite E in Hq.
    replace r with 0 by lia. apply new_location_exact. }
  exists mf, ef. split; [reflexivity|]. split; [pow_consts; lia|].
  unfold t in Hef. lia.
Qed.

Lemma SFdiv_counts_normal (k n : Z) :
  0 < k <= n -> n < 2 ^ 53 ->
  exists mf ef,
    SFdiv prec emax (binary_normalize prec emax k 0 false)
                    (binary_normalize prec emax n 0 false)
      = S754_finite false mf ef /\
    2 ^ 52 <= Zpos mf < 2 ^ 53 /\ -158 <= ef.
Proof.
  intros Hk Hn.
  destruct n as [|n|n]; try lia. destruct k as [|k|k]; try lia.
  cbn [binary_normalize].
  destruct (binary_round_small n ltac:(lia)) as (M2 & E2 & -> & D2 & HE2 & B2 & V2).
  destruct (binary_round_small k ltac:(lia)) as (M1 & E1 & -> & D1 & HE1 & B1 & V1).
  pose proof (digits2_mono k n ltac:(lia)) as Dm.
  apply SFdiv_normal; try assumption; try lia.
  rewrite V1, V2.
  replace (- E1) with ((- E2) + (E2 - E1)) by lia.
  rewrite Z.pow_add_r by lia.
  assert (0 < 2 ^ (- E2)) by (apply Z.pow_pos_nonneg; lia).
  assert (0 < 2 ^ (E2 - E1)) by (apply Z.pow_pos_nonneg; lia).
  nia.
Qed.

Lemma SFleb_pos_upper (m mc : positive) (e ec : Z) :
  SFleb (S754_finite false m e) (S754_finite false mc ec) = true ->
  e < ec \/ (e = ec /\ Zpos m <= Zpos mc).
Proof.
  intros H. destruct (SFleb_pos_inv _ _ _ H) as [E|(mx & ex & E & C)];
    [discriminate|]. now injection E as <- <-.
Qed.

(** A product of two positive normal numbers is not above a normal number
    that their exact product is not above. *)
Lemma SFmul_upper (mx my mc : positive) (ex ey ec : Z) :
  Zpos (digits2_pos mx) = 53 -> Zpos (digits2_pos my) = 53 ->
  Zpos (digits2_pos mc) = 53 ->
  emin - 52 <= ex + ey -> ex + ey <= ec -> ec <= emax - prec ->
  Zpos mx * Zpos my <= Zpos mc * 2 ^ (ec - (ex + ey)) ->
  exists mf ef,
    SFmul prec emax (S754_finite false mx ex) (S754_finite false my ey)
      = S754_finite false mf ef /\
    SFleb (S754_finite false mf ef) (S754_finite false mc ec) = true.
Proof.
  intros Dx Dy Dc He Hec Hmax Hv.
  pose proof (digits2_product mx my Dx Dy) as Hs.
  pose proof (digits2_le (mx * my)) as Bp.
  set (s := Zpos (digits2_pos (mx * my)) - 53) in *.
  replace (Zpos (digits2_pos (mx * my))) with (53 + s) in Bp by (unfold s; lia).
  rewrite Z.pow_add_r, Pos2Z.inj_mul in Bp by lia.
  cbn [SFmul xorb].
  destruct (binary_round_aux_long false (mx * my) (ex + ey) s eq_refl)
    as (m2 & mf & ef & -> & Hmf & Hef & Hm2 & Hup & _);
    try (unfold emin, SpecFloat.emin in *; lia).
  pose proof (digits2_lt mc) as A. pose proof (digits2_le mc) as B.
  rewrite Dc in A, B. pow_consts.
  assert (P : 0 < 2 ^ s) by (apply Z.pow_pos_nonneg; lia).
  assert (C : ex + ey + s <= ec).
  { destruct (Z.le_gt_cases (ex + ey + s) ec) as [C|C]; [assumption|exfalso].
    assert (2 * 2 ^ (ec - (ex + ey)) <= 2 ^ s).
    { change 2 with (2 ^ 1) at 1. rewrite <- Z.pow_add_r by lia.
      apply Z.pow_le_mono_r; lia. }
    assert (0 < 2 ^ (ec - (ex + ey))) by (apply Z.pow_pos_nonneg; lia).
    nia. }
  assert (HN : Zpos m2 <= Zpos mc * 2 ^ (ec - (ex + ey + s))).
  { apply Hup. rewrite Pos2Z.inj_mul, <- Z.mul_assoc, <- Z.pow_add_r by lia.
    replace (ec - (ex + ey + s) + s) with (ec - (ex + ey)) by lia.
    assumption. }
  rewrite <- Hm2 in HN.
  assert (F : ef < ec \/ (ef = ec /\ Zpos mf <= Zpos mc)).
  { destruct (Z.lt_trichotomy ef ec) as [T|[T|T]]; [left; assumption| |exfalso].
    - right. split; [assumption|]. subst ef.
      assert (0 < 2 ^ (ec - (ex + ey + s))) by (apply Z.pow_pos_nonneg; lia).
      nia.
    - replace (ef - (ex + ey + s)) with ((ef - ec) + (ec - (ex + ey + s))) in HN
        by lia.
      rewrite Z.pow_add_r in HN by lia.
      assert (0 < 2 ^ (ec - (ex + ey + s))) by (apply Z.pow_pos_nonneg; lia).
      assert (X : 2 ^ 1 <= 2 ^ (ef - ec)) by (apply Z.pow_le_mono_r; lia).
      rewrite Z.pow_1_r in X.
      assert (Zpos mf * 2 ^ (ef - ec) <= Zpos mc).
      { apply (Z.mul_le_mono_pos_r _ _ (2 ^ (ec - (ex + ey + s))));
          [assumption|].
        rewrite <- Z.mul_assoc. exact HN. }
      nia. }
  exists mf, ef.
  replace (ef <=? emax - prec) with true by (symmetry; apply Z.leb_le; lia).
  split; [reflexivity|]. now apply SFleb_pos_intro.
Qed.

End Percent.

(** [Math.round] of a number between 0 and 100 is one of the integers 0 to
    100. *)
Lemma Math_round_percent (w : float) (m : positive) (e : Z) :
  Prim2SF w = S754_finite false m e -> (w <=? 100) = true ->
  exists j, (j <= 100)%nat /\ Math_round w = of_nat j.
Proof.
  intros E H. rewrite leb_spec, E in H.
  change (Prim2SF 100) with (S754_finite false 7036874417766400 (-46)) in H.
  apply Percent.SFleb_pos_upper in H.
  pose proof (Prim2SF_valid w) as V. rewrite E in V. cbn [valid_binary] in V.
  pose proof (Canonical.bounded_digits _ _ V) as D.
  pose proof (Canonical.digits2_lt m) as A.
  assert (M : (Zpos m < 2 ^ 53)%Z).
  { eapply Z.lt_le_trans; [exact A|]. apply Z.pow_le_mono_r; unfold prec in D; lia. }
  change (2 ^ 53)%Z with 9007199254740992%Z in M.
  unfold Math_round. rewrite E. cbn [SFround cond_Zopp].
  replace (0 <=? e)%Z with false by (symmetry; apply Z.leb_gt; lia).
  rewrite Z.shiftr_div_pow2 by lia.
  assert (P : (0 < 2 ^ (- e))%Z) by (apply Z.pow_pos_nonneg; lia).
  assert (P2 : (2 ^ (- e + 1) = 2 * 2 ^ (- e))%Z)
    by (rewrite Z.pow_add_r, Z.pow_1_r by lia; ring).
  assert (K1 : (0 <= (2 * Zpos m + 2 ^ (- e)) / 2 ^ (- e + 1))%Z)
    by (apply Z.div_pos; lia).
  assert (K2 : ((2 * Zpos m + 2 ^ (- e)) / 2 ^ (- e + 1) < 101)%Z).
  { apply Z.div_lt_upper_bound; [lia|]. rewrite P2.
    destruct H as [H|[-> H]].
    - assert (2 ^ 47 <= 2 ^ (- e))%Z by (apply Z.pow_le_mono_r; lia).
      change (2 ^ 47)%Z with 140737488355328%Z in *. lia.
    - change (2 ^ (- -46))%Z with 70368744177664%Z. lia. }
  set (k := ((2 * Zpos m + 2 ^ (- e)) / 2 ^ (- e + 1))%Z) in *.
  exists (Z.to_nat k). split; [lia|].
  rewrite <- (SF2Prim_Prim2SF (of_nat (Z.to_nat k))).
  rewrite Prim2SF_of_nat by (rewrite Z2Nat.id by lia; lia).
  rewrite Z2Nat.id by lia.
  destruct k as [|k'|k']; try lia; reflexivity.
Qed.

(** A ratio of counts, times 100, is a positive number not above 100. *)
Lemma percent_bounds (k n : nat) :
  (0 < k <= n)%nat -> (Z.of_nat n < 2 ^ 53)%Z ->
  exists m e,
    Prim2SF (of_nat k / of_nat n * 100) = S754_finite false m e /\
    (of_nat k / of_nat n * 100 <=? 100) = true.
Proof.
  intros Hk Hn.
  pose proof (ratio_bounds k n ltac:(lia) ltac:(lia) Hn) as [_ Hle].
  pose proof (Prim2SF_valid (of_nat k / of_nat n)) as V.
  rewrite leb_spec in Hle. rewrite leb_spec, mul_spec. unfold SF64mul.
  revert V Hle. rewrite div_spec, !Prim2SF_of_nat by lia. unfold SF64div.
  destruct (Percent.SFdiv_counts_normal (Z.of_nat k) (Z.of_nat n))
    as (mx & ex & -> & Hmx & Hex); try lia.
  intros V Hle. cbn [valid_binary] in V.
  change (Prim2SF 1) with (S754_finite false 4503599627370496 (-52)) in Hle.
  apply Percent.SFleb_pos_upper in Hle.
  change (Prim2SF 100) with (S754_finite false 7036874417766400 (-46)).
  pose proof (Canonical.bounded_normal _ _ V
                ltac:(unfold emin, SpecFloat.emin, emax, prec; lia)) as Dx.
  destruct (Percent.SFmul_upper mx 7036874417766400 7036874417766400
              ex (-46) (-46)) as (mf & ef & -> & Hb);
    try assumption; try reflexivity;
    try (unfold emin, SpecFloat.emin, emax, prec; lia).
  - replace (-46 - (ex + -46))%Z with (- ex)%Z by lia.
    assert (Zpos mx <= 2 ^ (- ex))%Z; [|nia].
    change (2 ^ 52)%Z with 4503599627370496%Z in *.
    change (2 ^ 53)%Z with 9007199254740992%Z in *.
    destruct Hle as [Hle|[-> Hle]].
    + assert (2 ^ 53 <= 2 ^ (- ex))%Z by (apply Z.pow_le_mono_r; lia).
      change (2 ^ 53)%Z with 9007199254740992%Z in *. lia.
    + change (2 ^ (- -52))%Z with 4503599627370496%Z. lia.
  - exists mf, ef. split; [reflexivity|assumption].
Qed.

(** X19: the seven-day success rate of the dashboard is one of the whole
    numbers 0 to 100; it is 0 when no review is that recent or none of them
    succeeded and 100 when all of them did. *)
Theorem rate7d_is_a_percentage (logs : list Log) (now : num) :
  (Z.of_nat (length (last7days logs now)) < 2 ^ 53)%Z ->
  (exists j, (j <= 100)%nat /\ rate7d logs now = of_nat j) /\
  (filter (fun l => geb (q l) 3) (last7days logs now) = [] ->
     rate7d logs now = 0) /\
  (last7days logs now <> [] ->
   filter (fun l => geb (q l) 3) (last7days logs now) = last7days logs now ->
     rate7d logs now = 100).
Proof.
  intros Hlen. unfold rate7d. cbv zeta.
  destruct (last7days logs now) as [|l0 l7'] eqn:E7.
  - split; [exists 0%nat; split; [lia|reflexivity]|].
    split; [reflexivity|]. intros H. now contradiction H.
  - assert (Hn : (0 < length (l0 :: l7'))%nat) by (simpl; lia).
    remember (l0 :: l7') as L eqn:EL.
    remember (filter (fun l => geb (q l) 3) L) as ok eqn:Eok.
    assert (Hk : (length ok <= length L)%nat)
      by (rewrite Eok; apply filter_length_le).
    split; [|split].
    + destruct (length ok) as [|k] eqn:Ek.
      * exists 0%nat. split; [lia|].
        now rewrite (ratio_zero _ Hn Hlen).
      * destruct (percent_bounds (S k) (length L) ltac:(lia) Hlen)
          as (m & e & Ew & Hw).
        exact (Math_round_percent _ m e Ew Hw).
    + intros H. rewrite H. change (length (@nil Log)) with 0%nat.
      now rewrite (ratio_zero _ Hn Hlen).
    + intros _ H. rewrite H.
      now rewrite (ratio_one _ Hn Hlen).
Qed.

(* ================================================================== *)
(** ** Counting cards and reviews *)
(* ================================================================== *)

Module Counting.

Import Rounding Canonical Quotient Products.
Local Open Scope Z_scope.

(** An integer below [2^53] scaled by [2^52] normalizes to the same
    number. *)
Lemma binary_round_scaled (z p : positive) :
  Zpos z < 2 ^ 53 -> Zpos p = Zpos z * 2 ^ 52 ->
  binary_round prec emax false p (-52) = binary_round prec emax false z 0.
Proof.
  intros Hz Hp.
  destruct (binary_round_small z Hz) as (M & E & -> & DM & HE & BE & VM).
  pose proof (digits2_lt z) as A. pose proof (digits2_le z) as B.
  assert (Hd : 1 <= Zpos (digits2_pos z)) by lia.
  remember (Zpos (digits2_pos z)) as d eqn:Ed. clear Ed.
  assert (Dp : Zpos (digits2_pos p) = d + 52).
  { apply digits2_unique. rewrite Hp.
    replace (d + 52 - 1) with ((d - 1) + 52) by lia.
    rewrite !Z.pow_add_r by lia.
    assert (2 ^ d = 2 * 2 ^ (d - 1)).
    { change 2 with (2 ^ 1) at 2. rewrite <- Z.pow_add_r by lia.
      f_equal. lia. }
    change (2 ^ 52) with 4503599627370496. lia. }
  unfold binary_round. rewrite Dp.
  replace (fexp prec emax (d + 52 + -52)) with (d - 53)
    by (unfold fexp, prec, emax, emin, SpecFloat.emin; lia).
  assert (Hal : shl_align p (-52) (d - 53) = (p, -52)).
  { unfold shl_align. destruct (d - 53 - -52) eqn:Ed; try reflexivity. lia. }
  rewrite Hal.
  destruct (Z.eq_dec d 1) as [D1|D1].
  - assert (z = 1%positive).
    { rewrite D1 in A. change (2 ^ 1) with 2 in A. lia. }
    subst z. change (2 ^ 52) with 4503599627370496 in Hp.
    assert (p = 4503599627370496%positive) by lia. subst p d E.
    change (2 ^ (- (1 - 53))) with 4503599627370496 in VM.
    assert (M = 4503599627370496%positive) by lia. subst M.
    reflexivity.
  - destruct (binary_round_aux_long false p (-52) (d - 1))
      as (m2 & mf & ef & -> & Hmf & Hef & Hm2 & Hup & Hlow);
      try (unfold emin, SpecFloat.emin, emax, prec; lia).
    assert (P : 2 ^ 52 = 2 ^ (53 - d) * 2 ^ (d - 1))
      by (rewrite <- Z.pow_add_r by lia; f_equal; lia).
    assert (P' : 2 ^ 53 = 2 ^ d * 2 ^ (53 - d))
      by (rewrite <- Z.pow_add_r by lia; f_equal; lia).
    assert (0 < 2 ^ (53 - d)) by (apply Z.pow_pos_nonneg; lia).
    assert (0 < 2 ^ (d - 1)) by (apply Z.pow_pos_nonneg; lia).
    assert (HN : Zpos m2 = Zpos z * 2 ^ (53 - d)).
    { apply Z.le_antisymm; [apply Hup|apply Hlow];
        rewrite Hp, P; lia. }
    replace (- E) with (53 - d) in VM by lia.
    assert (Hm2' : Zpos m2 < 2 ^ 53) by (rewrite HN, P'; nia).
    assert (ef = -52 + (d - 1)).
    { destruct (Z.eq_dec ef (-52 + (d - 1))) as [Q|Q]; [assumption|].
      replace (ef - (-52 + (d - 1))) with 1 in Hm2 by lia.
      rewrite Z.pow_1_r in Hm2. lia. }
    subst ef. rewrite Z.sub_diag, Z.pow_0_r, Z.mul_1_r in Hm2.
    replace (-52 + (d - 1) <=? emax - prec) with true
      by (symmetry; apply Z.leb_le; unfold emax, prec; lia).
    f_equal; lia.
Qed.

Lemma SFadd_one (k : positive) :
  Zpos k + 1 < 2 ^ 53 ->
  SFadd prec emax (binary_round prec emax false k 0)
                  (S754_finite false 4503599627370496 (-52))
  = binary_round prec emax false (k + 1) 0.
Proof.
  intros Hk.
  destruct (binary_round_small k ltac:(lia)) as (M & E & -> & DM & HE & BE & VM).
  cbn [SFadd cond_Zopp].
  rewrite Z.min_r by lia.
  pose proof (shl_align_fst M E (-52) ltac:(lia)) as F1.
  pose proof (shl_align_fst 4503599627370496 (-52) (-52) ltac:(lia)) as F2.
  rewrite Z.sub_diag, Z.pow_0_r, Z.mul_1_r in F2.
  rewrite F1, F2, VM.
  assert (P : 2 ^ (- E) * 2 ^ (E - -52) = 2 ^ 52)
    by (rewrite <- Z.pow_add_r by lia; f_equal; lia).
  assert (S : Zpos k * 2 ^ (- E) * 2 ^ (E - -52) + 4503599627370496
              = Zpos (k + 1) * 2 ^ 52).
  { rewrite <- Z.mul_assoc, P. change (2 ^ 52) with 4503599627370496. lia. }
  rewrite S.
  destruct (Zpos (k + 1) * 2 ^ 52) as [|p|p] eqn:Ep; try lia.
  cbn [binary_normalize]. apply binary_round_scaled; lia.
Qed.

End Counting.

(** Counting by adding 1 is exact below [2^53]. *)
Lemma of_nat_succ (k : nat) :
  (Z.of_nat (S k) < 2 ^ 53)%Z -> of_nat k + 1 = of_nat (S k).
Proof.
  intros H. apply Prim2SF_inj.
  rewrite add_spec, !Prim2SF_of_nat by lia. unfold SF64add.
  change (Prim2SF 1) with (S754_finite false 4503599627370496 (-52)).
  rewrite Nat2Z.inj_succ in *.
  destruct (Z.of_nat k) as [|p|p] eqn:Ep; try lia; [reflexivity|].
  replace (Z.succ (Zpos p)) with (Zpos (p + 1)) in * by lia.
  cbn [binary_normalize]. apply Counting.SFadd_one. lia.
Qed.

Lemma truthy_of_nat (k : nat) :
  (0 < k)%nat -> (Z.of_nat k < 2 ^ 53)%Z -> truthy (of_nat k) = true.
Proof.
  intros Hk Hb. unfold truthy.
  assert (E : exists M E, Prim2SF (of_nat k) = S754_finite false M E).
  { rewrite Prim2SF_of_nat by assumption.
    destruct (Z.of_nat k) as [|p|p] eqn:Ep; try lia.
    cbn [binary_normalize].
    destruct (Quotient.binary_round_small p Hb) as (M & E & -> & _).
    now exists M, E. }
  destruct E as (M & E & HP).
  assert (Hn : is_nan (of_nat k) = false)
    by (apply is_nan_false; rewrite HP; discriminate).
  assert (Hz : is_zero (of_nat k) = false).
  { unfold is_zero. rewrite eqb_spec, HP. reflexivity. }
  now rewrite Hn, Hz.
Qed.

Lemma countMap_fold (l : list Card) :
  forall (m : Z -> option num) (cnt : Z -> nat),
    (forall key, Z.of_nat (cnt key + length l) < 2 ^ 53)%Z ->
    (forall key, or_else (m key) 0 = of_nat (cnt key)) ->
    forall key,
      or_else
        (fold_left
           (fun m c key =>
              if (key =? deckId c)%Z then Some (or_else (m (deckId c)) 0 + 1)
              else m key) l m key) 0
      = of_nat (cnt key + length (getCardsByDeck key l)).
Proof.
  induction l as [|c l IH]; intros m cnt Hb Hm key; simpl.
  - now rewrite Nat.add_0_r.
  - rewrite (IH _ (fun key => if (key =? deckId c)%Z then S (cnt key)
                              else cnt key)).
    + rewrite (Z.eqb_sym (deckId c) key).
      destruct (key =? deckId c)%Z; simpl; f_equal; lia.
    + intros key'. specialize (Hb key'). simpl in Hb.
      destruct (key' =? deckId c)%Z; lia.
    + intros key'. destruct (key' =? deckId c)%Z eqn:E; [|apply Hm].
      apply Z.eqb_eq in E. subst key'.
      specialize (Hb (deckId c)). simpl in Hb.
      rewrite Hm, of_nat_succ by lia.
      apply or_else_present, truthy_of_nat; lia.
Qed.

(** X20: the number of cards the deck list shows for a deck is the number
    of cards of the store that belong to it, the length of what
    [getCardsByDeck] returns for the card manager. *)
Theorem deck_count_is_card_count (allCards : list Card) (d : Deck) :
  (Z.of_nat (length allCards) < 2 ^ 53)%Z ->
  deck_count allCards d
  = of_nat (length (getCardsByDeck (deck_id d) allCards)).
Proof.
  intros Hb. unfold deck_count, countMap.
  now rewrite (countMap_fold allCards (fun _ => None) (fun _ => 0%nat)).
Qed.

Section Counters.

Variables Math_exp Math_log2 Math_log10 : num -> num.
Variable Date_getDate : num -> num.
Variable Date_setDate : num -> num -> num.

Local Abbreviation review' := (review Math_exp Math_log2 Math_log10 Date_getDate Date_setDate).
Local Abbreviation submit := (submitReview Math_exp Math_log2 Math_log10 Date_getDate Date_setDate).

(** X21: a successful review (one of the grade buttons 2, 3, 4) adds
    exactly one to the repetition counter and to the success counter of the
    card, a missing or zero success counter counting as 0; the counters stay
    whole numbers. *)
Theorem successful_review_counts (st st' : State) (uiGrade : Z) (now : num)
  (card : Card) (j k : nat) :
  nth_error (studyQueue st) (currentCardIndex st) = Some card ->
  In uiGrade [2; 3; 4]%Z ->
  n card = of_nat j -> or_else (totalSuccesses card) 0 = of_nat k ->
  (Z.of_nat (S j) < 2 ^ 53)%Z -> (Z.of_nat (S k) < 2 ^ 53)%Z ->
  submit st uiGrade now = Some st' ->
  exists card',
    get (id card) (cards st') = Some card' /\
    n card' = of_nat (S j) /\ totalSuccesses card' = Some (of_nat (S k)).
Proof.
  intros Hc Hg Hn Hk Bj Bk Hs.
  rewrite submitReview_unfold, Hc in Hs.
  destruct (review' _ _ _ _) as [[card' log]|] eqn:Hr; [|discriminate].
  injection Hs as <-. exists card'. cbn [cards].
  destruct (review_keeps_identity _ _ _ _ _ _ _ _ _ _ _ Hr) as (Hid & _).
  split; [now rewrite <- Hid, get_put, Z.eqb_refl|].
  revert Hr. unfold review. destruct (valid_time _); [|discriminate].
  intros [= <- _]. cbn [n totalSuccesses].
  rewrite Hk, <- (of_nat_succ j Bj), <- (of_nat_succ k Bk), <- Hn.
  simpl in Hg. destruct Hg as [<-|[<-|[<-|[]]]]; split; reflexivity.
Qed.

End Counters.

(* ================================================================== *)
(** ** Deleting a card from the card manager *)
(* ================================================================== *)

Lemma del_absent (k : Z) (store : list Card) :
  ~ In k (map id store) -> del k store = store.
Proof.
  unfold del. induction store as [|c store IH]; simpl; intros H;
    [reflexivity|].
  destruct (id c =? k)%Z eqn:E.
  - apply Z.eqb_eq in E. tauto.
  - simpl. f_equal. apply IH. tauto.
Qed.

(** X22: a confirmed [deleteCard] leaves no record under the key and every
    other key as it was; deleting a key that is not in the store changes
    nothing, and so does declining the confirmation. *)
Theorem deleteCard_effects (store : list Card) (k : Z) :
  deleteCard store k false = store /\
  get k (deleteCard store k true) = None /\
  (forall k', k' <> k -> get k' (deleteCard store k true) = get k' store) /\
  (~ In k (map id store) -> deleteCard store k true = store) /\
  (keys_distinct store -> keys_distinct (deleteCard store k true)).
Proof.
  unfold deleteCard. split; [reflexivity|]. split; [|split; [|split]].
  - now rewrite get_del, Z.eqb_refl.
  - intros k' Hk. rewrite get_del.
    destruct (k =? k')%Z eqn:E; [|reflexivity].
    apply Z.eqb_eq in E. congruence.
  - apply del_absent.
  - apply del_keys_distinct.
Qed.

(* ================================================================== *)
(** ** Instances on the sample data *)
(* ================================================================== *)

Example sample_queue :
  map id (studyQueue sample_state) = [2; 4; 1]%Z /\
  currentCardIndex sample_state = 0%nat.
Proof. split; reflexivity. Qed.

Lemma submitReview_effects_witness :
  exists st' card',
    submitReview sample_exp sample_log2 sample_log10 sample_getDate sample_setDate
        sample_state 3 1.7e12
      = Some st' /\
    get 2 (cards st') = Some card' /\
    length (logs st') = 7%nat /\ currentCardIndex st' = 1%nat.
Proof.
  destruct (submitReview sample_exp sample_log2 sample_log10 sample_getDate sample_setDate
      sample_state 3 1.7e12)
    as [st'|] eqn:E; [|vm_compute in E; discriminate].
  destruct (submitReview_effects _ _ _ _ _ _ _ _ _ E)
    as (card & card' & log & Hc & _ & _ & Hg & _ & _ & Hl & _ & _ & _ & _ & _
        & _ & _ & _ & _ & Hi).
  assert (Hid : id card = 2%Z) by (vm_compute in Hc; now injection Hc as <-).
  exists st', card'. rewrite <- Hid, Hl, Hi, length_app.
  repeat split; assumption || reflexivity.
Defined.

Lemma reviews_progress_witness :
  exists st',
    reviews sample_exp sample_log2 sample_log10 sample_getDate sample_setDate
        sample_state
      [(3%Z, 1.7e12); (1%Z, 1.70000001e12)] = Some st' /\
    currentCardIndex st' = 2%nat /\ length (logs st') = 8%nat.
Proof.
  destruct (reviews sample_exp sample_log2 sample_log10 sample_getDate sample_setDate
      sample_state
              [(3%Z, 1.7e12); (1%Z, 1.70000001e12)]) as [st'|] eqn:E;
    [|vm_compute in E; discriminate].
  destruct (reviews_progress _ _ _ _ _ _ _ _ E) as (H1 & _ & _ & H2).
  exists st'. repeat split; assumption.
Defined.

Lemma session_ends_witness :
  exists st',
    reviews sample_exp sample_log2 sample_log10 sample_getDate sample_setDate
        sample_state
      [(3%Z, 1.7e12); (1%Z, 1.70000001e12); (4%Z, 1.70000002e12)] = Some st' /\
    renderCurrentStudyCard st' = EmptySession.
Proof.
  destruct (reviews sample_exp sample_log2 sample_log10 sample_getDate sample_setDate
      sample_state
              [(3%Z, 1.7e12); (1%Z, 1.70000001e12); (4%Z, 1.70000002e12)])
    as [st'|] eqn:E; [|vm_compute in E; discriminate].
  exists st'. split; [reflexivity|].
  now apply (session_ends _ _ _ _ _ _ _ _ E).
Defined.

Lemma getDueCards_strongly_sorted_witness :
  StronglySorted (fun a b => (ps b <=? ps a) = true)
    (getDueCards sample_exp sample_log2 sample_log10 sample_getDate sample_setDate
        sample_cards
       (Some sample_logs) 1.7e12).
Proof.
  apply getDueCards_strongly_sorted. repeat constructor.
Defined.

Lemma startSession_groups_sorted_witness :
  StronglySorted (fun a b => (ps b <=? ps a) = true)
    (filter (fun c => (deckId c =? 2)%Z)
       (getDueCards sample_exp sample_log2 sample_log10 sample_getDate sample_setDate
           sample_cards
          (Some sample_logs) 1.7e12)).
Proof.
  apply (startSession_groups_sorted sample_exp sample_log2 sample_log10 sample_getDate sample_setDate
           (mkState [] 0 sample_cards sample_logs) 2 1.7e12).
  - discriminate.
  - repeat constructor.
Defined.

Lemma zero_repetitions_always_due_witness :
  exists c,
    In c (getDueCards sample_exp sample_log2 sample_log10 sample_getDate sample_setDate
        sample_cards
            (Some sample_logs) 1.5e12) /\
    id c = 2%Z /\ ps c = 100.
Proof.
  destruct (zero_repetitions_always_due sample_exp sample_log2 sample_log10 sample_getDate sample_setDate
              sample_cards (Some sample_logs) 1.5e12 (new_card 2 2))
    as (c & H1 & H2 & _ & H3).
  - right. now left.
  - reflexivity.
  - now exists c.
Defined.

Lemma lapsed_card_due_at_once_witness :
  exists st' card',
    submitReview sample_exp sample_log2 sample_log10 sample_getDate sample_setDate
        sample_state 1 1.7e12
      = Some st' /\
    get 2 (cards st') = Some card' /\
    nextReviewAt card' = Some (1.7e12 + day_ms) /\
    exists c,
      In c (getDueCards sample_exp sample_log2 sample_log10 sample_getDate sample_setDate
          (cards st')
              (Some (logs st')) 1.7000001e12) /\
      id c = 2%Z /\ ps c = 100.
Proof.
  destruct (submitReview sample_exp sample_log2 sample_log10 sample_getDate sample_setDate
      sample_state 1 1.7e12)
    as [st'|] eqn:E; [|vm_compute in E; discriminate].
  destruct (lapsed_card_due_at_once sample_exp sample_log2 sample_log10 sample_getDate sample_setDate
              sample_state st' 1.7e12 (spread (new_card 2 2) sentinel)
              eq_refl E) as (card' & Hg & _ & _ & Hn & _ & Hdue).
  destruct (Hdue 1.7000001e12) as (c & H1 & H2 & _ & H3).
  exists st', card'. split; [reflexivity|]. split; [exact Hg|].
  split; [exact Hn|]. exists c. repeat split; assumption.
Defined.

Lemma good_grade_keeps_ease_factor_witness :
  sm2_EF (calculateSM2 (mkCard 4 2 2 6 1.3 (Some 1.7e12) (Some 1.69e12) (Some 4)
                          no_stats) 4) = 1.3.
Proof.
  apply (good_grade_keeps_ease_factor
           (mkCard 4 2 2 6 1.3 (Some 1.7e12) (Some 1.69e12) (Some 4) no_stats)).
  reflexivity.
Defined.

Lemma stats_versions_agree_witness :
  getDueCards_v2 sample_exp sample_log2 sample_log10 sample_getDate sample_setDate
      sample_cards
    (Some sample_logs) 1.7e12 =
  getDueCards sample_exp sample_log2 sample_log10 sample_getDate sample_setDate
      sample_cards
    (Some sample_logs) 1.7e12.
Proof.
  apply stats_versions_agree. intros card Hin. simpl in Hin.
  destruct Hin as [<-|[<-|[<-|[<-|[]]]]];
    (left; reflexivity) || (right; left; reflexivity).
Defined.

Lemma forgetting_rate_ends_witness :
  (0 <? forgetRate (getUserStats sample_getDate sample_setDate
                      (Some sample_logs) 1.7e12)) = true.
Proof.
  apply (forgetting_rate_ends sample_getDate sample_setDate
           (Some sample_logs) 1.7e12).
  - reflexivity.
  - discriminate.
Defined.

Lemma reviewed_interval_at_least_one_day_witness :
  exists st' card',
    submitReview sample_exp sample_log2 sample_log10 sample_getDate sample_setDate
        sample_state 4 1.7e12
      = Some st' /\
    get 2 (cards st') = Some card' /\ (1 <=? I card') = true.
Proof.
  destruct (submitReview sample_exp sample_log2 sample_log10 sample_getDate sample_setDate
      sample_state 4 1.7e12)
    as [st'|] eqn:E; [|vm_compute in E; discriminate].
  destruct (reviewed_interval_at_least_one_day sample_exp sample_log2
              sample_log10 sample_getDate sample_setDate sample_state st' 4 1.7e12
              (spread (new_card 2 2) sentinel))
    as (card' & Hg & _ & HI & _).
  - reflexivity.
  - simpl. tauto.
  - reflexivity.
  - left. reflexivity.
  - exact E.
  - exists st', card'. split; [reflexivity|]. split; assumption.
Defined.

Lemma session_keeps_cards_schedulable_witness :
  exists st',
    reviews sample_exp sample_log2 sample_log10 sample_getDate sample_setDate
        sample_state
      [(3%Z, 1.7e12); (1%Z, 1.70000001e12); (4%Z, 1.70000002e12)] = Some st' /\
    Forall schedulable (studyQueue st') /\ Forall schedulable (cards st').
Proof.
  destruct (reviews sample_exp sample_log2 sample_log10 sample_getDate sample_setDate
      sample_state
              [(3%Z, 1.7e12); (1%Z, 1.70000001e12); (4%Z, 1.70000002e12)])
    as [st'|] eqn:E; [|vm_compute in E; discriminate].
  exists st'. split; [reflexivity|].
  apply (session_keeps_cards_schedulable sample_exp sample_log2 sample_log10 sample_getDate sample_setDate
           sample_state st'
           [(3%Z, 1.7e12); (1%Z, 1.70000001e12); (4%Z, 1.70000002e12)]).
  - repeat constructor; simpl; tauto.
  - repeat constructor; try reflexivity; (left; reflexivity) || (right; reflexivity).
  - repeat constructor; try reflexivity; (left; reflexivity) || (right; reflexivity).
  - exact E.
Defined.

Lemma rate7d_is_a_percentage_witness :
  exists j, (j <= 100)%nat /\ rate7d sample_logs 1.6995e12 = of_nat j.
Proof.
  apply (rate7d_is_a_percentage sample_logs 1.6995e12). reflexivity.
Defined.

Example rate7d_sample :
  length (last7days sample_logs 1.6995e12) = 5%nat /\
  rate7d sample_logs 1.6995e12 = 60.
Proof. split; reflexivity. Qed.

Lemma deck_count_is_card_count_witness :
  deck_count sample_cards sample_deck = of_nat 2.
Proof.
  apply (deck_count_is_card_count sample_cards sample_deck). reflexivity.
Defined.

Lemma successful_review_counts_witness :
  exists st' card',
    submitReview sample_exp sample_log2 sample_log10 sample_getDate sample_setDate
        sample_state 3 1.7e12
      = Some st' /\
    get 2 (cards st') = Some card' /\
    n card' = of_nat 1 /\ totalSuccesses card' = Some (of_nat 1).
Proof.
  destruct (submitReview sample_exp sample_log2 sample_log10 sample_getDate sample_setDate
      sample_state 3 1.7e12)
    as [st'|] eqn:E; [|vm_compute in E; discriminate].
  destruct (successful_review_counts sample_exp sample_log2 sample_log10 sample_getDate sample_setDate
              sample_state st' 3 1.7e12 (spread (new_card 2 2) sentinel) 0 0)
    as (card' & Hg & Hn & Hk).
  - reflexivity.
  - simpl. tauto.
  - reflexivity.
  - reflexivity.
  - reflexivity.
  - reflexivity.
  - exact E.
  - exists st', card'. repeat split; assumption.
Defined.
